(** * Vortex extension manager: recorder proxy, compatibility filter,
      metadata-store broker and state-change watcher

    A shallow embedding of [src/util/ExtensionManager.ts].

    Modelling conventions.
    - JavaScript values are first-order: primitives by value, objects and
      functions by reference.  Numbers are integer valued (no NaN).
    - A plain object used as a map is modelled by its own properties and its
      prototype.  [Object.prototype] is as the engine defines it and is not
      changed while the manager runs; its only accessor is [__proto__].
      Properties of other objects are data properties.
    - What [throw] was given is modelled as a [catch] block sees it: [null],
      [undefined], or a value whose [message] and [stack] can be read.  The
      module is compiled in strict mode.
    - Functions supplied by extensions (registration code, handlers,
      callbacks) are described by what the manager can observe of them: the
      operations they perform on the recorder proxy, and whether a call
      returns or throws.  They do not re-enter the manager while they run.
    - [log] and calls of foreign functions are recorded as a trace of
      events. *)

From Stdlib Require Import String List ZArith Bool Lia.
From stdpp Require Import base decidable option list strings gmap.
Import ListNotations.
Local Open Scope string_scope.
Local Open Scope list_scope.

(** ** JavaScript values, errors and the host environment *)

Inductive value : Type :=
| VUndefined
| VNull
| VBool (b : bool)
| VNum (n : Z)
| VStr (s : string)
| VObj (ref : nat)
| VFun (ref : nat).

#[global] Instance value_eq_dec : EqDecision value.
Proof. solve_decision. Defined.

(** [a === b] *)
Definition strict_eq (a b : value) : bool := bool_decide (a = b).

(** A [string]-typed field that may still hold [undefined]. *)
Definition of_string (s : option string) : value :=
  match s with
  | Some x => VStr x
  | None => VUndefined
  end.

(** What [throw] was given, as a [catch] block can tell: [null],
    [undefined], or any other value, with what its [message] and [stack]
    properties read as ([undefined] where it has none). *)
Inductive error : Type :=
| Thrown (message stack : value)
| ThrownNull
| ThrownUndefined.

(** An [Error] object: its message and its stack are strings. *)
Definition error_object (message stack : string) : error :=
  Thrown (VStr message) (VStr stack).

Inductive level : Type := Debug | Info | Warn | Error.

Record log_entry : Type :=
  { lvl : level; text : string; meta : list (string * value) }.

(** What the manager does to the outside world: lines written through
    [log], calls of functions it was handed, subscriptions made with
    redux-watcher, and metadata stores closed and constructed. *)
Inductive event : Type :=
| EvLog (e : log_entry)
| EvCall (f : value) (args : list value)
| EvWatch (watchPath : list string)
| EvClose (db : nat)
| EvNew (db : nat) (game apiKey : value).

Definition log (l : level) (msg : string) (m : list (string * value)) : list event :=
  [EvLog {| lvl := l; text := msg; meta := m |}].

(** What a property lookup finds on a prototype chain: nothing, a data
    property with its value and whether it may be written, or the
    [__proto__] accessor of [Object.prototype]. *)
Inductive inherited : Type :=
| Absent
| Data (v : value) (writable : bool)
| ProtoAccessor.

(** The names [Object.prototype] defines. *)
Definition Object_prototype_names : list string :=
  [ "constructor"; "__defineGetter__"; "__defineSetter__"; "hasOwnProperty";
    "__lookupGetter__"; "__lookupSetter__"; "isPrototypeOf";
    "propertyIsEnumerable"; "toString"; "valueOf"; "__proto__";
    "toLocaleString" ].

(** The environment the manager runs in: whether electron's [remote] is
    defined (renderer process), how the function behind a reference behaves
    when called ([None]: returns, [Some e]: throws [e]), and the [TypeError]
    the engine raises when the property named [k] is called although it is
    not a function. *)
Class Host : Type :=
  { remote_defined : bool;
    call_function : nat -> list value -> option error;
    type_error : string -> error;
    (* modmeta-db: whether [db.close()] of the instance behind a reference
       resolves or rejects, and whether [new ModDB(path, game, servers)]
       returns or throws *)
    close_db : nat -> option error;
    new_db : value -> value -> option error;
    (* the engine's objects: the reference of [Object.prototype], the value
       of its data property named [k], what looking [k] up on any other
       object finds, through the whole prototype chain of that object, and
       the [TypeError] the engine raises with a given message *)
    object_prototype : value;
    builtin : string -> value;
    lookup : value -> string -> inherited;
    new_TypeError : string -> error }.

(** The outcome of running a piece of code for its effects: the events it
    produced, and the exception it ended with, if any. *)
Definition action : Type := (list event * option error)%type.

(** [l.forEach(f)]: runs [f] on the elements in order; an exception thrown
    by [f] ends the loop and propagates. *)
Fixpoint forEach {A : Type} (f : A -> action) (l : list A) : action :=
  match l with
  | [] => ([], None)
  | x :: rest =>
      match f x with
      | (evs, Some e) => (evs, Some e)
      | (evs, None) =>
          let '(evs', r) := forEach f rest in (evs ++ evs', r)
      end
  end.

(** [try { body } catch (err) { handler(err) }]: what the handler throws
    leaves the statement. *)
Definition try_catch (body : action) (handler : error -> action) : action :=
  match body with
  | (evs, None) => (evs, None)
  | (evs, Some e) => let '(evs', r) := handler e in (evs ++ evs', r)
  end.

Section Calls.
Context `{Host}.

(** [f(...args)] where [f] was read from the property [k]. *)
Definition call_value (k : string) (f : value) (args : list value) : action :=
  match f with
  | VFun r => ([EvCall f args], call_function r args)
  | _ => ([], Some (type_error k))
  end.

(** The [TypeError] of reading the property [k] of [null] or [undefined]. *)
Definition property_error (nullish k : string) : error :=
  new_TypeError ("Cannot read property '" ++ k ++ "' of " ++ nullish).

(** The [TypeError] of assigning to a property that may not be written. *)
Definition readonly_error (k : string) : error :=
  new_TypeError ("Cannot assign to read only property '" ++ k ++ "' of object").

(** The body of a [catch (err)] block that builds a line of the log from
    [err.message] and [err.stack], reading [err.message] first: on [null]
    and [undefined] that read throws, and nothing is logged. *)
Definition catch_and_log {E : Type} (err : error) (line : value -> value -> list E)
  : list E * option error :=
  match err with
  | Thrown m s => (line m s, None)
  | ThrownNull => ([], Some (property_error "null" "message"))
  | ThrownUndefined => ([], Some (property_error "undefined" "message"))
  end.

(** Looking [k] up on the prototype [p] of a plain object. *)
Definition chain (p : value) (k : string) : inherited :=
  if bool_decide (p = object_prototype) then
    if String.eqb k "__proto__" then ProtoAccessor
    else if bool_decide (k ∈ Object_prototype_names) then Data (builtin k) true
    else Absent
  else
    match p with
    | VObj _ | VFun _ => lookup p k
    | _ => Absent
    end.

End Calls.

(** ** Plain objects used as tables *)

(** An object created by [{}] and only ever read and written by key: its
    own properties, all of them writable data properties, and its
    prototype. *)
Record plain : Type := { own : gmap string value; proto : value }.

Section Plain.
Context `{Host}.

(** [{}] *)
Definition plain_empty : plain := {| own := ∅; proto := object_prototype |}.

(** [o[k]] *)
Definition plain_get (o : plain) (k : string) : value :=
  match own o !! k with
  | Some v => v
  | None =>
      match chain (proto o) k with
      | Absent => VUndefined
      | Data v _ => v
      | ProtoAccessor => proto o
      end
  end.

(** [o[k] = v]: an own property is overwritten; through the [__proto__]
    accessor an object, a function or [null] becomes the prototype and any
    other value is ignored; an inherited property that may not be written
    makes the assignment throw; otherwise an own property is created. *)
Definition plain_set (o : plain) (k : string) (v : value) : plain * option error :=
  match own o !! k with
  | Some _ => ({| own := <[k := v]> (own o); proto := proto o |}, None)
  | None =>
      match chain (proto o) k with
      | ProtoAccessor =>
          match v with
          | VObj _ | VFun _ | VNull => ({| own := own o; proto := v |}, None)
          | _ => (o, None)
          end
      | Data _ false => (o, Some (readonly_error k))
      | _ => ({| own := <[k := v]> (own o); proto := proto o |}, None)
      end
  end.

End Plain.

(** ** JavaScript [Set]: insertion ordered, no duplicates *)

Module JsSet.
Section Elements.
Context {A : Type} `{EqDecision A}.

Definition t : Type := list A.

Definition empty : t := [].

Definition has (s : t) (x : A) : bool := bool_decide (x ∈ s).

Definition add (s : t) (x : A) : t := if has s x then s else s ++ [x].

(** [new Set(array)] *)
Definition from_array (l : list A) : t := fold_left add l empty.

Definition size (s : t) : nat := length s.

(** [Array.from(s)] *)
Definition to_array (s : t) : list A := s.

End Elements.
Arguments t : clear implicits.
End JsSet.

(** [array.join(sep)]; [undefined] elements print as the empty string. *)
Fixpoint join (sep : string) (l : list (option string)) : string :=
  match l with
  | [] => ""
  | [x] => default "" x
  | x :: rest => default "" x ++ sep ++ join sep rest
  end.

(** ** [ContextProxyHandler]: the recorder behind the context proxy *)

Module IInitCall.
Record t : Type :=
  { extension : option string;
    extensionPath : option string;
    key : string;
    arguments : list value;
    optional : bool }.
End IInitCall.

Module IApiAddition.
Record t : Type := { key : string; callback : value }.
End IApiAddition.

(** The object handed to the handler's constructor by [initExtensions]:
    [{ api: this.mApi }], a plain object with the one own property. *)
Record context : Type := { api : value }.

(** [key in context]: own or inherited. *)
Definition key_in (k : string) (c : context) : bool :=
  String.eqb k "api" || bool_decide (k ∈ Object_prototype_names).

(** [context[key]] *)
Definition context_get `{Host} (c : context) (k : string) : value :=
  if String.eqb k "api" then api c
  else plain_get plain_empty k.

(** What reading a property of the proxy (or of its [optional] surface)
    yields: a value of the underlying context, the [optional] surface
    itself, or a closure that records a call of [k] with the given
    [optional] flag when it is applied. *)
Inductive property : Type :=
| PValue (v : value)
| POptional
| PRecorder (k : string) (opt : bool).

(** The operations the registration code of an extension performs on the
    proxy it is given, in the order it performs them. *)
Inductive stmt : Type :=
| Invoke (k : string) (args : list value)
| InvokeOptional (k : string) (args : list value)
| Assign (k : string) (v : value)
| TestIn (k : string)
| Raise (e : error).

Module ContextProxyHandler.

Record t : Type :=
  { mContext : context;
    mInitCalls : list IInitCall.t;
    mApiAdditions : list IApiAddition.t;
    mCurrentExtension : option string;
    mCurrentPath : option string }.

Definition constructor (ctx : context) : t :=
  {| mContext := ctx;
     mInitCalls := [];
     mApiAdditions := [];
     mCurrentExtension := None;
     mCurrentPath := None |}.

Definition with_calls (h : t) (calls : list IInitCall.t) : t :=
  {| mContext := mContext h;
     mInitCalls := calls;
     mApiAdditions := mApiAdditions h;
     mCurrentExtension := mCurrentExtension h;
     mCurrentPath := mCurrentPath h |}.

(** The body of the closures returned by [get] and by the [optional]
    surface: [mInitCalls.push({...})] with the cursor as it is when the
    closure is applied. *)
Definition push_call (h : t) (k : string) (args : list value) (opt : bool) : t :=
  with_calls h
    (mInitCalls h ++
     [ {| IInitCall.extension := mCurrentExtension h;
          IInitCall.extensionPath := mCurrentPath h;
          IInitCall.key := k;
          IInitCall.arguments := args;
          IInitCall.optional := opt |} ]).

(** The [get] trap of [mOptional]. *)
Definition mOptional_get (k : string) : property := PRecorder k true.

Definition getCalls (h : t) (name : string) : list IInitCall.t :=
  List.filter (fun call => String.eqb (IInitCall.key call) name) (mInitCalls h).

Definition staticAPIs : list string :=
  [ "registerMainPage"; "registerDashlet"; "registerDialog";
    "registerSettings"; "registerAction"; "registerFooter"; "registerToDo";
    "registerModSource"; "registerReducer"; "registerPersistor";
    "registerSettingsHive"; "registerTableAttribute"; "registerTest";
    "registerArchiveType"; "registerGame"; "registerAttributeExtractor";
    "api"; "once"; "onceMain"; "optional" ].

Definition setExtension (extension extensionPath : string) (h : t) : t :=
  {| mContext := mContext h;
     mInitCalls := mInitCalls h;
     mApiAdditions := mApiAdditions h;
     mCurrentExtension := Some extension;
     mCurrentPath := Some extensionPath |}.

Definition has (h : t) (k : string) : bool := true.

Definition set (h : t) (k : string) (v : value) : t * bool :=
  ({| mContext := mContext h;
      mInitCalls := mInitCalls h;
      mApiAdditions :=
        mApiAdditions h ++ [ {| IApiAddition.key := k; IApiAddition.callback := v |} ];
      mCurrentExtension := mCurrentExtension h;
      mCurrentPath := mCurrentPath h |}, true).

(** The non-optional calls naming something outside [fullAPI]. *)
Definition unsupported (fullAPI : JsSet.t string) (call : IInitCall.t) : bool :=
  negb (IInitCall.optional call) && negb (JsSet.has fullAPI (IInitCall.key call)).

Definition fullAPI_of (furtherAPIs : JsSet.t string) (h : t) : JsSet.t string :=
  let addAPIs := map IApiAddition.key (mApiAdditions h) in
  JsSet.from_array (JsSet.to_array furtherAPIs ++ staticAPIs ++ addAPIs).

Definition incompatibleExtensions_of (furtherAPIs : JsSet.t string) (h : t)
  : JsSet.t (option string) :=
  fold_left (fun s call => JsSet.add s (IInitCall.extension call))
    (List.filter (unsupported (fullAPI_of furtherAPIs h)) (mInitCalls h))
    JsSet.empty.

Section WithHost.
Context `{Host}.

Definition get (h : t) (k : string) : property :=
  if key_in k (mContext h) then PValue (context_get (mContext h) k)
  else if String.eqb k "optional" then POptional
  else if key_in k (mContext h) then PValue (context_get (mContext h) k)
  else PRecorder k false.

(** Applying what [get] returned to [args]. *)
Definition apply_property (k : string) (p : property) (args : list value) (h : t)
  : t * action :=
  match p with
  | PValue v => (h, call_value k v args)
  | POptional => (h, ([], Some (type_error k)))
  | PRecorder k' opt => (push_call h k' args opt, ([], None))
  end.

(** [proxy[k](...args)] *)
Definition invoke (h : t) (k : string) (args : list value) : t * action :=
  apply_property k (get h k) args h.

(** [proxy.optional[k](...args)] *)
Definition invoke_optional (h : t) (k : string) (args : list value) : t * action :=
  match get h "optional" with
  | POptional => apply_property k (mOptional_get k) args h
  | _ => (h, ([], Some (type_error k)))
  end.

Definition exec (s : stmt) (h : t) : t * action :=
  match s with
  | Invoke k args => invoke h k args
  | InvokeOptional k args => invoke_optional h k args
  | Assign k v => (fst (set h k v), ([], None))
  | TestIn k => (h, ([], None))
  | Raise e => (h, ([], Some e))
  end.

(** Running the registration code of an extension against the proxy. *)
Fixpoint run (prog : list stmt) (h : t) : t * action :=
  match prog with
  | [] => (h, ([], None))
  | s :: rest =>
      match exec s h with
      | (h', (evs, Some e)) => (h', (evs, Some e))
      | (h', (evs, None)) =>
          let '(h'', (evs', r)) := run rest h' in (h'', (evs ++ evs', r))
      end
  end.

Definition invokeAdditions (h : t) : action :=
  forEach (fun addition =>
    forEach (fun call =>
      call_value "callback" (IApiAddition.callback addition)
        (IInitCall.arguments call ++ [of_string (IInitCall.extensionPath call)]))
      (getCalls h (IApiAddition.key addition)))
    (mApiAdditions h).

Definition unloadIncompatible (furtherAPIs : JsSet.t string) (h : t) : t * list event :=
  let fullAPI := fullAPI_of furtherAPIs h in
  let incompatibleExtensions := incompatibleExtensions_of furtherAPIs h in
  let debug :=
    flat_map (fun call =>
      log Debug "unsupported api call"
        [("extension", of_string (IInitCall.extension call));
         ("api", VStr (IInitCall.key call))])
      (List.filter (unsupported fullAPI) (mInitCalls h)) in
  if (0 <? JsSet.size incompatibleExtensions)%nat then
    (with_calls h
       (List.filter (fun call =>
          negb (JsSet.has incompatibleExtensions (IInitCall.extension call)))
          (mInitCalls h)),
     debug ++
     log Info "extensions ignored for using unsupported api"
       [("extensions", VStr (join ", " (JsSet.to_array incompatibleExtensions)))])
  else
    (h, debug ++ (if remote_defined then log Debug "all extensions compatible" [] else [])).

End WithHost.
End ContextProxyHandler.

(** ** The process and the libraries around the manager *)

(** [s.endsWith(suffix)] *)
Definition ends_with (suffix s : string) : bool :=
  if (String.length suffix <=? String.length s)%nat
  then String.eqb
         (substring (String.length s - String.length suffix) (String.length suffix) s)
         suffix
  else false.

(** [s.substr(1)] *)
Definition substr1 (s : string) : string :=
  match s with
  | EmptyString => EmptyString
  | String _ rest => rest
  end.

(** [v || null] tests [v] for truthiness. *)
Definition truthy (v : value) : bool :=
  match v with
  | VUndefined | VNull => false
  | VBool b => b
  | VNum n => negb (Z.eqb n 0)
  | VStr s => negb (String.eqb s "")
  | VObj _ | VFun _ => true
  end.

(** How the promise [openArchive] returns settles, or the exception
    [openArchive] throws instead of returning one. *)
Inductive archive_outcome : Type :=
| ArchiveOpened (handler : value)
| ArchiveRejected (e : error)
| ArchiveThrown (e : error).

(** What node and electron supply: the path of the executable, the
    directory [path.resolve(__dirname, '..', '..')], [path.extname],
    [path.join] and [path.basename], the string a value that is not a
    string turns into when it is used as a property key, the stack the
    engine attaches to [new Error(message)], and what
    [creator(archivePath, {}).then(handler => ...)] comes to for the function
    behind a reference: a promise that resolves with a handler or rejects,
    or an exception, as when what the function returns has no [then]. *)
Class Node : Type :=
  { execPath : string;
    vortex_root : string;
    extname : string -> string;
    path_join : string -> string -> string;
    basename : string -> string;
    key_of_value : value -> string;
    error_stack : string -> string;
    create_archive : nat -> string -> archive_outcome }.

(** [new Error(message)] *)
Definition new_Error `{Node} (msg : string) : error :=
  error_object msg (error_stack msg).

(** The key under which [obj[v] = ...] stores. *)
Definition property_key `{Node} (v : value) : string :=
  match v with
  | VStr s => s
  | _ => key_of_value v
  end.

(** [s.replace(pattern, replacement)] for a string [pattern] and a
    [replacement] without [$]: the first occurrence of the pattern, if there
    is one, is replaced. *)
Definition replace_first (pattern replacement s : string) : string :=
  match index 0 pattern s with
  | Some n =>
      substring 0 n s ++ replacement ++
      substring (n + String.length pattern)
        (String.length s - (n + String.length pattern)) s
  | None => s
  end.

(** [asarUnpacked]; [sep] is [path.sep]. *)
Definition asarUnpacked (sep : string) (input : string) : string :=
  replace_first ("app.asar" ++ sep) ("app.asar.unpacked" ++ sep) input.

(** Calls into electron's [app]. *)
Inductive app_call : Type :=
| SetAsDefaultProtocolClient (protocol path : string) (args : list string)
| RemoveAsDefaultProtocolClient (protocol : string) (rest : option (string * list string)).

(** What the file system, the module loader and the clock answer while the
    extensions are loaded: [fs.existsSync], [fs.readdirSync],
    [fs.statSync(p).isDirectory()] and [fs.mkdirSync] ([inl e], [Some e]:
    throws [e]), the default export of [require(p)] as the body of the init
    function ([inl e]: [require] throws [e]), the n-th reading of
    [new Date().getTime()], [path.sep],
    [path.resolve(__dirname, '..', 'bundledPlugins')] and
    [app.getPath('userData')].  Each answer is the one given when the path
    is asked about. *)
Class Disk : Type :=
  { existsSync : string -> bool;
    readdirSync : string -> error + list string;
    isDirectory : string -> error + bool;
    mkdirSync : string -> option error;
    require_default : string -> error + list stmt;
    getTime : nat -> Z;
    sep : string;
    bundledPlugins : string;
    userData : string }.

(** The third argument of [log]: a string or an object. *)
Inductive log_meta : Type :=
| MetaText (s : string)
| MetaObject (fields : list (string * value)).

(** What loading does: lines written through [log], directories created,
    [ratypes.clear()], and modules handed to [require]. *)
Inductive load_event : Type :=
| Logged (l : level) (text : string) (m : log_meta)
| Mkdir (dir : string)
| ClearTypes
| Required (modulePath : string).

(** ** [ExtensionManager] *)

Module ExtensionManager.

Record IRegisteredExtension : Type :=
  { name : string; path : string; initFunc : list stmt }.

(** *** Registration and filtering *)

Section Init.
Context `{Host}.

(** The body of [this.mExtensions.forEach(ext => ...)].  In the renderer
    the body also creates the style manager, which plays no part here. *)
Definition initExtension (ext : IRegisteredExtension) (h : ContextProxyHandler.t)
  : ContextProxyHandler.t * action :=
  let announce :=
    if remote_defined then log Info "init extension" [("name", VStr (name ext))]
    else [] in
  let h1 := ContextProxyHandler.setExtension (name ext) (path ext) h in
  let '(h2, body) := ContextProxyHandler.run (initFunc ext) h1 in
  let '(evs, r) :=
    try_catch body (fun err =>
      catch_and_log err (fun m _ =>
        log Warn "couldn't initialize extension" [("name", VStr (name ext)); ("err", m)])) in
  (h2, (announce ++ evs, r)).

(** [this.mExtensions.forEach(...)]: an exception that leaves the body ends
    the loop, with the handler as it is then. *)
Fixpoint registerAll (exts : list IRegisteredExtension) (h : ContextProxyHandler.t)
  : ContextProxyHandler.t * action :=
  match exts with
  | [] => (h, ([], None))
  | ext :: rest =>
      match initExtension ext h with
      | (h1, (evs1, Some e)) => (h1, (evs1, Some e))
      | (h1, (evs1, None)) =>
          let '(h2, (evs2, r)) := registerAll rest h1 in
          (h2, (evs1 ++ evs2, r))
      end
  end.

(** [initExtensions]: the handler it leaves in [mContextProxyHandler], and
    what it does; when the loop throws, so does [initExtensions], before the
    filter has run. *)
Definition initExtensions (mApi : value) (mExtensions : list IRegisteredExtension)
  (sUIAPIs : JsSet.t string) : ContextProxyHandler.t * action :=
  let ctx := {| api := mApi |} in
  let mContextProxyHandler := ContextProxyHandler.constructor ctx in
  match registerAll mExtensions mContextProxyHandler with
  | (h1, (evs1, Some e)) => (h1, (evs1, Some e))
  | (h1, (evs1, None)) =>
      let '(h2, evs2) := ContextProxyHandler.unloadIncompatible sUIAPIs h1 in
      (h2,
       (evs1 ++ evs2 ++
        (if remote_defined then log Info "all extensions initialized" [] else []),
        None))
  end.


End Init.

(** *** State-change watcher *)

(** A listener registered with redux-watcher by [stateChangeHandler]: the
    closure keeps the registry key it was made for and its own
    [lastValue] cell. *)
Record listener_closure : Type :=
  { watchPath_of : list string; key_of : string; lastValue : value }.

(** [mReduxWatcher] is [undefined] until [setStore] creates it; the watcher
    itself is the list of the listeners subscribed so far.  [mWatches] is a
    plain object; the field holds its own properties, which are arrays of
    callbacks. *)
Record watcher : Type :=
  { mReduxWatcher : option (list listener_closure);
    mWatches : gmap string (list value) }.

Definition watcher_initial : watcher :=
  {| mReduxWatcher := None; mWatches := ∅ |}.

(** [this.mReduxWatcher = new ReduxWatcher(store)] *)
Definition setStore (m : watcher) : watcher :=
  {| mReduxWatcher := Some []; mWatches := mWatches m |}.

Section Watch.
Context `{Host}.

(** [this.mWatches[key]]: the array stored under the key, or else what a
    plain object inherits under it, [undefined] when that is nothing. *)
Definition watches_at (m : watcher) (key : string) : list value + value :=
  match mWatches m !! key with
  | Some cbs => inl cbs
  | None => inr (plain_get plain_empty key)
  end.

(** [this.mWatches[key].push(callback)]: what is found under the key is
    one of the arrays, or it has no [push]. *)
Definition push_callback (key : string) (callback : value) (m : watcher)
  : watcher * action :=
  match watches_at m key with
  | inl cbs =>
      ({| mReduxWatcher := mReduxWatcher m;
          mWatches := <[key := cbs ++ [callback]]> (mWatches m) |},
       ([], None))
  | inr _ => (m, ([], Some (type_error "push")))
  end.

Definition stateChangeHandler (watchPath : list string) (callback : value) (m : watcher)
  : watcher * action :=
  let key := String.concat "." watchPath in
  match watches_at m key with
  | inr VUndefined =>
      let watches := <[key := []]> (mWatches m) in
      match mReduxWatcher m with
      | None =>
          ({| mReduxWatcher := None; mWatches := watches |},
           ([], Some (type_error "watch")))
      | Some listeners =>
          let '(m', (evs, r)) :=
            push_callback key callback
              {| mReduxWatcher :=
                   Some (listeners ++
                         [ {| watchPath_of := watchPath;
                              key_of := key;
                              lastValue := VUndefined |} ]);
                 mWatches := watches |} in
          (m', (EvWatch watchPath :: evs, r))
      end
  | _ => push_callback key callback m
  end.

(** One guarded call of the loop in the listener. *)
Definition guarded_call (prevValue currentValue : value) (cb : value) : action :=
  try_catch (call_value "cb" cb [prevValue; currentValue])
    (fun err =>
       catch_and_log err (fun m s =>
         log Error "state change handler failed" [("message", m); ("stack", s)])).

(** redux-watcher notifies the [i]-th listener. *)
Definition notify (i : nat) (prevValue currentValue : value) (m : watcher)
  : watcher * action :=
  match mReduxWatcher m with
  | None => (m, ([], None))
  | Some listeners =>
      match listeners !! i with
      | None => (m, ([], None))
      | Some l =>
          if strict_eq currentValue (lastValue l) then (m, ([], None))
          else
            let l' := {| watchPath_of := watchPath_of l;
                         key_of := key_of l;
                         lastValue := currentValue |} in
            let m' := {| mReduxWatcher := Some (<[i := l']> listeners);
                         mWatches := mWatches m |} in
            match watches_at m (key_of l) with
            | inl cbs => (m', forEach (guarded_call prevValue currentValue) cbs)
            | inr _ => (m', ([], Some (type_error "Symbol.iterator")))
            end
      end
  end.

End Watch.

(** *** Metadata-store broker *)

Inductive promise_state : Type := Pending | Resolved.

Record broker : Type :=
  { mModDB : option nat;
    mModDBPromise : option promise_state;
    mModDBGame : value;
    mModDBAPIKey : value }.

(** modmeta-db's side of the world: the instances that are open, and the
    reference the next instance gets. *)
Record metadb : Type := { open_dbs : list nat; next_db : nat }.

(** What [getModDB] reads from the store: [activeGameId(state)] and
    [getSafe(state, ['confidential', 'account', 'nexus', 'APIKey'], '')]. *)
Record store_state : Type := { activeGameId : value; APIKey : value }.

(** Where the promise chain of one [getModDB] call stands. *)
Inductive stage : Type :=
| AwaitInit
| Closing (db : nat)
| Constructing
| Finally (r : nat + error)
| Settled (r : nat + error).

Record acquisition : Type :=
  { currentGame : value;
    currentKey : value;
    onDone : bool;
    at_stage : stage }.

Definition at_ (a : acquisition) (s : stage) : acquisition :=
  {| currentGame := currentGame a;
     currentKey := currentKey a;
     onDone := onDone a;
     at_stage := s |}.

Record config : Type :=
  { call : acquisition; this : broker; modmeta : metadb; emitted : list event }.

(** The synchronous part of [getModDB]: read the store, install the gate if
    there is none, chain on [init]. *)
Definition getModDB (st : store_state) (b : broker) (w : metadb) : config :=
  match mModDBPromise b with
  | None =>
      {| call := {| currentGame := activeGameId st; currentKey := APIKey st;
                    onDone := true; at_stage := AwaitInit |};
         this := {| mModDB := mModDB b; mModDBPromise := Some Pending;
                    mModDBGame := mModDBGame b; mModDBAPIKey := mModDBAPIKey b |};
         modmeta := w;
         emitted := [] |}
  | Some _ =>
      {| call := {| currentGame := activeGameId st; currentKey := APIKey st;
                    onDone := false; at_stage := AwaitInit |};
         this := b;
         modmeta := w;
         emitted := [] |}
  end.

(** [init] has resolved: it is [Promise.resolve()] for the call that
    installed the gate, the gate itself for the others. *)
Definition init_resolved (a : acquisition) (b : broker) : bool :=
  onDone a ||
  match mModDBPromise b with
  | Some Resolved => true
  | _ => false
  end.

(** The test of the first [then] callback. *)
Definition stale (a : acquisition) (b : broker) : bool :=
  match mModDB b with None => true | Some _ => false end
  || negb (strict_eq (currentGame a) (mModDBGame b))
  || negb (strict_eq (currentKey a) (mModDBAPIKey b)).

Section Broker.
Context `{Host}.

(** One callback of the chain. [None]: nothing of this call can run
    (its promise is settled, or it waits for the gate). *)
Definition step (c : config) : option config :=
  let a := call c in
  let b := this c in
  let w := modmeta c in
  match at_stage a with
  | AwaitInit =>
      if init_resolved a b then
        if stale a b then
          match mModDB b with
          | Some db =>
              Some {| call := at_ a (Closing db); this := b; modmeta := w;
                      emitted := emitted c ++ [EvClose db] |}
          | None =>
              Some {| call := at_ a Constructing; this := b; modmeta := w;
                      emitted := emitted c |}
          end
        else
          Some {| call := at_ a Constructing; this := b; modmeta := w;
                  emitted := emitted c |}
      else None
  | Closing db =>
      match close_db db with
      | None =>
          Some {| call := at_ a Constructing;
                  this := {| mModDB := None; mModDBPromise := mModDBPromise b;
                             mModDBGame := mModDBGame b;
                             mModDBAPIKey := mModDBAPIKey b |};
                  modmeta := {| open_dbs := List.filter (fun d => negb (Nat.eqb d db)) (open_dbs w);
                                next_db := next_db w |};
                  emitted := emitted c |}
      | Some e =>
          Some {| call := at_ a (Finally (inr e)); this := b; modmeta := w;
                  emitted := emitted c |}
      end
  | Constructing =>
      match mModDB b with
      | None =>
          match new_db (currentGame a) (currentKey a) with
          | None =>
              let db := next_db w in
              Some {| call := at_ a (Finally (inl db));
                      this := {| mModDB := Some db; mModDBPromise := mModDBPromise b;
                                 mModDBGame := currentGame a;
                                 mModDBAPIKey := currentKey a |};
                      modmeta := {| open_dbs := open_dbs w ++ [db]; next_db := S db |};
                      emitted := emitted c ++
                                 [EvNew db (currentGame a) (currentKey a)] ++
                                 log Debug "initialised" [] |}
          | Some e =>
              Some {| call := at_ a (Finally (inr e)); this := b; modmeta := w;
                      emitted := emitted c |}
          end
      | Some db =>
          Some {| call := at_ a (Finally (inl db)); this := b; modmeta := w;
                  emitted := emitted c |}
      end
  | Finally r =>
      Some {| call := at_ a (Settled r);
              this := if onDone a
                      then {| mModDB := mModDB b; mModDBPromise := Some Resolved;
                              mModDBGame := mModDBGame b;
                              mModDBAPIKey := mModDBAPIKey b |}
                      else b;
              modmeta := w;
              emitted := emitted c |}
  | Settled _ => None
  end.

(** The configurations one call goes through when its callbacks run with
    nothing else in between, starting with [c]. *)
Fixpoint trajectory (fuel : nat) (c : config) : list config :=
  match fuel with
  | O => [c]
  | S n =>
      match step c with
      | None => [c]
      | Some c' => c :: trajectory n c'
      end
  end.

End Broker.

(** *** Replaying the recorded calls *)

(** [l.forEach(x => f(x))] for an [f] that works on a state of the host
    and may throw: an exception ends the loop with the state as it is. *)
Fixpoint forEach_with {A S : Type} (f : A -> S -> S * option error) (l : list A) (s : S)
  : S * option error :=
  match l with
  | [] => (s, None)
  | x :: rest =>
      match f x s with
      | (s', Some e) => (s', Some e)
      | (s', None) => forEach_with f rest s'
      end
  end.

Record reducer_entry : Type := { reducer_path : value; reducer : value }.

Section Replay.
Context `{Host}.

(** [apply(funcName, func)]: [func(...call.arguments)] for every recorded
    call of [funcName]. *)
Definition apply {S : Type} (h : ContextProxyHandler.t) (funcName : string)
  (func : list value -> S -> S * option error) (s : S) : S * option error :=
  forEach_with (fun call => func (IInitCall.arguments call))
    (ContextProxyHandler.getCalls h funcName) s.

Definition getReducers (h : ContextProxyHandler.t) : list reducer_entry * option error :=
  apply h "registerReducer"
    (fun args reducers =>
       (reducers ++ [ {| reducer_path := nth 0 args VUndefined;
                         reducer := nth 1 args VUndefined |} ], None))
    [].

Definition doOnce (h : ContextProxyHandler.t) : action :=
  forEach (fun call =>
    try_catch (call_value "0" (nth 0 (IInitCall.arguments call) VUndefined) [])
      (fun err =>
         catch_and_log err (fun m s =>
           log Warn "failed to call once" [("err", m); ("stack", s)])))
    (ContextProxyHandler.getCalls h (if remote_defined then "once" else "onceMain")).

End Replay.

(** *** Protocol handlers *)

Section Protocols.
Context `{Host} `{Node}.

(** [mProtocolHandlers] starts as [{}].  [registerProtocol]: the table
    after the call, the line logged and the call into electron, and the
    exception of the assignment, if it throws. *)
Definition registerProtocol (protocol : string) (callback : value)
  (mProtocolHandlers : plain)
  : plain * (list log_entry * list app_call * option error) :=
  let '(handlers, r) := plain_set mProtocolHandlers protocol callback in
  (handlers,
   ([ {| lvl := Info; text := "register protocol";
         meta := [("protocol", VStr protocol)] |} ],
    (if ends_with "electron.exe" execPath
     then [SetAsDefaultProtocolClient protocol execPath [vortex_root; "-d"]]
     else [SetAsDefaultProtocolClient protocol execPath ["-d"]]),
    r)).

Definition deregisterProtocol (protocol : string) (mProtocolHandlers : plain)
  : plain * (list log_entry * list app_call) :=
  (mProtocolHandlers,
   ([ {| lvl := Info; text := "deregister protocol"; meta := [] |} ],
    if ends_with "electron.exe" execPath
    then [RemoveAsDefaultProtocolClient protocol (Some (execPath, [vortex_root]))]
    else [RemoveAsDefaultProtocolClient protocol None])).

Definition getProtocolHandler (mProtocolHandlers : plain) (protocol : string) : value :=
  let v := plain_get mProtocolHandlers protocol in
  if truthy v then v else VNull.

End Protocols.

(** *** Archive handlers *)

Section Archives.
Context `{Host} `{Node}.

Definition registerArchiveHandler (args : list value) (mArchiveHandlers : plain)
  : plain * option error :=
  plain_set mArchiveHandlers (property_key (nth 0 args VUndefined)) (nth 1 args VUndefined).

(** [openArchive]: the handler table after the call, the creators called,
    and the outcome.  When a registration throws while the table is built,
    [openArchive] throws with the table as far as it got. *)
Definition openArchive (h : ContextProxyHandler.t)
  (mArchiveHandlers : option plain) (archivePath : string)
  : option plain * list (value * string) * archive_outcome :=
  let '(handlers, built) :=
    match mArchiveHandlers with
    | None => apply h "registerArchiveType" registerArchiveHandler plain_empty
    | Some m => (m, None)
    end in
  match built with
  | Some e => (Some handlers, [], ArchiveThrown e)
  | None =>
      let ext := substr1 (extname archivePath) in
      match plain_get handlers ext with
      | VUndefined =>
          (Some handlers, [],
           ArchiveRejected (new_Error ("unsupported archive format " ++ ext)))
      | VFun r =>
          (Some handlers, [(VFun r, archivePath)], create_archive r archivePath)
      | _ => (Some handlers, [], ArchiveThrown (type_error "creator"))
      end
  end.

End Archives.

(** *** Loading extensions from disk *)

(** [res.filter(reg => reg !== undefined)] *)
Definition defined {A : Type} (res : list (option A)) : list A :=
  flat_map (fun reg => match reg with Some r => [r] | None => [] end) res.

Definition staticExtensions : list string :=
  [ "settings_interface"; "about_dialog"; "diagnostics_files"; "dashboard";
    "starter_dashlet"; "firststeps_dashlet"; "mod_management";
    "category_management"; "profile_management"; "nexus_integration";
    "download_management"; "gamemode_management"; "symlink_activator";
    "symlink_activator_elevate"; "hardlink_activator"; "updater";
    "installer_fomod"; "installer_nested_fomod"; "settings_metaserver";
    "test_runner" ].

Section Loading.
Context `{Host} `{Node} `{Disk}.

(** [loadDynamicExtension]: [inl e] when [require] throws [e], [inr None]
    for [undefined]. *)
Definition loadDynamicExtension (extensionPath : string)
  : list load_event * (error + option IRegisteredExtension) :=
  let indexPath := path_join extensionPath "index.js" in
  if existsSync indexPath then
    ([ClearTypes; Required indexPath],
     match require_default indexPath with
     | inl e => inl e
     | inr body =>
         inr (Some {| name := basename extensionPath;
                      initFunc := body;
                      path := extensionPath |})
     end)
  else ([], inr None).

(** [names.filter(name => fs.statSync(path.join(extensionsPath, name)).isDirectory())]:
    an exception thrown by [statSync] ends the filter. *)
Fixpoint directories (extensionsPath : string) (names : list string)
  : error + list string :=
  match names with
  | [] => inr []
  | name :: rest =>
      match isDirectory (path_join extensionsPath name) with
      | inl e => inl e
      | inr b =>
          match directories extensionsPath rest with
          | inl e => inl e
          | inr dirs => inr (if b then name :: dirs else dirs)
          end
      end
  end.

(** The callback of [.map(name => ...)]; [tick] counts the readings of the
    clock made so far.  [inl e]: the catch block throws [e]. *)
Definition load_entry (extensionsPath name : string) (tick : nat)
  : list load_event * nat * (error + option IRegisteredExtension) :=
  let before := getTime tick in
  match loadDynamicExtension (path_join extensionsPath name) with
  | (evs, inr ext) =>
      let loadTime := (getTime (S tick) - before)%Z in
      (evs ++ [Logged Debug "loaded extension"
                 (MetaObject [("name", VStr name); ("loadTime", VNum loadTime)])],
       S (S tick), inr ext)
  | (evs, inl err) =>
      match catch_and_log err (fun m s =>
              [Logged Warn "failed to load dynamic extension"
                 (MetaObject [("name", VStr name); ("error", m); ("stack", s)])]) with
      | (evs', None) => (evs ++ evs', S tick, inr None)
      | (evs', Some e) => (evs ++ evs', S tick, inl e)
      end
  end.

(** [dirs.map(name => ...)]: an exception that leaves the callback ends the
    map. *)
Fixpoint load_entries (extensionsPath : string) (names : list string) (tick : nat)
  : list load_event * nat * (error + list (option IRegisteredExtension)) :=
  match names with
  | [] => ([], tick, inr [])
  | name :: rest =>
      match load_entry extensionsPath name tick with
      | (evs, tick', inl e) => (evs, tick', inl e)
      | (evs, tick', inr ext) =>
          let '(evs', tick'', r) := load_entries extensionsPath rest tick' in
          (evs ++ evs', tick'',
           match r with
           | inl e => inl e
           | inr exts => inr (ext :: exts)
           end)
      end
  end.

Definition loadDynamicExtensions (extensionsPath : string) (tick : nat)
  : list load_event * nat * (error + list IRegisteredExtension) :=
  if negb (existsSync extensionsPath) then
    ([Logged Info "failed to load dynamic extensions, path doesn't exist"
        (MetaText extensionsPath);
      Mkdir extensionsPath],
     tick,
     match mkdirSync extensionsPath with
     | Some e => inl e
     | None => inr []
     end)
  else
    match readdirSync extensionsPath with
    | inl e => ([], tick, inl e)
    | inr names =>
        match directories extensionsPath names with
        | inl e => ([], tick, inl e)
        | inr dirs =>
            let '(evs, tick', res) := load_entries extensionsPath dirs tick in
            (evs, tick',
             match res with
             | inl e => inl e
             | inr exts => inr (defined exts)
             end)
        end
    end.

(** [staticExtensions.map(name => ({ name, path, initFunc: require(...).default }))] *)
Fixpoint load_static (bundledPath : string) (names : list string)
  : list load_event * (error + list IRegisteredExtension) :=
  match names with
  | [] => ([], inr [])
  | name :: rest =>
      let modulePath := ("../extensions/" ++ name ++ "/index")%string in
      match require_default modulePath with
      | inl e => ([Required modulePath], inl e)
      | inr body =>
          let '(evs, r) := load_static bundledPath rest in
          (Required modulePath :: evs,
           match r with
           | inl e => inl e
           | inr exts =>
               inr ({| name := name;
                       path := path_join bundledPath name;
                       initFunc := body |} :: exts)
           end)
      end
  end.

Definition loadExtensions (tick : nat)
  : list load_event * nat * (error + list IRegisteredExtension) :=
  let bundledPath := asarUnpacked sep bundledPlugins in
  let bundle_at := [Logged Info "bundle at" (MetaText bundledPath)] in
  let extensionsPath := path_join userData "plugins" in
  match load_static bundledPath staticExtensions with
  | (evs, inl e) => (bundle_at ++ evs, tick, inl e)
  | (evs, inr statics) =>
      match loadDynamicExtensions bundledPath tick with
      | (evs1, tick1, inl e) => (bundle_at ++ evs ++ evs1, tick1, inl e)
      | (evs1, tick1, inr bundled) =>
          match loadDynamicExtensions extensionsPath tick1 with
          | (evs2, tick2, inl e) => (bundle_at ++ evs ++ evs1 ++ evs2, tick2, inl e)
          | (evs2, tick2, inr user) =>
              (bundle_at ++ evs ++ evs1 ++ evs2, tick2,
               inr (statics ++ bundled ++ user))
          end
      end
  end.

End Loading.

End ExtensionManager.

(** ** Concrete hosts and extensions used in the examples *)

(** The engine's objects in the examples.  [Object.prototype] is object
    4000 and its members are functions; every other object is taken to be a
    function, with what [Function.prototype] and [Object.prototype] give
    it. *)
Fixpoint position (k : string) (names : list string) : nat :=
  match names with
  | [] => 0
  | n :: rest => if String.eqb k n then 0 else S (position k rest)
  end.

Definition v8_builtin (k : string) : value :=
  VFun (4001 + position k Object_prototype_names).

Definition v8_lookup (v : value) (k : string) : inherited :=
  if String.eqb k "__proto__" then ProtoAccessor
  else if bool_decide (k ∈ Object_prototype_names) then Data (v8_builtin k) true
  else if String.eqb k "name" then Data (VStr "") false
  else if String.eqb k "length" then Data (VNum 0) false
  else if bool_decide (k ∈ ["call"; "apply"; "bind"])
       then Data (VFun (4100 + position k ["call"; "apply"; "bind"])) true
  else Absent.

Definition v8_TypeError (msg : string) : error := error_object msg "TypeError".

(** A renderer process in which the function behind reference 13 throws an
    [Error], the one behind 14 throws [null], and every other function
    returns; stores close and open without error. *)
Definition renderer : Host :=
  {| remote_defined := true;
     call_function := fun r _ =>
       if Nat.eqb r 13 then Some (error_object "boom" "at handler")
       else if Nat.eqb r 14 then Some ThrownNull
       else None;
     type_error := fun k => error_object (k ++ " is not a function") "";
     close_db := fun _ => None;
     new_db := fun _ _ => None;
     object_prototype := VObj 4000;
     builtin := v8_builtin;
     lookup := v8_lookup;
     new_TypeError := v8_TypeError |}.

(** The handler as [initExtensions] creates it, with the cursor on an
    extension. *)
Definition fresh_handler : ContextProxyHandler.t :=
  ContextProxyHandler.setExtension "ext" "/plugins/ext"
    (ContextProxyHandler.constructor {| api := VObj 0 |}).

(** Extensions of the scenarios: one that contributes [registerWidget],
    one that uses it, one that also uses a capability nobody provides, one
    written against an API that is gone, one that only uses the static API,
    one whose registration throws half way, and one that contributes a
    capability twice under a name the host already has. *)
Definition adder : ExtensionManager.IRegisteredExtension :=
  {| ExtensionManager.name := "adder";
     ExtensionManager.path := "/plugins/adder";
     ExtensionManager.initFunc := [Assign "registerWidget" (VFun 1)] |}.

Definition user : ExtensionManager.IRegisteredExtension :=
  {| ExtensionManager.name := "user";
     ExtensionManager.path := "/plugins/user";
     ExtensionManager.initFunc := [Invoke "registerWidget" [VStr "clock"]] |}.

Definition greedy_user : ExtensionManager.IRegisteredExtension :=
  {| ExtensionManager.name := "user";
     ExtensionManager.path := "/plugins/user";
     ExtensionManager.initFunc :=
       [Invoke "registerWidget" [VStr "clock"]; Invoke "registerGizmo" []] |}.

Definition legacy_plugin : ExtensionManager.IRegisteredExtension :=
  {| ExtensionManager.name := "legacy-plugin";
     ExtensionManager.path := "/plugins/legacy-plugin";
     ExtensionManager.initFunc :=
       [Invoke "registerAction" [VStr "old"]; Invoke "registerWidget" []] |}.

Definition good_plugin : ExtensionManager.IRegisteredExtension :=
  {| ExtensionManager.name := "good-plugin";
     ExtensionManager.path := "/plugins/good-plugin";
     ExtensionManager.initFunc := [Invoke "registerAction" [VStr "new"]] |}.

Definition faulty : ExtensionManager.IRegisteredExtension :=
  {| ExtensionManager.name := "faulty";
     ExtensionManager.path := "/plugins/faulty";
     ExtensionManager.initFunc :=
       [Invoke "registerAction" [VStr "early"];
        Raise (error_object "init failed" "at init");
        Invoke "registerDialog" [VStr "late"]] |}.

(** An extension whose registration code throws [null] half way. *)
Definition null_thrower : ExtensionManager.IRegisteredExtension :=
  {| ExtensionManager.name := "null-thrower";
     ExtensionManager.path := "/plugins/null-thrower";
     ExtensionManager.initFunc :=
       [Invoke "registerAction" [VStr "early"];
        Raise ThrownNull;
        Invoke "registerDialog" [VStr "late"]] |}.




Definition twice : ExtensionManager.IRegisteredExtension :=
  {| ExtensionManager.name := "twice";
     ExtensionManager.path := "/plugins/twice";
     ExtensionManager.initFunc :=
       [Assign "registerReducer" (VFun 1); Assign "registerReducer" (VFun 2);
        Invoke "registerAction" [VStr "after"]] |}.

(** ** Notions used to state the properties *)

(** A call of [k] on the proxy records: it returns, and the log grows by one
    non-optional entry for [k] under the current cursor. *)
Definition records `{Host} (h : ContextProxyHandler.t) (k : string) (args : list value)
  : Prop :=
  exists evs,
    ContextProxyHandler.invoke h k args =
    (ContextProxyHandler.push_call h k args false, (evs, None)).

(** An extension name is disqualified when some non-optional call recorded
    under it names something outside the full capability set. *)
Definition disqualified (furtherAPIs : JsSet.t string) (h : ContextProxyHandler.t)
  (e : option string) : bool :=
  existsb (fun c =>
    bool_decide (IInitCall.extension c = e) &&
    ContextProxyHandler.unsupported (ContextProxyHandler.fullAPI_of furtherAPIs h) c)
    (ContextProxyHandler.mInitCalls h).

(** What the registration code of [ext] leaves behind when it runs on its
    own against a handler over [ctx] that holds nothing yet. *)
Definition registration_of `{Host} (ctx : context)
  (ext : ExtensionManager.IRegisteredExtension) : ContextProxyHandler.t * action :=
  ContextProxyHandler.run (ExtensionManager.initFunc ext)
    (ContextProxyHandler.setExtension (ExtensionManager.name ext)
       (ExtensionManager.path ext) (ContextProxyHandler.constructor ctx)).

(** The calls [ext] records until its registration code returns or throws. *)
Definition recorded `{Host} (ctx : context)
  (ext : ExtensionManager.IRegisteredExtension) : list IInitCall.t :=
  ContextProxyHandler.mInitCalls (fst (registration_of ctx ext)).

(** The capability additions [ext] contributes. *)
Definition contributed `{Host} (ctx : context)
  (ext : ExtensionManager.IRegisteredExtension) : list IApiAddition.t :=
  ContextProxyHandler.mApiAdditions (fst (registration_of ctx ext)).

(** [h] with [calls] and [adds] put in front of what it holds. *)
Definition prepend (calls : list IInitCall.t) (adds : list IApiAddition.t)
  (h : ContextProxyHandler.t) : ContextProxyHandler.t :=
  {| ContextProxyHandler.mContext := ContextProxyHandler.mContext h;
     ContextProxyHandler.mInitCalls := calls ++ ContextProxyHandler.mInitCalls h;
     ContextProxyHandler.mApiAdditions := adds ++ ContextProxyHandler.mApiAdditions h;
     ContextProxyHandler.mCurrentExtension := ContextProxyHandler.mCurrentExtension h;
     ContextProxyHandler.mCurrentPath := ContextProxyHandler.mCurrentPath h |}.

(** Every entry of the log carries the name and path the cursor holds. *)
Definition tagged (h : ContextProxyHandler.t) : Prop :=
  forall c, In c (ContextProxyHandler.mInitCalls h) ->
    IInitCall.extension c = ContextProxyHandler.mCurrentExtension h
    /\ IInitCall.extensionPath c = ContextProxyHandler.mCurrentPath h.



(** Calling [f], read from the property [k], with [args] ends with [null]
    or [undefined] thrown. *)
Definition throws_nullish `{Host} (k : string) (f : value) (args : list value) : bool :=
  match snd (call_value k f args) with
  | Some ThrownNull | Some ThrownUndefined => true
  | _ => false
  end.

(** The calls among the events of a trace. *)
Definition is_call (e : event) : bool :=
  match e with
  | EvCall _ _ => true
  | _ => false
  end.



(** The instances of the metadata store that are open in a configuration. *)
Definition live (c : ExtensionManager.config) : list nat :=
  ExtensionManager.open_dbs (ExtensionManager.modmeta c).

(** The broker and the world of modmeta-db when the manager is created. *)
Definition broker_initial : ExtensionManager.broker :=
  {| ExtensionManager.mModDB := None;
     ExtensionManager.mModDBPromise := None;
     ExtensionManager.mModDBGame := VUndefined;
     ExtensionManager.mModDBAPIKey := VUndefined |}.

Definition world_initial : ExtensionManager.metadb :=
  {| ExtensionManager.open_dbs := []; ExtensionManager.next_db := 0 |}.

(** One [getModDB] call followed until its promise settles, with no other
    call in between. *)
Definition acquire `{Host} (st : ExtensionManager.store_state)
  (b : ExtensionManager.broker) (w : ExtensionManager.metadb) : ExtensionManager.config :=
  List.last (ExtensionManager.trajectory 4 (ExtensionManager.getModDB st b w))
    (ExtensionManager.getModDB st b w).

(** No acquisition is under way, and the instance the broker holds, if any,
    is the one that is open. *)
Definition at_rest (b : ExtensionManager.broker) (w : ExtensionManager.metadb) : Prop :=
  ExtensionManager.mModDBPromise b <> Some ExtensionManager.Pending
  /\ ExtensionManager.open_dbs w =
     match ExtensionManager.mModDB b with
     | Some db => [db]
     | None => []
     end.

(** The store state while ["skyrim"] is the active game, and after the user
    has switched to ["fallout4"]; the broker and the world after a first
    acquisition under ["skyrim"]. *)
Definition store_skyrim : ExtensionManager.store_state :=
  {| ExtensionManager.activeGameId := VStr "skyrim";
     ExtensionManager.APIKey := VStr "k1" |}.

Definition store_fallout : ExtensionManager.store_state :=
  {| ExtensionManager.activeGameId := VStr "fallout4";
     ExtensionManager.APIKey := VStr "k1" |}.

Definition broker_skyrim : ExtensionManager.broker :=
  ExtensionManager.this (@acquire renderer store_skyrim broker_initial world_initial).

Definition world_skyrim : ExtensionManager.metadb :=
  ExtensionManager.modmeta (@acquire renderer store_skyrim broker_initial world_initial).

(** The call is settled after at most [k] callbacks. *)
Fixpoint settles `{Host} (k : nat) (c : ExtensionManager.config) : Prop :=
  match ExtensionManager.step c with
  | None => True
  | Some c' =>
      match k with
      | O => False
      | S k' => settles k' c'
      end
  end.

(** The number of listeners subscribed with redux-watcher for a key of the
    registry. *)
Definition subscriptions (key : string) (m : ExtensionManager.watcher) : nat :=
  match ExtensionManager.mReduxWatcher m with
  | Some ls =>
      length (List.filter (fun l => String.eqb (ExtensionManager.key_of l) key) ls)
  | None => 0
  end.


(** The registration code of [extensions/category_management]: a dialog, an
    action, two reducers, two table attributes and a deferred start-up
    callback; objects, arrays and functions are passed by reference. *)
Definition category_management : ExtensionManager.IRegisteredExtension :=
  {| ExtensionManager.name := "category_management";
     ExtensionManager.path := "/bundled/category_management";
     ExtensionManager.initFunc :=
       [ Invoke "registerDialog" [VStr "categories"; VFun 100];
         Invoke "registerAction"
           [VStr "mod-icons"; VNum 100; VStr "sitemap"; VObj 101; VStr "Categories"; VFun 102];
         Invoke "registerReducer" [VObj 103; VFun 104];
         Invoke "registerReducer" [VObj 105; VFun 106];
         Invoke "registerTableAttribute" [VStr "mods"; VObj 107];
         Invoke "registerTableAttribute" [VStr "mods"; VObj 108];
         Invoke "once" [VFun 109] ] |}.

(** A plugin a user dropped into the plugins directory under the name of a
    bundled extension, written against an API that does not exist. *)
Definition impostor : ExtensionManager.IRegisteredExtension :=
  {| ExtensionManager.name := "category_management";
     ExtensionManager.path := "/plugins/category_management";
     ExtensionManager.initFunc := [Invoke "registerGizmo" []] |}.

(** An extension that contributes [registerWidget] and is itself written
    against an API that does not exist. *)
Definition dropped_adder : ExtensionManager.IRegisteredExtension :=
  {| ExtensionManager.name := "adder";
     ExtensionManager.path := "/plugins/adder";
     ExtensionManager.initFunc :=
       [Assign "registerWidget" (VFun 1); Invoke "registerGizmo" []] |}.

(** An extension with three start-up callbacks: one that throws, none at
    all, and one that returns. *)
Definition starter : ExtensionManager.IRegisteredExtension :=
  {| ExtensionManager.name := "starter";
     ExtensionManager.path := "/plugins/starter";
     ExtensionManager.initFunc :=
       [Invoke "once" [VFun 13]; Invoke "once" []; Invoke "once" [VFun 5];
        Invoke "onceMain" [VFun 6]] |}.

(** What [getReducers] makes of a recorded call: its first two arguments,
    [undefined] for a missing one. *)
Definition reducer_of (c : IInitCall.t) : ExtensionManager.reducer_entry :=
  {| ExtensionManager.reducer_path := nth 0 (IInitCall.arguments c) VUndefined;
     ExtensionManager.reducer := nth 1 (IInitCall.arguments c) VUndefined |}.

(** The warnings among the events of a trace. *)
Definition is_warning (e : event) : bool :=
  match e with
  | EvLog {| lvl := Warn |} => true
  | _ => false
  end.

(** The start-up callback of a recorded call: its first argument. *)
Definition once_callback (c : IInitCall.t) : value :=
  nth 0 (IInitCall.arguments c) VUndefined.

(** Calling the start-up callback of [c] fails: it is not a function, or
    it throws. *)
Definition once_fails `{Host} (c : IInitCall.t) : bool :=
  match once_callback c with
  | VFun r => match call_function r [] with Some _ => true | None => false end
  | _ => true
  end.

Definition is_function (v : value) : bool :=
  match v with
  | VFun _ => true
  | _ => false
  end.

(** A development build on Windows; [extname] as far as the examples need
    it. *)
Definition dev_windows : Node :=
  {| execPath := "C:\vortex\node_modules\electron\dist\electron.exe";
     vortex_root := "C:\vortex";
     extname := fun p =>
       if ends_with ".zip" p then ".zip"
       else if ends_with ".7z" p then ".7z"
       else if ends_with ".rar" p then ".rar"
       else "";
     path_join := fun a b => (a ++ "/" ++ b)%string;
     basename := fun p => p;
     key_of_value := fun _ => "[object Object]";
     error_stack := fun m => ("Error: " ++ m)%string;
     create_archive := fun r p =>
       if Nat.eqb r 13 then ArchiveRejected (error_object "corrupt" "")
       else if (4000 <=? r)%nat
            then ArchiveThrown (error_object "creator(...).then is not a function" "")
       else ArchiveOpened (VObj (1000 + r)) |}.

(** An extension that registers a handler for zip archives twice and one
    for 7z archives once. *)
Definition archiver : ExtensionManager.IRegisteredExtension :=
  {| ExtensionManager.name := "archiver";
     ExtensionManager.path := "/plugins/archiver";
     ExtensionManager.initFunc :=
       [ Invoke "registerArchiveType" [VStr "zip"; VFun 20];
         Invoke "registerArchiveType" [VStr "7z"; VFun 21];
         Invoke "registerArchiveType" [VStr "zip"; VFun 22] ] |}.

(** The recorded calls that register an archive handler for [ext]. *)
Definition archive_registrations `{Node} (h : ContextProxyHandler.t) (ext : string)
  : list IInitCall.t :=
  List.filter (fun c =>
    String.eqb (property_key (nth 0 (IInitCall.arguments c) VUndefined)) ext)
    (List.filter (fun c => String.eqb (IInitCall.key c) "registerArchiveType")
       (ContextProxyHandler.mInitCalls h)).

(** ** Metadata lookups through the broker *)

(** modmeta-db: hashing a file, and the three operations of a store. *)
Class ModMeta : Type :=
  { genHash : value -> error + (string * Z);
    db_lookup : nat -> list value -> error + list value;
    db_getByKey : nat -> value -> error + list value;
    db_insert : nat -> value -> option error }.

(** What a lookup does to the outside: what the broker does, hashing,
    events emitted on [api.events], and calls of the store. *)
Inductive meta_event : Type :=
| MetaBroker (e : event)
| MetaHash (filePath : value)
| MetaEmit (name : string) (args : list value)
| MetaLookup (db : nat) (args : list value)
| MetaGetByKey (db : nat) (fileMD5 : value)
| MetaInsert (db : nat) (modInfo : value).

(** How a promise stands once everything that can run has run. *)
Inductive settled (A : Type) : Type :=
| Fulfilled (a : A)
| Failed (e : error)
| Unsettled.
Arguments Fulfilled {A} a.
Arguments Failed {A} e.
Arguments Unsettled {A}.

Record ILookupDetails : Type :=
  { fileMD5 : value; filePath : value; fileSize : value; gameId : value }.

Section MetaLookups.
Context `{Host} `{ModMeta}.

(** [this.getModDB().then(modDB => k(modDB))] for a [k] that calls the
    store once. *)
Definition with_ModDB {A : Type} (st : ExtensionManager.store_state)
  (b : ExtensionManager.broker) (w : ExtensionManager.metadb)
  (k : nat -> list meta_event * (error + A))
  : ExtensionManager.broker * ExtensionManager.metadb * list meta_event * settled A :=
  let c := acquire st b w in
  let evs := map MetaBroker (ExtensionManager.emitted c) in
  match ExtensionManager.at_stage (ExtensionManager.call c) with
  | ExtensionManager.Settled (inl db) =>
      let '(evs', r) := k db in
      (ExtensionManager.this c, ExtensionManager.modmeta c, evs ++ evs',
       match r with
       | inl e => Failed e
       | inr a => Fulfilled a
       end)
  | ExtensionManager.Settled (inr e) =>
      (ExtensionManager.this c, ExtensionManager.modmeta c, evs, Failed e)
  | _ => (ExtensionManager.this c, ExtensionManager.modmeta c, evs, Unsettled)
  end.

Definition lookupModReference (fileMD5_of_reference : value)
  (st : ExtensionManager.store_state) (b : ExtensionManager.broker)
  (w : ExtensionManager.metadb) :=
  with_ModDB st b w (fun db =>
    ([MetaGetByKey db fileMD5_of_reference], db_getByKey db fileMD5_of_reference)).

(** [mEventEmitter] is what the constructor was given, if anything. *)
Definition lookupModMeta (mEventEmitter : bool) (detail : ILookupDetails)
  (st : ExtensionManager.store_state) (b : ExtensionManager.broker)
  (w : ExtensionManager.metadb)
  : ExtensionManager.broker * ExtensionManager.metadb * list meta_event
    * settled (list value) :=
  if strict_eq (fileMD5 detail) VUndefined && strict_eq (filePath detail) VUndefined
  then (b, w, [], Fulfilled [])
  else if strict_eq (fileMD5 detail) VUndefined then
    match genHash (filePath detail) with
    | inl e => (b, w, [MetaHash (filePath detail)], Failed e)
    | inr (md5sum, numBytes) =>
        if mEventEmitter then
          let args := [filePath detail; VStr md5sum; VNum numBytes; gameId detail] in
          let '(b', w', evs, r) :=
            with_ModDB st b w (fun db => ([MetaLookup db args], db_lookup db args)) in
          (b', w',
           [MetaHash (filePath detail);
            MetaEmit "filehash-calculated" [filePath detail; VStr md5sum; VNum numBytes]]
           ++ evs, r)
        else (b, w, [MetaHash (filePath detail)], Failed (type_error "emit"))
    end
  else
    let args := [filePath detail; fileMD5 detail; fileSize detail; gameId detail] in
    with_ModDB st b w (fun db => ([MetaLookup db args], db_lookup db args)).

Definition saveModMeta (modInfo : value)
  (st : ExtensionManager.store_state) (b : ExtensionManager.broker)
  (w : ExtensionManager.metadb) :=
  with_ModDB st b w (fun db =>
    ([MetaInsert db modInfo],
     match db_insert db modInfo with
     | Some e => inl e
     | None => inr tt
     end)).

End MetaLookups.

(** A second [getModDB] call begun while the call of [c] is under way: it
    finds the broker and the stores as [c] has them. *)
Definition begun_during (st : ExtensionManager.store_state) (c : ExtensionManager.config)
  : ExtensionManager.config :=
  ExtensionManager.getModDB st (ExtensionManager.this c) (ExtensionManager.modmeta c).

(** The call of [c] going on after another call has left the broker and
    the stores as [other] has them. *)
Definition resumed_after (other c : ExtensionManager.config) : ExtensionManager.config :=
  {| ExtensionManager.call := ExtensionManager.call c;
     ExtensionManager.this := ExtensionManager.this other;
     ExtensionManager.modmeta := ExtensionManager.modmeta other;
     ExtensionManager.emitted := ExtensionManager.emitted c |}.

(** A store library in which hashing the file ["broken.zip"] fails. *)
Definition modmeta_demo : ModMeta :=
  {| genHash := fun p =>
       if strict_eq p (VStr "broken.zip")
       then inl (error_object "ENOENT" "")
       else inr ("d41d8cd9", 42%Z);
     db_lookup := fun db args => inr [VObj (500 + db)];
     db_getByKey := fun db k => inr [VObj (600 + db)];
     db_insert := fun db info => None |}.

(** A host on which closing a store fails. *)
Definition stuck_close : Host :=
  {| remote_defined := true;
     call_function := fun _ _ => None;
     type_error := fun k => error_object (k ++ " is not a function") "";
     close_db := fun _ => Some (error_object "close failed" "");
     new_db := fun _ _ => None;
     object_prototype := VObj 4000;
     builtin := v8_builtin;
     lookup := v8_lookup;
     new_TypeError := v8_TypeError |}.

(** A host on which no store can be constructed for ["skyrim"]. *)
Definition no_skyrim : Host :=
  {| remote_defined := true;
     call_function := fun _ _ => None;
     type_error := fun k => error_object (k ++ " is not a function") "";
     close_db := fun _ => None;
     new_db := fun game _ =>
       if strict_eq game (VStr "skyrim")
       then Some (error_object "cannot open" "")
       else None;
     object_prototype := VObj 4000;
     builtin := v8_builtin;
     lookup := v8_lookup;
     new_TypeError := v8_TypeError |}.

(** Hashing a file and announcing the hash. *)
Definition is_hashing (e : meta_event) : bool :=
  match e with
  | MetaHash _ | MetaEmit _ _ => true
  | _ => false
  end.

(** A call of a metadata store. *)
Definition is_store_call (e : meta_event) : bool :=
  match e with
  | MetaLookup _ _ | MetaGetByKey _ _ | MetaInsert _ _ => true
  | _ => false
  end.

(** [path.basename] on a POSIX system, for a path that does not end in a
    slash: what follows the last slash. *)
Fixpoint last_segment (p : string) : string :=
  match p with
  | EmptyString => EmptyString
  | String c rest =>
      match index 0 "/" rest with
      | Some _ => last_segment rest
      | None => if String.eqb (String c EmptyString) "/" then rest else p
      end
  end.

(** A packaged build on Linux. *)
Definition packaged_linux : Node :=
  {| execPath := "/opt/vortex/vortex";
     vortex_root := "/opt/vortex/resources";
     extname := fun _ => "";
     path_join := fun a b => (a ++ "/" ++ b)%string;
     basename := last_segment;
     key_of_value := fun _ => "[object Object]";
     error_stack := fun m => ("Error: " ++ m)%string;
     create_archive := fun _ _ => ArchiveOpened VUndefined |}.

(** A disk where the bundled plugin directory holds a file, a plugin, a
    directory without [index.js] and a plugin whose module throws when it is
    loaded, and where the plugin directory of the user does not exist
    yet. *)
Definition plugin_dirs : Disk :=
  {| existsSync := fun p =>
       String.eqb p "/opt/vortex/resources/app.asar.unpacked/bundledPlugins"
       || String.eqb p "/opt/vortex/resources/app.asar.unpacked/bundledPlugins/gamebryo/index.js"
       || String.eqb p "/opt/vortex/resources/app.asar.unpacked/bundledPlugins/broken/index.js";
     readdirSync := fun p =>
       if String.eqb p "/opt/vortex/resources/app.asar.unpacked/bundledPlugins"
       then inr ["README.md"; "gamebryo"; "docs"; "broken"]
       else inl (error_object "ENOENT" "");
     isDirectory := fun p =>
       inr (negb (String.eqb p
              "/opt/vortex/resources/app.asar.unpacked/bundledPlugins/README.md"));
     mkdirSync := fun _ => None;
     require_default := fun p =>
       if String.eqb p
            "/opt/vortex/resources/app.asar.unpacked/bundledPlugins/broken/index.js"
       then inl (error_object "Unexpected token" "SyntaxError")
       else inr [Invoke "registerReducer" [VObj 1; VFun 2]];
     getTime := fun n => (1000 + 5 * Z.of_nat n)%Z;
     sep := "/";
     bundledPlugins := "/opt/vortex/resources/app.asar/bundledPlugins";
     userData := "/home/user/.config/Vortex" |}.

(** The same directory with an entry that [statSync] fails on. *)
Definition dangling_entry : Disk :=
  {| existsSync := @existsSync plugin_dirs;
     readdirSync := fun p =>
       if String.eqb p "/opt/vortex/resources/app.asar.unpacked/bundledPlugins"
       then inr ["gamebryo"; "dangling"]
       else inl (error_object "ENOENT" "");
     isDirectory := fun p =>
       if String.eqb p "/opt/vortex/resources/app.asar.unpacked/bundledPlugins/dangling"
       then inl (error_object "ENOENT: no such file or directory" "")
       else inr true;
     mkdirSync := fun _ => None;
     require_default := @require_default plugin_dirs;
     getTime := @getTime plugin_dirs;
     sep := "/";
     bundledPlugins := "/opt/vortex/resources/app.asar/bundledPlugins";
     userData := "/home/user/.config/Vortex" |}.

(** The same directory again, with a plugin whose module throws [null]. *)
Definition null_module : Disk :=
  {| existsSync := @existsSync plugin_dirs;
     readdirSync := @readdirSync plugin_dirs;
     isDirectory := @isDirectory plugin_dirs;
     mkdirSync := fun _ => None;
     require_default := fun p =>
       if String.eqb p
            "/opt/vortex/resources/app.asar.unpacked/bundledPlugins/broken/index.js"
       then inl ThrownNull
       else inr [Invoke "registerReducer" [VObj 1; VFun 2]];
     getTime := @getTime plugin_dirs;
     sep := "/";
     bundledPlugins := "/opt/vortex/resources/app.asar/bundledPlugins";
     userData := "/home/user/.config/Vortex" |}.

Section LoadingNotions.
Context `{Node} `{Disk}.

(** The entry is a directory. *)
Definition is_dir (extensionsPath name : string) : bool :=
  match isDirectory (path_join extensionsPath name) with
  | inr true => true
  | _ => false
  end.

(** The extension a directory yields: it has an [index.js] and loading that
    module does not throw. *)
Definition loadable (extensionsPath name : string)
  : option ExtensionManager.IRegisteredExtension :=
  let dir := path_join extensionsPath name in
  if existsSync (path_join dir "index.js") then
    match require_default (path_join dir "index.js") with
    | inr body =>
        Some {| ExtensionManager.name := basename dir;
                ExtensionManager.path := dir;
                ExtensionManager.initFunc := body |}
    | inl _ => None
    end
  else None.

(** Loading the module of the directory throws [null] or [undefined]. *)
Definition module_throws_nullish (extensionsPath name : string) : bool :=
  let dir := path_join extensionsPath name in
  existsSync (path_join dir "index.js") &&
  match require_default (path_join dir "index.js") with
  | inl ThrownNull | inl ThrownUndefined => true
  | _ => false
  end.

(** The level at which a directory is reported in the log. *)
Definition report_level (extensionsPath name : string) : level :=
  let dir := path_join extensionsPath name in
  if existsSync (path_join dir "index.js") then
    match require_default (path_join dir "index.js") with
    | inr _ => Debug
    | inl _ => Warn
    end
  else Debug.

End LoadingNotions.

(** The level and the name of a line of the log that names an extension. *)
Definition reported (ev : load_event) : list (level * value) :=
  match ev with
  | Logged l _ (MetaObject ((_, v) :: _)) => [(l, v)]
  | _ => []
  end.

Definition is_required (ev : load_event) : bool :=
  match ev with
  | Required _ => true
  | _ => false
  end.

(** What [loadExtensions] returns on that disk. *)
Definition plugin_dirs_extensions : list ExtensionManager.IRegisteredExtension :=
  match snd (@ExtensionManager.loadExtensions renderer packaged_linux plugin_dirs 0) with
  | inr exts => exts
  | inl _ => []
  end.

(** * Properties *)

(** ** Sets *)

Section JsSetFacts.
Context {A : Type} `{EqDecision A}.

Lemma JsSet_has_true (s : JsSet.t A) (x : A) : JsSet.has s x = true <-> x ∈ s.
Proof. unfold JsSet.has. apply bool_decide_eq_true. Qed.

Lemma JsSet_has_false (s : JsSet.t A) (x : A) : JsSet.has s x = false <-> x ∉ s.
Proof. unfold JsSet.has. apply bool_decide_eq_false. Qed.

Lemma JsSet_elem_of_add (s : JsSet.t A) (x y : A) :
  y ∈ JsSet.add s x <-> y ∈ s \/ y = x.
Proof.
  unfold JsSet.add. destruct (JsSet.has s x) eqn:E.
  - apply JsSet_has_true in E. split; [auto | intros [Hy | ->]; assumption].
  - rewrite elem_of_app, list_elem_of_singleton. reflexivity.
Qed.

Lemma JsSet_elem_of_fold {B : Type} (f : B -> A) (l : list B) (s : JsSet.t A) (y : A) :
  y ∈ fold_left (fun acc b => JsSet.add acc (f b)) l s <->
  y ∈ s \/ exists b, In b l /\ y = f b.
Proof.
  revert s. induction l as [| b l IH]; intros s; simpl.
  - split; [auto | intros [Hs | (b & [] & _)]; exact Hs].
  - rewrite IH, JsSet_elem_of_add. split.
    + intros [[Hs | ->] | (b' & Hb' & ->)]; eauto.
    + intros [Hs | (b' & [<- | Hb'] & ->)]; eauto.
Qed.

Lemma JsSet_elem_of_from_array (l : list A) (y : A) :
  y ∈ JsSet.from_array l <-> y ∈ l.
Proof.
  unfold JsSet.from_array.
  rewrite (JsSet_elem_of_fold (fun b => b) l JsSet.empty y).
  unfold JsSet.empty. rewrite list_elem_of_In. split.
  - intros [Hn | (b & Hb & ->)]; [inversion Hn | exact Hb].
  - intros Hy. right. eauto.
Qed.

Lemma JsSet_size_pos (s : JsSet.t A) :
  (0 <? JsSet.size s)%nat = true <-> exists x, x ∈ s.
Proof.
  unfold JsSet.size. destruct s as [| x s]; simpl.
  - split; [discriminate | intros (x & Hx); inversion Hx].
  - split; [intros _; exists x; left | reflexivity].
Qed.

End JsSetFacts.

(** ** The recorder proxy *)

Section RecorderFacts.
Context `{Host}.

Lemma get_recorder (h : ContextProxyHandler.t) (k : string) :
  key_in k (ContextProxyHandler.mContext h) = false -> k <> "optional" ->
  ContextProxyHandler.get h k = PRecorder k false.
Proof.
  intros Hctx Hopt. unfold ContextProxyHandler.get.
  apply String.eqb_neq in Hopt. rewrite Hctx, Hopt. reflexivity.
Qed.

Lemma key_in_inherited (k : string) (c : context) :
  key_in k c = true <-> k = "api" \/ In k Object_prototype_names.
Proof.
  unfold key_in. rewrite orb_true_iff, String.eqb_eq, bool_decide_eq_true, list_elem_of_In.
  reflexivity.
Qed.

Lemma get_optional (h : ContextProxyHandler.t) :
  ContextProxyHandler.get h "optional" = POptional.
Proof. reflexivity. Qed.

Lemma invoke_optional_eq (h : ContextProxyHandler.t) (k : string) (args : list value) :
  ContextProxyHandler.invoke_optional h k args =
  (ContextProxyHandler.push_call h k args true, ([], None)).
Proof. reflexivity. Qed.

End RecorderFacts.

(** C10. The [has] trap answers [true] for every key, whatever the handler
    holds: a name outside the static API, outside the additions and outside
    the underlying context is reported present like any other, so
    [key in context] cannot tell supported capabilities from unsupported
    ones. *)
Theorem has_reports_every_key :
  (forall (h : ContextProxyHandler.t) (k : string), ContextProxyHandler.has h k = true)
  /\ (let k := "registerWidget" in
      let h := fresh_handler in
      ~ In k ContextProxyHandler.staticAPIs
      /\ ~ In k (map IApiAddition.key (ContextProxyHandler.mApiAdditions h))
      /\ JsSet.has (ContextProxyHandler.fullAPI_of JsSet.empty h) k = false
      /\ key_in k (ContextProxyHandler.mContext h) = false
      /\ ContextProxyHandler.has h k = true).
Proof.
  split; [reflexivity |].
  cbv zeta. repeat split.
  - intros Hin. vm_compute in Hin. intuition discriminate.
  - intros Hin. exact Hin.
Qed.

(** C4, as stated, fails at the names the [get] trap treats specially:
    calling [optional] (the optional surface, which is not a function) or
    [api] (the host API object) on the proxy throws a TypeError and leaves
    the call log as it was; calling a name the context inherits from
    [Object.prototype], such as [hasOwnProperty], calls the inherited
    function and records nothing either. *)
Lemma invoke_optional_surface_not_recorded :
  ~ @records renderer fresh_handler "optional" [VStr "x"]
  /\ ~ @records renderer fresh_handler "api" [VStr "x"]
  /\ ~ @records renderer fresh_handler "hasOwnProperty" [VStr "registerFoo"]
  /\ @ContextProxyHandler.invoke renderer fresh_handler "optional" [VStr "x"] =
     (fresh_handler, ([], Some (@type_error renderer "optional")))
  /\ @ContextProxyHandler.invoke renderer fresh_handler "api" [VStr "x"] =
     (fresh_handler, ([], Some (@type_error renderer "api")))
  /\ @ContextProxyHandler.invoke renderer fresh_handler "hasOwnProperty"
       [VStr "registerFoo"] =
     (fresh_handler,
      ([EvCall (@builtin renderer "hasOwnProperty") [VStr "registerFoo"]], None)).
Proof.
  repeat split.
  - intros (evs & Heq). vm_compute in Heq. discriminate Heq.
  - intros (evs & Heq). vm_compute in Heq. discriminate Heq.
  - intros (evs & Heq). vm_compute in Heq. discriminate Heq.
Qed.

(** C4, amended. For every name that is not a member of the underlying
    context, own ([api]) or inherited from [Object.prototype], and is not
    [optional], and for every argument list, calling
    that name on the proxy returns normally, produces no outside effect, and
    appends one entry carrying the name and path of the extension the cursor
    was last set to, the name called, the arguments, and [optional = false];
    whether the name is a capability plays no role. *)
Theorem invoke_records_call `{Host} (h : ContextProxyHandler.t)
  (e p k : string) (args : list value) :
  key_in k (ContextProxyHandler.mContext h) = false -> k <> "optional" ->
  let h1 := ContextProxyHandler.setExtension e p h in
  records h1 k args
  /\ exists h2,
       ContextProxyHandler.invoke h1 k args = (h2, ([], None))
       /\ ContextProxyHandler.mInitCalls h2 =
          ContextProxyHandler.mInitCalls h ++
          [ {| IInitCall.extension := Some e;
               IInitCall.extensionPath := Some p;
               IInitCall.key := k;
               IInitCall.arguments := args;
               IInitCall.optional := false |} ]
       /\ ContextProxyHandler.mApiAdditions h2 = ContextProxyHandler.mApiAdditions h.
Proof.
  intros Hctx Hopt h1.
  assert (Hinv : ContextProxyHandler.invoke h1 k args =
                 (ContextProxyHandler.push_call h1 k args false, ([], None))).
  { unfold ContextProxyHandler.invoke. rewrite (get_recorder h1 k Hctx Hopt). reflexivity. }
  split.
  - exists []. exact Hinv.
  - eexists. split; [exact Hinv |]. split; reflexivity.
Qed.

Lemma invoke_records_call_witness :
  key_in "registerWidget" {| api := VObj 0 |} = false
  /\ "registerWidget" <> "optional"
  /\ @records renderer fresh_handler "registerWidget" [VNum 1; VStr "two"].
Proof.
  split; [reflexivity |]. split; [discriminate |].
  apply (@invoke_records_call renderer
           (ContextProxyHandler.constructor {| api := VObj 0 |})
           "ext" "/plugins/ext" "registerWidget" [VNum 1; VStr "two"]);
    [reflexivity | discriminate].
Defined.

(** C5, as stated, fails: [twice] assigns [registerReducer], a name of the
    static API, two times.  Both assignments are stored as additions, no
    line of the log mentions them, and the statement after them runs. *)
Lemma duplicate_addition_is_stored :
  In "registerReducer" ContextProxyHandler.staticAPIs
  /\ (let '(h, (evs, thrown)) :=
        @ExtensionManager.initExtensions renderer (VObj 0) [twice] [] in
      ContextProxyHandler.mApiAdditions h =
        [ {| IApiAddition.key := "registerReducer"; IApiAddition.callback := VFun 1 |};
          {| IApiAddition.key := "registerReducer"; IApiAddition.callback := VFun 2 |} ]
      /\ evs =
         @log Info "init extension" [("name", VStr "twice")] ++
         @log Debug "all extensions compatible" [] ++
         @log Info "all extensions initialized" []
      /\ thrown = None
      /\ map IInitCall.key (ContextProxyHandler.mInitCalls h) = ["registerAction"]).
Proof.
  split.
  - vm_compute. tauto.
  - vm_compute. repeat split.
Qed.

(** C5, amended. Assigning a property on the proxy always succeeds: the
    [set] trap answers [true] and appends the addition after the existing
    ones, whether or not its name is already in the static API or among the
    additions; nothing is logged, nothing is thrown, and the registration
    code goes on with its next statement. *)
Theorem set_always_stores `{Host} (h : ContextProxyHandler.t) (k : string) (v : value)
  (rest : list stmt) :
  let h' := fst (ContextProxyHandler.set h k v) in
  snd (ContextProxyHandler.set h k v) = true
  /\ ContextProxyHandler.mApiAdditions h' =
     ContextProxyHandler.mApiAdditions h ++
     [ {| IApiAddition.key := k; IApiAddition.callback := v |} ]
  /\ ContextProxyHandler.mInitCalls h' = ContextProxyHandler.mInitCalls h
  /\ ContextProxyHandler.exec (Assign k v) h = (h', ([], None))
  /\ ContextProxyHandler.run (Assign k v :: rest) h = ContextProxyHandler.run rest h'.
Proof.
  cbv zeta. repeat split.
  simpl. destruct (ContextProxyHandler.run rest _) as [h'' [evs r]]. reflexivity.
Qed.

(** ** The compatibility filter *)

Lemma filter_filter_implied {A : Type} (f g : A -> bool) (l : list A) :
  (forall x, f x = true -> g x = true) ->
  List.filter f (List.filter g l) = List.filter f l.
Proof.
  intros Himp. induction l as [| x l IH]; simpl; [reflexivity |].
  destruct (g x) eqn:Eg; simpl.
  - rewrite IH. reflexivity.
  - destruct (f x) eqn:Ef; [| exact IH].
    apply Himp in Ef. congruence.
Qed.

Lemma fullAPI_has (furtherAPIs : JsSet.t string) (h : ContextProxyHandler.t) (k : string) :
  JsSet.has (ContextProxyHandler.fullAPI_of furtherAPIs h) k = true <->
  In k furtherAPIs \/ In k ContextProxyHandler.staticAPIs
  \/ In k (map IApiAddition.key (ContextProxyHandler.mApiAdditions h)).
Proof.
  unfold ContextProxyHandler.fullAPI_of, JsSet.to_array.
  rewrite JsSet_has_true, JsSet_elem_of_from_array, list_elem_of_In, !in_app_iff.
  reflexivity.
Qed.

Lemma unsupported_true (fullAPI : JsSet.t string) (c : IInitCall.t) :
  ContextProxyHandler.unsupported fullAPI c = true <->
  IInitCall.optional c = false /\ JsSet.has fullAPI (IInitCall.key c) = false.
Proof.
  unfold ContextProxyHandler.unsupported.
  rewrite andb_true_iff, !negb_true_iff. reflexivity.
Qed.

(** The set built by the [forEach] of [unloadIncompatible] holds exactly
    the names under which an unsupported call was recorded. *)
Lemma incompatible_iff (furtherAPIs : JsSet.t string) (h : ContextProxyHandler.t)
  (e : option string) :
  e ∈ ContextProxyHandler.incompatibleExtensions_of furtherAPIs h <->
  exists c, In c (ContextProxyHandler.mInitCalls h)
            /\ IInitCall.extension c = e
            /\ ContextProxyHandler.unsupported
                 (ContextProxyHandler.fullAPI_of furtherAPIs h) c = true.
Proof.
  unfold ContextProxyHandler.incompatibleExtensions_of.
  rewrite JsSet_elem_of_fold. unfold JsSet.empty. split.
  - intros [Hn | (c & Hc & ->)]; [inversion Hn |].
    apply filter_In in Hc as [Hc Hu]. eauto.
  - intros (c & Hc & <- & Hu). right. exists c. split; [| reflexivity].
    apply filter_In. auto.
Qed.

Lemma incompatible_has (furtherAPIs : JsSet.t string) (h : ContextProxyHandler.t)
  (e : option string) :
  JsSet.has (ContextProxyHandler.incompatibleExtensions_of furtherAPIs h) e =
  disqualified furtherAPIs h e.
Proof.
  apply eq_true_iff_eq. rewrite JsSet_has_true, incompatible_iff.
  unfold disqualified. rewrite existsb_exists. split.
  - intros (c & Hc & He & Hu). exists c. split; [exact Hc |].
    rewrite Hu, andb_true_r. apply bool_decide_eq_true. exact He.
  - intros (c & Hc & Hb). apply andb_true_iff in Hb as [He Hu].
    apply bool_decide_eq_true in He. eauto.
Qed.

Lemma incompatible_with_calls (furtherAPIs : JsSet.t string) (h : ContextProxyHandler.t)
  (calls : list IInitCall.t) :
  ContextProxyHandler.fullAPI_of furtherAPIs (ContextProxyHandler.with_calls h calls) =
  ContextProxyHandler.fullAPI_of furtherAPIs h.
Proof. reflexivity. Qed.

(** C3. A call made through the [optional] surface of the proxy, whatever
    its name, returns normally and is appended to the log with
    [optional = true] under the current cursor.  An entry with
    [optional = true] is never an unsupported call, whatever the capability
    set is, and the set of incompatible extensions is the one computed from
    the non-optional entries alone: optional calls never put an extension
    into it. *)
Theorem optional_calls_never_disqualify `{Host} :
  (forall (h : ContextProxyHandler.t) (e p k : string) (args : list value),
     exists h2,
       ContextProxyHandler.invoke_optional (ContextProxyHandler.setExtension e p h) k args
         = (h2, ([], None))
       /\ ContextProxyHandler.mInitCalls h2 =
          ContextProxyHandler.mInitCalls h ++
          [ {| IInitCall.extension := Some e;
               IInitCall.extensionPath := Some p;
               IInitCall.key := k;
               IInitCall.arguments := args;
               IInitCall.optional := true |} ])
  /\ (forall (fullAPI : JsSet.t string) (e p : option string) (k : string)
        (args : list value),
        ContextProxyHandler.unsupported fullAPI
          {| IInitCall.extension := e;
             IInitCall.extensionPath := p;
             IInitCall.key := k;
             IInitCall.arguments := args;
             IInitCall.optional := true |} = false)
  /\ (forall (furtherAPIs : JsSet.t string) (h : ContextProxyHandler.t),
        ContextProxyHandler.incompatibleExtensions_of furtherAPIs h =
        ContextProxyHandler.incompatibleExtensions_of furtherAPIs
          (ContextProxyHandler.with_calls h
             (List.filter (fun c => negb (IInitCall.optional c))
                (ContextProxyHandler.mInitCalls h))))
  /\ (forall (furtherAPIs : JsSet.t string) (h : ContextProxyHandler.t)
        (e : option string),
        JsSet.has (ContextProxyHandler.incompatibleExtensions_of furtherAPIs h) e =
        existsb (fun c =>
          bool_decide (IInitCall.extension c = e) &&
          (negb (IInitCall.optional c) &&
           negb (JsSet.has (ContextProxyHandler.fullAPI_of furtherAPIs h)
                   (IInitCall.key c))))
          (ContextProxyHandler.mInitCalls h)).
Proof.
  split; [| split; [| split]]; [| | | intros; apply incompatible_has].
  - intros h e p k args. eexists. split; [apply invoke_optional_eq | reflexivity].
  - reflexivity.
  - intros furtherAPIs h.
    unfold ContextProxyHandler.incompatibleExtensions_of.
    rewrite incompatible_with_calls. simpl.
    rewrite filter_filter_implied; [reflexivity |].
    intros c Hc. apply unsupported_true in Hc as [Hc _]. rewrite Hc. reflexivity.
Qed.

Lemma filter_all_true {A : Type} (f : A -> bool) (l : list A) :
  (forall x, In x l -> f x = true) -> List.filter f l = l.
Proof.
  induction l as [| x l IH]; simpl; intros Hall; [reflexivity |].
  rewrite (Hall x (or_introl eq_refl)). f_equal. apply IH. auto.
Qed.

Lemma existsb_pointwise {A : Type} (f g : A -> bool) (l : list A) :
  (forall x, f x = g x) -> existsb f l = existsb g l.
Proof.
  intros Hfg. induction l as [| x l IH]; simpl; [reflexivity |].
  rewrite Hfg, IH. reflexivity.
Qed.

Lemma unloadIncompatible_calls `{Host} (furtherAPIs : JsSet.t string)
  (h : ContextProxyHandler.t) :
  ContextProxyHandler.mInitCalls (fst (ContextProxyHandler.unloadIncompatible furtherAPIs h)) =
  List.filter (fun c => negb (disqualified furtherAPIs h (IInitCall.extension c)))
    (ContextProxyHandler.mInitCalls h).
Proof.
  unfold ContextProxyHandler.unloadIncompatible.
  destruct (0 <? JsSet.size _)%nat eqn:Esize; simpl.
  - apply filter_ext. intros c. rewrite incompatible_has. reflexivity.
  - symmetry. apply filter_all_true. intros c _.
    rewrite <- incompatible_has. apply negb_true_iff, JsSet_has_false.
    intros Hin. assert (Hpos : (0 <? JsSet.size
      (ContextProxyHandler.incompatibleExtensions_of furtherAPIs h))%nat = true)
      by (apply JsSet_size_pos; eauto).
    congruence.
Qed.

Lemma unloadIncompatible_additions `{Host} (furtherAPIs : JsSet.t string)
  (h : ContextProxyHandler.t) :
  ContextProxyHandler.mApiAdditions (fst (ContextProxyHandler.unloadIncompatible furtherAPIs h)) =
  ContextProxyHandler.mApiAdditions h.
Proof.
  unfold ContextProxyHandler.unloadIncompatible.
  destruct (0 <? JsSet.size _)%nat; reflexivity.
Qed.

(** C1. [unloadIncompatible] keeps exactly the calls recorded under names
    that are not disqualified, in their recorded order and unchanged, where
    a name is disqualified as soon as one call recorded under it has
    [optional = false] and a key outside the full capability set (the names
    passed in, the static API and the keys of the additions).  So every call
    of a disqualified extension is removed, also those naming valid
    capabilities, and every call of any other extension stays.  The
    additions are not touched. *)
Theorem unloadIncompatible_all_or_nothing `{Host} (furtherAPIs : JsSet.t string)
  (h : ContextProxyHandler.t) :
  let h' := fst (ContextProxyHandler.unloadIncompatible furtherAPIs h) in
  let offending (c0 : IInitCall.t) : bool :=
    negb (IInitCall.optional c0) &&
    negb (bool_decide
            (IInitCall.key c0 ∈
               furtherAPIs ++ ContextProxyHandler.staticAPIs ++
               map IApiAddition.key (ContextProxyHandler.mApiAdditions h))) in
  let dropped (e : option string) : bool :=
    existsb (fun c0 => bool_decide (IInitCall.extension c0 = e) && offending c0)
      (ContextProxyHandler.mInitCalls h) in
  ContextProxyHandler.mInitCalls h' =
    List.filter (fun c => negb (dropped (IInitCall.extension c)))
      (ContextProxyHandler.mInitCalls h)
  /\ ContextProxyHandler.mApiAdditions h' = ContextProxyHandler.mApiAdditions h.
Proof.
  cbv zeta. split; [| apply unloadIncompatible_additions].
  rewrite unloadIncompatible_calls. apply filter_ext. intros c. f_equal.
  unfold disqualified. apply existsb_pointwise. intros c0. f_equal.
  unfold ContextProxyHandler.unsupported. do 2 f_equal.
  unfold JsSet.has. apply bool_decide_ext.
  unfold ContextProxyHandler.fullAPI_of, JsSet.to_array.
  apply JsSet_elem_of_from_array.
Qed.

(** The scenario of the two plugins: [legacy_plugin] calls
    [registerAction], which exists, and [registerWidget], which does not;
    nothing of it is left, while the call of [good_plugin] stays. *)
Example legacy_plugin_dropped :
  map (fun c => (IInitCall.extension c, IInitCall.key c, IInitCall.arguments c))
    (ContextProxyHandler.mInitCalls
       (fst (@ExtensionManager.initExtensions renderer (VObj 0)
               [legacy_plugin; good_plugin] []))) =
  [ (Some "good-plugin", "registerAction", [VStr "new"]) ].
Proof. reflexivity. Qed.

(** ** The registration pass *)

Section RegistrationFacts.
Context `{Host}.

Lemma exec_prepend (calls : list IInitCall.t) (adds : list IApiAddition.t)
  (s : stmt) (h : ContextProxyHandler.t) :
  ContextProxyHandler.exec s (prepend calls adds h) =
  (prepend calls adds (fst (ContextProxyHandler.exec s h)),
   snd (ContextProxyHandler.exec s h)).
Proof.
  destruct s as [k args | k args | k v | k | e]; simpl; try reflexivity.
  - unfold ContextProxyHandler.invoke, ContextProxyHandler.get. simpl.
    destruct (key_in k (ContextProxyHandler.mContext h)); [reflexivity |].
    destruct (String.eqb k "optional"); [reflexivity |].
    unfold prepend, ContextProxyHandler.push_call, ContextProxyHandler.with_calls.
    simpl. rewrite app_assoc. reflexivity.
  - unfold ContextProxyHandler.invoke_optional. simpl.
    unfold prepend, ContextProxyHandler.push_call, ContextProxyHandler.with_calls.
    simpl. rewrite app_assoc. reflexivity.
  - unfold prepend. simpl. rewrite app_assoc. reflexivity.
Qed.

Lemma run_prepend (calls : list IInitCall.t) (adds : list IApiAddition.t)
  (prog : list stmt) (h : ContextProxyHandler.t) :
  ContextProxyHandler.run prog (prepend calls adds h) =
  (prepend calls adds (fst (ContextProxyHandler.run prog h)),
   snd (ContextProxyHandler.run prog h)).
Proof.
  revert h. induction prog as [| s prog IH]; intros h; simpl; [reflexivity |].
  rewrite exec_prepend.
  destruct (ContextProxyHandler.exec s h) as [h1 [evs [e |]]]; simpl; [reflexivity |].
  rewrite IH.
  destruct (ContextProxyHandler.run prog h1) as [h2 [evs2 r]]. reflexivity.
Qed.

Lemma setExtension_prepend (e p : string) (h : ContextProxyHandler.t) :
  ContextProxyHandler.setExtension e p h =
  prepend (ContextProxyHandler.mInitCalls h) (ContextProxyHandler.mApiAdditions h)
    (ContextProxyHandler.setExtension e p
       (ContextProxyHandler.constructor (ContextProxyHandler.mContext h))).
Proof.
  unfold prepend, ContextProxyHandler.setExtension. simpl.
  rewrite !app_nil_r. reflexivity.
Qed.

(** Registration code only ever appends: run from any handler, it leaves
    what it leaves when run on its own, after what was there. *)
Lemma initExtension_appends (ext : ExtensionManager.IRegisteredExtension)
  (h : ContextProxyHandler.t) :
  let ctx := ContextProxyHandler.mContext h in
  fst (ExtensionManager.initExtension ext h) =
  prepend (ContextProxyHandler.mInitCalls h) (ContextProxyHandler.mApiAdditions h)
    (fst (registration_of ctx ext)).
Proof.
  cbv zeta. unfold ExtensionManager.initExtension, registration_of.
  rewrite setExtension_prepend, run_prepend.
  destruct (ContextProxyHandler.run _ _) as [h2 body]. simpl.
  destruct (try_catch body _) as [evs r]. reflexivity.
Qed.

(** A loop that returns has gone through its first part, which returned,
    and then through the rest. *)
Lemma registerAll_app (l1 l2 : list ExtensionManager.IRegisteredExtension)
  (h : ContextProxyHandler.t) :
  snd (snd (ExtensionManager.registerAll l1 h)) = None ->
  ExtensionManager.registerAll (l1 ++ l2) h =
  (fst (ExtensionManager.registerAll l2 (fst (ExtensionManager.registerAll l1 h))),
   (fst (snd (ExtensionManager.registerAll l1 h)) ++
    fst (snd (ExtensionManager.registerAll l2 (fst (ExtensionManager.registerAll l1 h)))),
    snd (snd (ExtensionManager.registerAll l2 (fst (ExtensionManager.registerAll l1 h)))))).
Proof.
  revert h. induction l1 as [| ext l1 IH]; intros h; simpl.
  - intros _. destruct (ExtensionManager.registerAll l2 h) as [h2 [evs2 r]]. reflexivity.
  - destruct (ExtensionManager.initExtension ext h) as [h1 [evs1 [e |]]];
      [discriminate |].
    specialize (IH h1).
    destruct (ExtensionManager.registerAll l1 h1) as [h2 [evs2 r]]. simpl in *.
    intros Hr. rewrite (IH Hr).
    destruct (ExtensionManager.registerAll l2 h2) as [h3 [evs3 r3]]. simpl.
    rewrite app_assoc. reflexivity.
Qed.

Lemma registerAll_first (l1 l2 : list ExtensionManager.IRegisteredExtension)
  (h : ContextProxyHandler.t) :
  snd (snd (ExtensionManager.registerAll (l1 ++ l2) h)) = None ->
  snd (snd (ExtensionManager.registerAll l1 h)) = None.
Proof.
  revert h. induction l1 as [| ext l1 IH]; intros h; simpl; [reflexivity |].
  destruct (ExtensionManager.initExtension ext h) as [h1 [evs1 [e |]]];
    [discriminate |].
  specialize (IH h1).
  destruct (ExtensionManager.registerAll (l1 ++ l2) h1) as [h2 [evs2 r]].
  destruct (ExtensionManager.registerAll l1 h1) as [h2' [evs2' r']]. exact IH.
Qed.

Lemma exec_cursor (s : stmt) (h : ContextProxyHandler.t) :
  let h' := fst (ContextProxyHandler.exec s h) in
  ContextProxyHandler.mContext h' = ContextProxyHandler.mContext h
  /\ ContextProxyHandler.mCurrentExtension h' = ContextProxyHandler.mCurrentExtension h
  /\ ContextProxyHandler.mCurrentPath h' = ContextProxyHandler.mCurrentPath h.
Proof.
  destruct s as [k args | k args | k v | k | e]; simpl; auto.
  unfold ContextProxyHandler.invoke.
  destruct (ContextProxyHandler.get h k) as [v | | k' opt]; simpl; auto.
Qed.

Lemma run_cursor (prog : list stmt) (h : ContextProxyHandler.t) :
  let h' := fst (ContextProxyHandler.run prog h) in
  ContextProxyHandler.mContext h' = ContextProxyHandler.mContext h
  /\ ContextProxyHandler.mCurrentExtension h' = ContextProxyHandler.mCurrentExtension h
  /\ ContextProxyHandler.mCurrentPath h' = ContextProxyHandler.mCurrentPath h.
Proof.
  revert h. induction prog as [| s prog IH]; intros h; simpl; [auto |].
  pose proof (exec_cursor s h) as Hs. cbv zeta in Hs.
  destruct (ContextProxyHandler.exec s h) as [h1 [evs [e |]]]; simpl in *; [exact Hs |].
  specialize (IH h1). cbv zeta in IH.
  destruct (ContextProxyHandler.run prog h1) as [h2 [evs2 r]]. simpl in *.
  destruct Hs as (H1 & H2 & H3). rewrite <- H1, <- H2, <- H3. exact IH.
Qed.

Lemma exec_tagged (s : stmt) (h : ContextProxyHandler.t) :
  tagged h -> tagged (fst (ContextProxyHandler.exec s h)).
Proof.
  intros Ht.
  assert (Hpush : forall k args opt, tagged (ContextProxyHandler.push_call h k args opt)).
  { intros k args opt c Hc. simpl in Hc. apply in_app_iff in Hc as [Hc | [<- | []]].
    - apply Ht, Hc.
    - split; reflexivity. }
  destruct s as [k args | k args | k v | k | e]; simpl; auto.
  unfold ContextProxyHandler.invoke.
  destruct (ContextProxyHandler.get h k) as [v | | k' opt]; simpl; auto.
Qed.

Lemma run_tagged (prog : list stmt) (h : ContextProxyHandler.t) :
  tagged h -> tagged (fst (ContextProxyHandler.run prog h)).
Proof.
  revert h. induction prog as [| s prog IH]; intros h Ht; simpl; [exact Ht |].
  pose proof (exec_tagged s h Ht) as Hs.
  destruct (ContextProxyHandler.exec s h) as [h1 [evs [e |]]]; simpl in *; [exact Hs |].
  specialize (IH h1 Hs).
  destruct (ContextProxyHandler.run prog h1) as [h2 [evs2 r]]. exact IH.
Qed.

Lemma recorded_tagged (ctx : context) (ext : ExtensionManager.IRegisteredExtension)
  (c : IInitCall.t) :
  In c (recorded ctx ext) ->
  IInitCall.extension c = Some (ExtensionManager.name ext)
  /\ IInitCall.extensionPath c = Some (ExtensionManager.path ext).
Proof.
  intros Hc. unfold recorded, registration_of in Hc.
  pose proof (run_tagged (ExtensionManager.initFunc ext)
    (ContextProxyHandler.setExtension (ExtensionManager.name ext)
       (ExtensionManager.path ext) (ContextProxyHandler.constructor ctx))) as Ht.
  pose proof (run_cursor (ExtensionManager.initFunc ext)
    (ContextProxyHandler.setExtension (ExtensionManager.name ext)
       (ExtensionManager.path ext) (ContextProxyHandler.constructor ctx))) as Hcur.
  cbv zeta in Hcur. destruct Hcur as (_ & He & Hp).
  destruct (Ht (fun c' (Hin : In c' []) => match Hin with end) c Hc) as [H1 H2].
  rewrite H1, H2, He, Hp. split; reflexivity.
Qed.

Lemma initExtension_context (ext : ExtensionManager.IRegisteredExtension)
  (h : ContextProxyHandler.t) :
  ContextProxyHandler.mContext (fst (ExtensionManager.initExtension ext h)) =
  ContextProxyHandler.mContext h.
Proof.
  rewrite initExtension_appends. unfold prepend, registration_of. simpl.
  pose proof (run_cursor (ExtensionManager.initFunc ext)
    (ContextProxyHandler.setExtension (ExtensionManager.name ext)
       (ExtensionManager.path ext)
       (ContextProxyHandler.constructor (ContextProxyHandler.mContext h)))) as Hcur.
  cbv zeta in Hcur. destruct Hcur as (Hctx & _). exact Hctx.
Qed.

(** After a loop over the extensions that has returned the log holds,
    after what was there, what each extension recorded, in load order;
    likewise the additions. *)
Lemma registerAll_collects (exts : list ExtensionManager.IRegisteredExtension)
  (h : ContextProxyHandler.t) :
  let ctx := ContextProxyHandler.mContext h in
  let h' := fst (ExtensionManager.registerAll exts h) in
  snd (snd (ExtensionManager.registerAll exts h)) = None ->
  ContextProxyHandler.mContext h' = ctx
  /\ ContextProxyHandler.mInitCalls h' =
     ContextProxyHandler.mInitCalls h ++ flat_map (recorded ctx) exts
  /\ ContextProxyHandler.mApiAdditions h' =
     ContextProxyHandler.mApiAdditions h ++ flat_map (contributed ctx) exts.
Proof.
  cbv zeta. revert h. induction exts as [| ext exts IH]; intros h; simpl.
  - rewrite !app_nil_r. auto.
  - pose proof (initExtension_appends ext h) as Hfst.
    pose proof (initExtension_context ext h) as Hctx. cbv zeta in Hfst.
    destruct (ExtensionManager.initExtension ext h) as [h1 [evs1 [e |]]];
      [discriminate |].
    simpl in Hfst, Hctx. specialize (IH h1).
    destruct (ExtensionManager.registerAll exts h1) as [h2 [evs2 r]]. simpl in *.
    intros Hr. rewrite Hctx in IH. destruct (IH Hr) as (IHc & IHcalls & IHadds).
    rewrite IHc, IHcalls, IHadds. split; [reflexivity |].
    rewrite Hfst. unfold prepend, recorded, contributed. simpl.
    rewrite !app_assoc. auto.
Qed.

(** The context is never replaced, whether the loop returns or not. *)
Lemma registerAll_context (exts : list ExtensionManager.IRegisteredExtension)
  (h : ContextProxyHandler.t) :
  ContextProxyHandler.mContext (fst (ExtensionManager.registerAll exts h)) =
  ContextProxyHandler.mContext h.
Proof.
  revert h. induction exts as [| ext exts IH]; intros h; simpl; [reflexivity |].
  pose proof (initExtension_context ext h) as Hctx.
  destruct (ExtensionManager.initExtension ext h) as [h1 [evs1 [e |]]];
    [exact Hctx |].
  specialize (IH h1).
  destruct (ExtensionManager.registerAll exts h1) as [h2 [evs2 r]]. simpl in *.
  congruence.
Qed.

End RegistrationFacts.

(** An exception whose message can be read is contained.  When the
    registration code of an extension throws anything but [null] or
    [undefined], the loop of [initExtensions] logs a warning carrying the
    name of the extension and the message of the exception; what the
    extension recorded before it threw stays in the log, after what was
    there; and the loop goes on with the extensions after it, from the state
    the failed one left. *)
Lemma thrown_error_is_contained `{Host}
  (pre post : list ExtensionManager.IRegisteredExtension)
  (e : ExtensionManager.IRegisteredExtension)
  (h0 h2 : ContextProxyHandler.t) (evs : list event) (m s : value) :
  let ctx := ContextProxyHandler.mContext h0 in
  let h1 := fst (ExtensionManager.registerAll pre h0) in
  snd (snd (ExtensionManager.registerAll pre h0)) = None ->
  ContextProxyHandler.run (ExtensionManager.initFunc e)
    (ContextProxyHandler.setExtension (ExtensionManager.name e)
       (ExtensionManager.path e) h1) = (h2, (evs, Some (Thrown m s))) ->
  let warning :=
    log Warn "couldn't initialize extension"
      [("name", VStr (ExtensionManager.name e)); ("err", m)] in
  ContextProxyHandler.mInitCalls h2 =
    ContextProxyHandler.mInitCalls h1 ++ recorded ctx e
  /\ ExtensionManager.registerAll (pre ++ e :: post) h0 =
     (fst (ExtensionManager.registerAll post h2),
      (fst (snd (ExtensionManager.registerAll pre h0)) ++
       ((if remote_defined
         then log Info "init extension" [("name", VStr (ExtensionManager.name e))]
         else []) ++ evs ++ warning) ++
       fst (snd (ExtensionManager.registerAll post h2)),
       snd (snd (ExtensionManager.registerAll post h2)))).
Proof.
  intros ctx h1 Hpre Hrun warning.
  assert (Hone : ExtensionManager.initExtension e h1 =
    (h2, ((if remote_defined
           then log Info "init extension" [("name", VStr (ExtensionManager.name e))]
           else []) ++ evs ++ warning, None))).
  { unfold ExtensionManager.initExtension. rewrite Hrun. reflexivity. }
  assert (Hctx1 : ContextProxyHandler.mContext h1 = ctx).
  { apply registerAll_context. }
  split.
  - pose proof (initExtension_appends e h1) as Happ. cbv zeta in Happ.
    rewrite Hone, Hctx1 in Happ. simpl in Happ. rewrite Happ. reflexivity.
  - rewrite (registerAll_app pre (e :: post) h0 Hpre). fold h1. simpl. rewrite Hone.
    destruct (ExtensionManager.registerAll post h2) as [h3 [evs3 r3]]. reflexivity.
Qed.

Example faulty_is_contained :
  let h1 := ContextProxyHandler.constructor {| api := VObj 0 |} in
  let '(hf, (evs, thrown)) :=
    @ExtensionManager.registerAll renderer [legacy_plugin; faulty; good_plugin] h1 in
  map (fun c => (IInitCall.extension c, IInitCall.key c))
    (ContextProxyHandler.mInitCalls hf) =
  [ (Some "legacy-plugin", "registerAction"); (Some "legacy-plugin", "registerWidget");
    (Some "faulty", "registerAction"); (Some "good-plugin", "registerAction") ]
  /\ thrown = None.
Proof. vm_compute. split; reflexivity. Qed.

(** C6. The claim fails when the registration code throws [null] (or
    [undefined]): the exception is caught, but the catch block reads
    [err.message] to build the line of the log, which throws a TypeError
    that leaves the loop.  With [legacy_plugin], [null_thrower] and
    [good_plugin] loaded in this order, [initExtensions] throws that
    TypeError: no warning naming [null_thrower] is logged, the registration
    code of [good_plugin] is never run (its call is not in the log and its
    initialisation is not announced), and the filter does not run, so the
    calls of the incompatible [legacy_plugin] are still in the log. *)
Theorem registration_failure_escapes_on_null :
  let '(h, (evs, thrown)) :=
    @ExtensionManager.initExtensions renderer (VObj 0)
      [legacy_plugin; null_thrower; good_plugin] [] in
  thrown = Some (@property_error renderer "null" "message")
  /\ map (fun c => (IInitCall.extension c, IInitCall.key c))
       (ContextProxyHandler.mInitCalls h) =
     [ (Some "legacy-plugin", "registerAction"); (Some "legacy-plugin", "registerWidget");
       (Some "null-thrower", "registerAction") ]
  /\ evs =
     log Info "init extension" [("name", VStr "legacy-plugin")] ++
     log Info "init extension" [("name", VStr "null-thrower")]
  /\ List.filter is_warning evs = [].
Proof. vm_compute. repeat split; reflexivity. Qed.

(** When [initExtensions] returns, the handler it leaves is the filtered
    one, and the loop over the extensions has returned. *)
Lemma initExtensions_handler `{Host} (mApi : value)
  (exts : list ExtensionManager.IRegisteredExtension) (sUIAPIs : JsSet.t string) :
  snd (snd (ExtensionManager.initExtensions mApi exts sUIAPIs)) = None ->
  snd (snd (ExtensionManager.registerAll exts
              (ContextProxyHandler.constructor {| api := mApi |}))) = None
  /\ fst (ExtensionManager.initExtensions mApi exts sUIAPIs) =
     fst (ContextProxyHandler.unloadIncompatible sUIAPIs
            (fst (ExtensionManager.registerAll exts
                    (ContextProxyHandler.constructor {| api := mApi |})))).
Proof.
  unfold ExtensionManager.initExtensions.
  destruct (ExtensionManager.registerAll exts _) as [h1 [evs1 [e |]]]; simpl;
    [discriminate |].
  destruct (ContextProxyHandler.unloadIncompatible sUIAPIs h1) as [h2 evs2].
  intros _. split; reflexivity.
Qed.

(** C2, as stated, fails: [adder] contributes [registerWidget] and
    [greedy_user] calls it non-optionally, yet [greedy_user] is marked
    incompatible and its [registerWidget] call is removed, because it also
    calls [registerGizmo], which nobody provides. *)
Lemma forward_reference_lost_with_unsupported_sibling :
  let ctx := {| api := VObj 0 |} in
  let a := {| IApiAddition.key := "registerWidget"; IApiAddition.callback := VFun 1 |} in
  let c := {| IInitCall.extension := Some "user";
              IInitCall.extensionPath := Some "/plugins/user";
              IInitCall.key := "registerWidget";
              IInitCall.arguments := [VStr "clock"];
              IInitCall.optional := false |} in
  let hreg := fst (@ExtensionManager.registerAll renderer [adder; greedy_user]
                     (ContextProxyHandler.constructor ctx)) in
  let hf := fst (@ExtensionManager.initExtensions renderer (VObj 0) [adder; greedy_user] []) in
  In a (@contributed renderer ctx adder)
  /\ In c (@recorded renderer ctx greedy_user)
  /\ JsSet.has (ContextProxyHandler.incompatibleExtensions_of [] hreg) (Some "user") = true
  /\ ~ In c (ContextProxyHandler.mInitCalls hf).
Proof.
  cbv zeta. split; [| split; [| split]].
  - vm_compute. left. reflexivity.
  - vm_compute. left. reflexivity.
  - vm_compute. reflexivity.
  - vm_compute. intros [].
Qed.

(** C2, amended. Let [A] and [B] be extensions of a load that
    [initExtensions] gets through, in either order, [A] contributing an
    addition under a name that [B] calls.  That
    call never counts as unsupported when the filter runs, because the
    capability set is computed from the additions of all extensions after
    the loop over them has ended.  [B] is not marked incompatible and the
    call survives filtering provided every non-optional call recorded under
    the name of [B] names a capability of the full set: one passed in, one
    of the static API, or one contributed by an extension of the load. *)
Theorem forward_reference_survives `{Host} (mApi : value)
  (exts : list ExtensionManager.IRegisteredExtension) (sUIAPIs : JsSet.t string)
  (A B : ExtensionManager.IRegisteredExtension)
  (a : IApiAddition.t) (c : IInitCall.t) :
  let ctx := {| api := mApi |} in
  let hreg := fst (ExtensionManager.registerAll exts (ContextProxyHandler.constructor ctx)) in
  let hf := fst (ExtensionManager.initExtensions mApi exts sUIAPIs) in
  snd (snd (ExtensionManager.initExtensions mApi exts sUIAPIs)) = None ->
  In A exts -> In B exts ->
  In a (contributed ctx A) -> In c (recorded ctx B) ->
  IInitCall.key c = IApiAddition.key a ->
  ContextProxyHandler.unsupported (ContextProxyHandler.fullAPI_of sUIAPIs hreg) c = false
  /\ ((forall q c',
         In q exts -> ExtensionManager.name q = ExtensionManager.name B ->
         In c' (recorded ctx q) -> IInitCall.optional c' = false ->
         In (IInitCall.key c') sUIAPIs
         \/ In (IInitCall.key c') ContextProxyHandler.staticAPIs
         \/ exists q' a', In q' exts /\ In a' (contributed ctx q')
                          /\ IApiAddition.key a' = IInitCall.key c') ->
      JsSet.has (ContextProxyHandler.incompatibleExtensions_of sUIAPIs hreg)
        (Some (ExtensionManager.name B)) = false
      /\ In c (ContextProxyHandler.mInitCalls hf)).
Proof.
  intros ctx hreg hf Hdone HA HB Ha Hc Hkey.
  destruct (initExtensions_handler mApi exts sUIAPIs Hdone) as [Hloop Hfinal].
  pose proof (registerAll_collects exts (ContextProxyHandler.constructor ctx) Hloop) as Hreg.
  cbv zeta in Hreg. fold hreg in Hreg. simpl in Hreg.
  destruct Hreg as (_ & Hcalls & Hadds).
  assert (Hfull : forall k,
    (exists q' a', In q' exts /\ In a' (contributed ctx q') /\ IApiAddition.key a' = k) ->
    JsSet.has (ContextProxyHandler.fullAPI_of sUIAPIs hreg) k = true).
  { intros k (q' & a' & Hq' & Ha' & <-). apply fullAPI_has. right. right.
    rewrite Hadds. apply in_map, in_flat_map. eauto. }
  assert (Hc_in : In c (ContextProxyHandler.mInitCalls hreg)).
  { rewrite Hcalls. apply in_flat_map. eauto. }
  split.
  - unfold ContextProxyHandler.unsupported.
    rewrite (Hfull (IInitCall.key c)); [apply andb_false_r | eauto].
  - intros Hothers.
    assert (Hnot : JsSet.has (ContextProxyHandler.incompatibleExtensions_of sUIAPIs hreg)
                     (Some (ExtensionManager.name B)) = false).
    { apply JsSet_has_false. intros Hin.
      apply incompatible_iff in Hin as (c' & Hc' & Hext & Hu).
      apply unsupported_true in Hu as [Hopt Hhas].
      rewrite Hcalls in Hc'. apply in_flat_map in Hc' as (q & Hq & Hc').
      destruct (recorded_tagged ctx q c' Hc') as [Hname _].
      assert (Hsame : ExtensionManager.name q = ExtensionManager.name B) by congruence.
      assert (Htrue : JsSet.has (ContextProxyHandler.fullAPI_of sUIAPIs hreg)
                        (IInitCall.key c') = true).
      { destruct (Hothers q c' Hq Hsame Hc' Hopt) as [Hui | [Hst | Hadd]].
        - apply fullAPI_has. auto.
        - apply fullAPI_has. auto.
        - apply Hfull, Hadd. }
      congruence. }
    split; [exact Hnot |].
    subst hf. rewrite Hfinal. fold ctx. fold hreg.
    rewrite unloadIncompatible_calls. apply filter_In. split; [exact Hc_in |].
    rewrite <- incompatible_has.
    destruct (recorded_tagged ctx B c Hc) as [-> _]. rewrite Hnot. reflexivity.
Qed.

Lemma forward_reference_survives_witness :
  let c := {| IInitCall.extension := Some "user";
              IInitCall.extensionPath := Some "/plugins/user";
              IInitCall.key := "registerWidget";
              IInitCall.arguments := [VStr "clock"];
              IInitCall.optional := false |} in
  In c (ContextProxyHandler.mInitCalls
          (fst (@ExtensionManager.initExtensions renderer (VObj 0) [user; adder] []))).
Proof.
  cbv zeta.
  refine (proj2 (proj2 (@forward_reference_survives renderer (VObj 0) [user; adder] []
    adder user
    {| IApiAddition.key := "registerWidget"; IApiAddition.callback := VFun 1 |}
    _ _ _ _ _ _ _) _)).
  - reflexivity.
  - right. left. reflexivity.
  - left. reflexivity.
  - vm_compute. left. reflexivity.
  - vm_compute. left. reflexivity.
  - reflexivity.
  - intros q c' Hq Hname Hc' Hopt. right. right. exists adder.
    exists {| IApiAddition.key := "registerWidget"; IApiAddition.callback := VFun 1 |}.
    split; [right; left; reflexivity |].
    split; [vm_compute; left; reflexivity |].
    destruct Hq as [<- | [<- | []]].
    + vm_compute in Hc'. destruct Hc' as [<- | []]. reflexivity.
    + vm_compute in Hname. discriminate Hname.
Defined.

(** ** Replaying the additions *)








(** ** The state-change watcher *)




Lemma watches_at_own `{Host} (m : ExtensionManager.watcher) (key : string)
  (cbs : list value) :
  ExtensionManager.mWatches m !! key = Some cbs ->
  ExtensionManager.watches_at m key = inl cbs.
Proof. intros Hcbs. unfold ExtensionManager.watches_at. rewrite Hcbs. reflexivity. Qed.




Lemma watch_fresh `{Host} (m : ExtensionManager.watcher)
  (ls : list ExtensionManager.listener_closure) (watchPath : list string) (cb : value) :
  let key := String.concat "." watchPath in
  ExtensionManager.mReduxWatcher m = Some ls ->
  ExtensionManager.watches_at m key = inr VUndefined ->
  ExtensionManager.stateChangeHandler watchPath cb m =
  ({| ExtensionManager.mReduxWatcher :=
        Some (ls ++ [ {| ExtensionManager.watchPath_of := watchPath;
                         ExtensionManager.key_of := key;
                         ExtensionManager.lastValue := VUndefined |} ]);
      ExtensionManager.mWatches := <[key := [cb]]> (ExtensionManager.mWatches m) |},
   ([EvWatch watchPath], None)).
Proof.
  intros key Hstore Hfresh. unfold ExtensionManager.stateChangeHandler.
  fold key. rewrite Hfresh, Hstore.
  unfold ExtensionManager.push_callback, ExtensionManager.watches_at. simpl.
  rewrite lookup_insert_eq. simpl. rewrite insert_insert_eq. reflexivity.
Qed.

Lemma watch_again `{Host} (m : ExtensionManager.watcher) (cbs : list value)
  (watchPath : list string) (cb : value) :
  let key := String.concat "." watchPath in
  ExtensionManager.mWatches m !! key = Some cbs ->
  ExtensionManager.stateChangeHandler watchPath cb m =
  ({| ExtensionManager.mReduxWatcher := ExtensionManager.mReduxWatcher m;
      ExtensionManager.mWatches := <[key := cbs ++ [cb]]> (ExtensionManager.mWatches m) |},
   ([], None)).
Proof.
  intros key Hcbs. unfold ExtensionManager.stateChangeHandler.
  fold key. unfold ExtensionManager.push_callback.
  rewrite (watches_at_own m key cbs Hcbs). reflexivity.
Qed.








(** What the amended statement leaves out.  A path whose key is a name of
    [Object.prototype] is never subscribed: every registration on it throws.
    A callback that throws [null] ends the loop of the listener: the
    callbacks after it are not called and the TypeError of the catch block
    goes back to redux-watcher. *)
Example inherited_key_is_never_subscribed :
  let r1 := @ExtensionManager.stateChangeHandler renderer ["constructor"] (VFun 1)
              (ExtensionManager.setStore ExtensionManager.watcher_initial) in
  let r2 := @ExtensionManager.stateChangeHandler renderer ["constructor"] (VFun 2) (fst r1) in
  snd r1 = ([], Some (@type_error renderer "push"))
  /\ snd r2 = ([], Some (@type_error renderer "push"))
  /\ subscriptions "constructor" (fst r2) = 0.
Proof. cbv zeta. repeat split; reflexivity. Qed.

Example null_thrown_by_a_callback_escapes :
  let m := fst (@ExtensionManager.stateChangeHandler renderer ["session"] (VFun 2)
                  (fst (@ExtensionManager.stateChangeHandler renderer ["session"] (VFun 14)
                          (ExtensionManager.setStore ExtensionManager.watcher_initial)))) in
  snd (@ExtensionManager.notify renderer 0 VUndefined (VStr "on") m) =
  ([EvCall (VFun 14) [VUndefined; VStr "on"]],
   Some (@property_error renderer "null" "message")).
Proof. reflexivity. Qed.

(** ** The metadata-store broker *)

Section BrokerFacts.
Context `{Host}.

Lemma stale_rotated (a : ExtensionManager.acquisition) (b : ExtensionManager.broker) :
  ExtensionManager.currentGame a <> ExtensionManager.mModDBGame b
  \/ ExtensionManager.currentKey a <> ExtensionManager.mModDBAPIKey b ->
  ExtensionManager.stale a b = true.
Proof.
  intros Hdiff. unfold ExtensionManager.stale, strict_eq.
  destruct Hdiff as [Hg | Hk].
  - rewrite (bool_decide_eq_false_2 _ Hg). simpl.
    rewrite orb_true_r. reflexivity.
  - rewrite (bool_decide_eq_false_2 _ Hk). simpl. apply orb_true_r.
Qed.

Lemma step_rotation_start (st : ExtensionManager.store_state) (b : ExtensionManager.broker)
  (w : ExtensionManager.metadb) (old : nat) :
  ExtensionManager.mModDB b = Some old ->
  ExtensionManager.mModDBPromise b = Some ExtensionManager.Resolved ->
  ExtensionManager.activeGameId st <> ExtensionManager.mModDBGame b
  \/ ExtensionManager.APIKey st <> ExtensionManager.mModDBAPIKey b ->
  let c0 := ExtensionManager.getModDB st b w in
  ExtensionManager.step c0 =
  Some {| ExtensionManager.call :=
            ExtensionManager.at_ (ExtensionManager.call c0) (ExtensionManager.Closing old);
          ExtensionManager.this := b;
          ExtensionManager.modmeta := w;
          ExtensionManager.emitted := [EvClose old] |}.
Proof.
  intros Hdb Hgate Hdiff c0. subst c0.
  unfold ExtensionManager.getModDB. rewrite Hgate.
  unfold ExtensionManager.step. cbn [ExtensionManager.call ExtensionManager.this
    ExtensionManager.modmeta ExtensionManager.emitted ExtensionManager.at_stage].
  unfold ExtensionManager.init_resolved. rewrite Hgate.
  cbn [ExtensionManager.onDone orb].
  rewrite stale_rotated by exact Hdiff. rewrite Hdb. reflexivity.
Qed.

Lemma trajectory_settled (k n : nat) (c : ExtensionManager.config) :
  settles k c -> incl (ExtensionManager.trajectory n c) (ExtensionManager.trajectory k c).
Proof.
  revert n c. induction k as [| k IH]; intros n c Hk; destruct n as [| n]; simpl in *.
  - apply incl_refl.
  - destruct (ExtensionManager.step c); [contradiction | apply incl_refl].
  - destruct (ExtensionManager.step c) as [c' |]; [| apply incl_refl].
    intros x [<- | []]. left. reflexivity.
  - destruct (ExtensionManager.step c) as [c' |]; [| apply incl_refl].
    intros x [<- | Hx]; [left; reflexivity | right; apply (IH n c' Hk x Hx)].
Qed.

End BrokerFacts.

(** C7. The claim fails when two rotations overlap.  The broker holds the
    instance 0 made for ["skyrim"], the gate is resolved and the game is now
    ["fallout4"].  A first [getModDB] call issues [close] on the instance; a
    second call begun meanwhile finds the instance still stored and issues
    [close] on it as well.  The first call then clears [mModDB] and
    constructs the instance 1.  When the [close] of the second call
    resolves, its callback clears [mModDB] again, dropping the instance 1
    without closing it, and its next callback constructs the instance 2:
    the instances 1 and 2 are both open.  The gate only holds back calls
    made during the very first one. *)
Theorem overlapping_rotations_leave_two_instances :
  let first0 := ExtensionManager.getModDB store_fallout broker_skyrim world_skyrim in
  exists first1 second1 first2 first3 second2 second3,
    @ExtensionManager.step renderer first0 = Some first1
    /\ @ExtensionManager.step renderer (begun_during store_fallout first1) = Some second1
    /\ @ExtensionManager.step renderer (resumed_after second1 first1) = Some first2
    /\ @ExtensionManager.step renderer first2 = Some first3
    /\ @ExtensionManager.step renderer (resumed_after first3 second1) = Some second2
    /\ @ExtensionManager.step renderer second2 = Some second3
    /\ ExtensionManager.mModDB (ExtensionManager.this first0) = Some 0
    /\ live first0 = [0]
    /\ ExtensionManager.emitted first1 = [EvClose 0]
    /\ ExtensionManager.emitted second1 = [EvClose 0]
    /\ ExtensionManager.mModDB (ExtensionManager.this first2) = None
    /\ live first2 = []
    /\ ExtensionManager.mModDB (ExtensionManager.this first3) = Some 1
    /\ live first3 = [1]
    /\ ExtensionManager.mModDB (ExtensionManager.this second2) = None
    /\ live second2 = [1]
    /\ ExtensionManager.emitted second3 =
       [EvClose 0; EvNew 2 (VStr "fallout4") (VStr "k1")] ++ log Debug "initialised" []
    /\ ExtensionManager.mModDB (ExtensionManager.this second3) = Some 2
    /\ live second3 = [1; 2].
Proof.
  cbv zeta. do 6 eexists.
  repeat (split; [vm_compute; reflexivity |]).
  reflexivity.
Qed.

(** X29. Take a broker at rest that holds an instance [old], the only open
    one, made for a game or an API key other than the current ones, and
    follow one [getModDB] call through its callbacks, with no other call
    under way.  Whatever [close] and
    the constructor do, no configuration on the way has more than one open
    instance, and a construction is only ever emitted right after the close
    of [old].  When both succeed the call goes through exactly these
    configurations: [close] issued on [old] with the broker untouched; [old]
    closed and [mModDB] undefined, nothing open; the new instance
    constructed for the current game and key, stored in [mModDB] with the
    current game and key recorded, the only open one; the promise settled
    with the new instance. *)
Theorem rotation_releases_before_constructing `{Host}
  (st : ExtensionManager.store_state) (b : ExtensionManager.broker)
  (w : ExtensionManager.metadb) (old : nat) :
  let game := ExtensionManager.activeGameId st in
  let key := ExtensionManager.APIKey st in
  let new := ExtensionManager.next_db w in
  let c0 := ExtensionManager.getModDB st b w in
  let a := ExtensionManager.call c0 in
  ExtensionManager.mModDB b = Some old ->
  ExtensionManager.mModDBPromise b = Some ExtensionManager.Resolved ->
  game <> ExtensionManager.mModDBGame b \/ key <> ExtensionManager.mModDBAPIKey b ->
  ExtensionManager.open_dbs w = [old] ->
  (forall n c, In c (ExtensionManager.trajectory n c0) ->
     length (live c) <= 1
     /\ forall db g k, In (EvNew db g k) (ExtensionManager.emitted c) ->
          exists tail, ExtensionManager.emitted c = EvClose old :: EvNew db g k :: tail)
  /\ (close_db old = None -> new_db game key = None ->
      let closed :=
        {| ExtensionManager.mModDB := None;
           ExtensionManager.mModDBPromise := ExtensionManager.mModDBPromise b;
           ExtensionManager.mModDBGame := ExtensionManager.mModDBGame b;
           ExtensionManager.mModDBAPIKey := ExtensionManager.mModDBAPIKey b |} in
      let rotated :=
        {| ExtensionManager.mModDB := Some new;
           ExtensionManager.mModDBPromise := ExtensionManager.mModDBPromise b;
           ExtensionManager.mModDBGame := game;
           ExtensionManager.mModDBAPIKey := key |} in
      let w' := {| ExtensionManager.open_dbs := [new];
                   ExtensionManager.next_db := S new |} in
      let evs := [EvClose old; EvNew new game key] ++ log Debug "initialised" [] in
      ExtensionManager.trajectory 4 c0 =
      [ c0;
        {| ExtensionManager.call := ExtensionManager.at_ a (ExtensionManager.Closing old);
           ExtensionManager.this := b;
           ExtensionManager.modmeta := w;
           ExtensionManager.emitted := [EvClose old] |};
        {| ExtensionManager.call := ExtensionManager.at_ a ExtensionManager.Constructing;
           ExtensionManager.this := closed;
           ExtensionManager.modmeta :=
             {| ExtensionManager.open_dbs := []; ExtensionManager.next_db := new |};
           ExtensionManager.emitted := [EvClose old] |};
        {| ExtensionManager.call :=
             ExtensionManager.at_ a (ExtensionManager.Finally (inl new));
           ExtensionManager.this := rotated;
           ExtensionManager.modmeta := w';
           ExtensionManager.emitted := evs |};
        {| ExtensionManager.call :=
             ExtensionManager.at_ a (ExtensionManager.Settled (inl new));
           ExtensionManager.this := rotated;
           ExtensionManager.modmeta := w';
           ExtensionManager.emitted := evs |} ]).
Proof.
  intros game key new c0 a Hdb Hgate Hdiff Hopen.
  subst game key new a c0.
  destruct b as [db gate g k]. destruct w as [opens next]. destruct st as [game key].
  cbn [ExtensionManager.mModDB ExtensionManager.mModDBPromise ExtensionManager.mModDBGame
       ExtensionManager.mModDBAPIKey ExtensionManager.open_dbs ExtensionManager.next_db
       ExtensionManager.activeGameId ExtensionManager.APIKey] in *.
  subst db gate opens.
  assert (Hstale : forall od s gate,
    ExtensionManager.stale
      {| ExtensionManager.currentGame := game; ExtensionManager.currentKey := key;
         ExtensionManager.onDone := od; ExtensionManager.at_stage := s |}
      {| ExtensionManager.mModDB := Some old; ExtensionManager.mModDBPromise := gate;
         ExtensionManager.mModDBGame := g; ExtensionManager.mModDBAPIKey := k |} = true).
  { intros od s gate. apply stale_rotated. exact Hdiff. }
  split.
  - intros n c Hc.
    assert (Hsettles : settles 4
      (ExtensionManager.getModDB
         {| ExtensionManager.activeGameId := game; ExtensionManager.APIKey := key |}
         {| ExtensionManager.mModDB := Some old;
            ExtensionManager.mModDBPromise := Some ExtensionManager.Resolved;
            ExtensionManager.mModDBGame := g; ExtensionManager.mModDBAPIKey := k |}
         {| ExtensionManager.open_dbs := [old]; ExtensionManager.next_db := next |})).
    { cbn. rewrite Hstale. cbn. rewrite Nat.eqb_refl.
      destruct (close_db old); cbn; [exact I |].
      destruct (new_db game key); cbn; exact I. }
    apply (trajectory_settled 4 n _ Hsettles) in Hc. clear Hsettles.
    cbn in Hc. rewrite Hstale in Hc. cbn in Hc. rewrite Nat.eqb_refl in Hc.
    unfold live.
    destruct (close_db old); cbn in Hc.
    + destruct Hc as [<- | [<- | [<- | [<- | []]]]]; cbn;
        (split; [lia | intros db g0 k0 Hin; cbn in Hin; intuition discriminate]).
    + destruct (new_db game key); cbn in Hc.
      * destruct Hc as [<- | [<- | [<- | [<- | [<- | []]]]]]; cbn;
          (split; [lia | intros db g0 k0 Hin; cbn in Hin; intuition discriminate]).
      * destruct Hc as [<- | [<- | [<- | [<- | [<- | []]]]]]; cbn;
          (split; [lia |]); intros db g0 k0 Hin; cbn in Hin;
          try (intuition discriminate);
          (destruct Hin as [Hin | [Hin | [Hin | []]]]; try discriminate Hin;
           injection Hin as <- <- <-; eexists; reflexivity).
  - intros Hclose Hnew. cbn. rewrite Hstale. cbn.
    rewrite Nat.eqb_refl, Hclose. cbn. rewrite Hnew. reflexivity.
Qed.

Lemma rotation_releases_before_constructing_witness :
  map (fun c => (live c, ExtensionManager.mModDB (ExtensionManager.this c)))
    (@ExtensionManager.trajectory renderer 4
       (ExtensionManager.getModDB store_fallout broker_skyrim world_skyrim)) =
  [ ([0], Some 0); ([0], Some 0); ([], None); ([1], Some 1); ([1], Some 1) ]
  /\ ExtensionManager.emitted
       (List.last (@ExtensionManager.trajectory renderer 4
                     (ExtensionManager.getModDB store_fallout broker_skyrim world_skyrim))
          (ExtensionManager.getModDB store_fallout broker_skyrim world_skyrim)) =
     [EvClose 0; EvNew 1 (VStr "fallout4") (VStr "k1");
      EvLog {| lvl := Debug; text := "initialised"; meta := [] |}].
Proof.
  assert (Hdiff : ExtensionManager.activeGameId store_fallout <>
                  ExtensionManager.mModDBGame broker_skyrim
                  \/ ExtensionManager.APIKey store_fallout <>
                     ExtensionManager.mModDBAPIKey broker_skyrim).
  { left. discriminate. }
  pose proof (@rotation_releases_before_constructing renderer
                store_fallout broker_skyrim world_skyrim 0
                eq_refl eq_refl Hdiff eq_refl) as [_ Hrun].
  specialize (Hrun eq_refl eq_refl). cbv zeta in Hrun.
  rewrite Hrun. split; reflexivity.
Defined.

(** Acquisitions made one after the other keep the broker at rest, and no
    configuration on the way has more than one open instance. *)
Lemma acquire_at_rest `{Host} (st : ExtensionManager.store_state)
  (b : ExtensionManager.broker) (w : ExtensionManager.metadb) :
  at_rest b w ->
  settles 4 (ExtensionManager.getModDB st b w)
  /\ at_rest (ExtensionManager.this (acquire st b w))
       (ExtensionManager.modmeta (acquire st b w))
  /\ forall c, In c (ExtensionManager.trajectory 4 (ExtensionManager.getModDB st b w)) ->
       length (live c) <= 1.
Proof.
  intros [Hgate Hopen]. unfold acquire, at_rest, live.
  destruct b as [db gate g k]. destruct w as [opens next]. destruct st as [game key].
  cbn [ExtensionManager.mModDB ExtensionManager.mModDBPromise ExtensionManager.mModDBGame
       ExtensionManager.mModDBAPIKey ExtensionManager.open_dbs ExtensionManager.next_db
       ExtensionManager.activeGameId ExtensionManager.APIKey] in *.
  subst opens.
  destruct gate as [[|] |]; [congruence | |];
    destruct db as [old |]; cbn;
    try (match goal with
         | |- context [ExtensionManager.stale ?a ?b] =>
             destruct (ExtensionManager.stale a b)
         end; cbn);
    try rewrite Nat.eqb_refl;
    try (destruct (close_db old); cbn);
    try (destruct (new_db game key); cbn);
    (split; [exact I |]); (split; [split; [discriminate | reflexivity] |]);
    intros c Hc; repeat (destruct Hc as [<- | Hc]; [cbn; lia |]); destruct Hc.
Qed.

(** * Further properties *)

(** ** What the filter leaves *)

Lemma filter_none {A : Type} (f : A -> bool) (l : list A) :
  (forall x, In x l -> f x = false) -> List.filter f l = [].
Proof.
  induction l as [| x l IH]; simpl; intros Hall; [reflexivity |].
  rewrite (Hall x (or_introl eq_refl)). apply IH. auto.
Qed.

Lemma unloadIncompatible_fullAPI `{Host} (furtherAPIs : JsSet.t string)
  (h : ContextProxyHandler.t) :
  ContextProxyHandler.fullAPI_of furtherAPIs
    (fst (ContextProxyHandler.unloadIncompatible furtherAPIs h)) =
  ContextProxyHandler.fullAPI_of furtherAPIs h.
Proof.
  unfold ContextProxyHandler.fullAPI_of. rewrite unloadIncompatible_additions. reflexivity.
Qed.

Lemma survivor_not_disqualified `{Host} (furtherAPIs : JsSet.t string)
  (h : ContextProxyHandler.t) (c : IInitCall.t) :
  In c (ContextProxyHandler.mInitCalls
          (fst (ContextProxyHandler.unloadIncompatible furtherAPIs h))) <->
  In c (ContextProxyHandler.mInitCalls h)
  /\ disqualified furtherAPIs h (IInitCall.extension c) = false.
Proof.
  rewrite unloadIncompatible_calls, filter_In, negb_true_iff. reflexivity.
Qed.

(** X1. After [unloadIncompatible] every call left in the log that is not
    optional names a capability of the full set, which is the same set
    before and after: the names passed in, the static API and the keys of
    all additions. *)
Theorem filtered_log_is_supported `{Host} (furtherAPIs : JsSet.t string)
  (h : ContextProxyHandler.t) (c : IInitCall.t) :
  let h' := fst (ContextProxyHandler.unloadIncompatible furtherAPIs h) in
  In c (ContextProxyHandler.mInitCalls h') ->
  IInitCall.optional c = false ->
  (In (IInitCall.key c) furtherAPIs
   \/ In (IInitCall.key c) ContextProxyHandler.staticAPIs
   \/ In (IInitCall.key c)
        (map IApiAddition.key (ContextProxyHandler.mApiAdditions h')))
  /\ ContextProxyHandler.unsupported
       (ContextProxyHandler.fullAPI_of furtherAPIs h') c = false.
Proof.
  intros h' Hc Hopt. subst h'.
  apply survivor_not_disqualified in Hc as [Hc Hd].
  assert (Hsup : ContextProxyHandler.unsupported
                   (ContextProxyHandler.fullAPI_of furtherAPIs h) c = false).
  { destruct (ContextProxyHandler.unsupported _ c) eqn:Eu; [| reflexivity].
    unfold disqualified in Hd.
    assert (Hex : existsb (fun c0 =>
      bool_decide (IInitCall.extension c0 = IInitCall.extension c) &&
      ContextProxyHandler.unsupported (ContextProxyHandler.fullAPI_of furtherAPIs h) c0)
      (ContextProxyHandler.mInitCalls h) = true).
    { apply existsb_exists. exists c. split; [exact Hc |].
      rewrite Eu, andb_true_r. apply bool_decide_eq_true. reflexivity. }
    congruence. }
  rewrite unloadIncompatible_fullAPI, unloadIncompatible_additions.
  split; [| exact Hsup].
  apply fullAPI_has. unfold ContextProxyHandler.unsupported in Hsup.
  rewrite Hopt in Hsup. simpl in Hsup. apply negb_false_iff in Hsup. exact Hsup.
Qed.

Lemma filtered_log_is_supported_witness :
  let h := fst (@ExtensionManager.initExtensions renderer (VObj 0)
                  [user; legacy_plugin; good_plugin] []) in
  let c := {| IInitCall.extension := Some "good-plugin";
              IInitCall.extensionPath := Some "/plugins/good-plugin";
              IInitCall.key := "registerAction";
              IInitCall.arguments := [VStr "new"];
              IInitCall.optional := false |} in
  In c (ContextProxyHandler.mInitCalls h)
  /\ In (IInitCall.key c) ContextProxyHandler.staticAPIs.
Proof.
  cbv zeta.
  assert (Hc : In {| IInitCall.extension := Some "good-plugin";
                     IInitCall.extensionPath := Some "/plugins/good-plugin";
                     IInitCall.key := "registerAction";
                     IInitCall.arguments := [VStr "new"];
                     IInitCall.optional := false |}
                 (ContextProxyHandler.mInitCalls
                    (fst (@ContextProxyHandler.unloadIncompatible renderer []
                       (fst (@ExtensionManager.registerAll renderer
                               [user; legacy_plugin; good_plugin]
                               (ContextProxyHandler.constructor {| api := VObj 0 |}))))))).
  { vm_compute. left. reflexivity. }
  split; [vm_compute; left; reflexivity |].
  destruct (@filtered_log_is_supported renderer [] _ _ Hc eq_refl) as [[Hf | [Hs | Ha]] _].
  - destruct Hf.
  - exact Hs.
  - vm_compute in Ha. destruct Ha.
Defined.

(** X2. Filtering twice is filtering once: on a log that
    [unloadIncompatible] has been through, a second pass finds no
    incompatible extension, changes nothing, and logs at most the line that
    all extensions are compatible. *)
Theorem unloadIncompatible_idempotent `{Host} (furtherAPIs : JsSet.t string)
  (h : ContextProxyHandler.t) :
  let h' := fst (ContextProxyHandler.unloadIncompatible furtherAPIs h) in
  ContextProxyHandler.unloadIncompatible furtherAPIs h' =
  (h', if remote_defined then log Debug "all extensions compatible" [] else []).
Proof.
  intros h'.
  assert (Hnone : List.filter
    (ContextProxyHandler.unsupported (ContextProxyHandler.fullAPI_of furtherAPIs h'))
    (ContextProxyHandler.mInitCalls h') = []).
  { apply filter_none. intros c Hc.
    destruct (IInitCall.optional c) eqn:Eopt.
    - unfold ContextProxyHandler.unsupported. rewrite Eopt. reflexivity.
    - subst h'. apply survivor_not_disqualified in Hc as [Hc Hd].
      rewrite unloadIncompatible_fullAPI.
      destruct (ContextProxyHandler.unsupported _ c) eqn:Eu; [| reflexivity].
      unfold disqualified in Hd.
      assert (Hex : existsb (fun c0 =>
        bool_decide (IInitCall.extension c0 = IInitCall.extension c) &&
        ContextProxyHandler.unsupported (ContextProxyHandler.fullAPI_of furtherAPIs h) c0)
        (ContextProxyHandler.mInitCalls h) = true).
      { apply existsb_exists. exists c. split; [exact Hc |].
        rewrite Eu, andb_true_r. apply bool_decide_eq_true. reflexivity. }
      congruence. }
  unfold ContextProxyHandler.unloadIncompatible,
    ContextProxyHandler.incompatibleExtensions_of.
  rewrite Hnone. reflexivity.
Qed.

Lemma initExtensions_log `{Host} (mApi : value)
  (exts : list ExtensionManager.IRegisteredExtension) (sUIAPIs : JsSet.t string) :
  let ctx := {| api := mApi |} in
  let hreg := fst (ExtensionManager.registerAll exts (ContextProxyHandler.constructor ctx)) in
  let hf := fst (ExtensionManager.initExtensions mApi exts sUIAPIs) in
  snd (snd (ExtensionManager.initExtensions mApi exts sUIAPIs)) = None ->
  ContextProxyHandler.mInitCalls hreg = flat_map (recorded ctx) exts
  /\ ContextProxyHandler.mApiAdditions hreg = flat_map (contributed ctx) exts
  /\ ContextProxyHandler.mInitCalls hf =
     List.filter (fun c => negb (disqualified sUIAPIs hreg (IInitCall.extension c)))
       (flat_map (recorded ctx) exts)
  /\ ContextProxyHandler.mApiAdditions hf = flat_map (contributed ctx) exts.
Proof.
  intros ctx hreg hf Hdone.
  destruct (initExtensions_handler mApi exts sUIAPIs Hdone) as [Hloop Hfinal].
  pose proof (registerAll_collects exts (ContextProxyHandler.constructor ctx) Hloop) as Hreg.
  cbv zeta in Hreg. fold hreg in Hreg. simpl in Hreg.
  destruct Hreg as (_ & Hcalls & Hadds).
  subst hf. rewrite Hfinal. fold ctx. fold hreg.
  rewrite unloadIncompatible_calls, unloadIncompatible_additions, Hcalls, Hadds.
  auto.
Qed.

(** X3. The filter removes calls, never additions: whenever
    [initExtensions] returns, whatever an extension
    assigned on the proxy stays among the additions after [initExtensions]
    and counts towards the full capability set, also when the extension
    itself is dropped as incompatible, with all its calls. *)
Theorem additions_outlive_their_extension `{Host} (mApi : value)
  (exts : list ExtensionManager.IRegisteredExtension) (sUIAPIs : JsSet.t string)
  (A : ExtensionManager.IRegisteredExtension) (a : IApiAddition.t) :
  let ctx := {| api := mApi |} in
  let hf := fst (ExtensionManager.initExtensions mApi exts sUIAPIs) in
  snd (snd (ExtensionManager.initExtensions mApi exts sUIAPIs)) = None ->
  In A exts -> In a (contributed ctx A) ->
  ContextProxyHandler.mApiAdditions hf = flat_map (contributed ctx) exts
  /\ In a (ContextProxyHandler.mApiAdditions hf)
  /\ JsSet.has (ContextProxyHandler.fullAPI_of sUIAPIs hf) (IApiAddition.key a) = true.
Proof.
  intros ctx hf Hdone HA Ha.
  destruct (initExtensions_log mApi exts sUIAPIs Hdone) as (_ & _ & _ & Hadds).
  fold ctx in Hadds. fold hf in Hadds.
  assert (Hin : In a (ContextProxyHandler.mApiAdditions hf)).
  { rewrite Hadds. apply in_flat_map. eauto. }
  split; [exact Hadds |]. split; [exact Hin |].
  apply fullAPI_has. right. right. apply in_map. exact Hin.
Qed.

Lemma additions_outlive_their_extension_witness :
  let hf := fst (@ExtensionManager.initExtensions renderer (VObj 0) [dropped_adder; user] []) in
  map (fun c => (IInitCall.extension c, IInitCall.key c)) (ContextProxyHandler.mInitCalls hf) =
    [(Some "user", "registerWidget")]
  /\ In {| IApiAddition.key := "registerWidget"; IApiAddition.callback := VFun 1 |}
       (ContextProxyHandler.mApiAdditions hf)
  /\ @ContextProxyHandler.invokeAdditions renderer hf =
     ([EvCall (VFun 1) [VStr "clock"; VStr "/plugins/user"]], None).
Proof.
  cbv zeta. split; [reflexivity |]. split; [| reflexivity].
  refine (proj1 (proj2 (@additions_outlive_their_extension renderer (VObj 0)
    [dropped_adder; user] [] dropped_adder
    {| IApiAddition.key := "registerWidget"; IApiAddition.callback := VFun 1 |} _ _ _))).
  - reflexivity.
  - left. reflexivity.
  - vm_compute. left. reflexivity.
Defined.

(** X4. Extensions are told apart by name only.  When two extensions of a
    load that [initExtensions] gets through carry the same name and one of
    them records a non-optional call
    outside the full capability set, nothing the other recorded survives
    either. *)
Theorem same_name_same_fate `{Host} (mApi : value)
  (exts : list ExtensionManager.IRegisteredExtension) (sUIAPIs : JsSet.t string)
  (A B : ExtensionManager.IRegisteredExtension) (bad c : IInitCall.t) :
  let ctx := {| api := mApi |} in
  let hreg := fst (ExtensionManager.registerAll exts (ContextProxyHandler.constructor ctx)) in
  let hf := fst (ExtensionManager.initExtensions mApi exts sUIAPIs) in
  snd (snd (ExtensionManager.initExtensions mApi exts sUIAPIs)) = None ->
  In A exts -> In B exts ->
  ExtensionManager.name A = ExtensionManager.name B ->
  In bad (recorded ctx A) ->
  ContextProxyHandler.unsupported (ContextProxyHandler.fullAPI_of sUIAPIs hreg) bad = true ->
  In c (recorded ctx B) ->
  ~ In c (ContextProxyHandler.mInitCalls hf).
Proof.
  intros ctx hreg hf Hdone HA HB Hname Hbad Hu Hc Hin.
  destruct (initExtensions_log mApi exts sUIAPIs Hdone) as (Hcalls & _ & Hfinal & _).
  fold ctx in Hcalls, Hfinal. fold hreg in Hcalls, Hfinal. fold hf in Hfinal.
  rewrite Hfinal in Hin. apply filter_In in Hin as [_ Hkeep].
  apply negb_true_iff in Hkeep.
  assert (Hd : disqualified sUIAPIs hreg (IInitCall.extension c) = true).
  { unfold disqualified. apply existsb_exists. exists bad. split.
    - rewrite Hcalls. apply in_flat_map. eauto.
    - rewrite Hu, andb_true_r. apply bool_decide_eq_true.
      destruct (recorded_tagged ctx A bad Hbad) as [-> _].
      destruct (recorded_tagged ctx B c Hc) as [-> _].
      congruence. }
  congruence.
Qed.

Lemma same_name_same_fate_witness :
  ExtensionManager.name impostor = ExtensionManager.name category_management
  /\ length (@recorded renderer {| api := VObj 0 |} category_management) = 7
  /\ ~ In {| IInitCall.extension := Some "category_management";
            IInitCall.extensionPath := Some "/bundled/category_management";
            IInitCall.key := "once";
            IInitCall.arguments := [VFun 109];
            IInitCall.optional := false |}
         (ContextProxyHandler.mInitCalls
            (fst (@ExtensionManager.initExtensions renderer (VObj 0)
                    [category_management; good_plugin; impostor] []))).
Proof.
  split; [reflexivity |]. split; [reflexivity |].
  apply (@same_name_same_fate renderer (VObj 0)
           [category_management; good_plugin; impostor] [] impostor category_management
           {| IInitCall.extension := Some "category_management";
              IInitCall.extensionPath := Some "/plugins/category_management";
              IInitCall.key := "registerGizmo";
              IInitCall.arguments := [];
              IInitCall.optional := false |}).
  - reflexivity.
  - right. right. left. reflexivity.
  - left. reflexivity.
  - reflexivity.
  - vm_compute. left. reflexivity.
  - vm_compute. reflexivity.
  - vm_compute. do 6 right. left. reflexivity.
Defined.

Lemma filter_name_recorded `{Host} (ctx : context) (n : string)
  (exts : list ExtensionManager.IRegisteredExtension) :
  (forall q, In q exts -> ExtensionManager.name q <> n) ->
  List.filter (fun c => bool_decide (IInitCall.extension c = Some n))
    (flat_map (recorded ctx) exts) = [].
Proof.
  intros Hother. apply filter_none. intros c Hc.
  apply in_flat_map in Hc as (q & Hq & Hc).
  destruct (recorded_tagged ctx q c Hc) as [Hname _].
  apply bool_decide_eq_false. rewrite Hname. intros [= Heq].
  exact (Hother q Hq Heq).
Qed.

(** X5. Whenever [initExtensions] returns, an extension whose name no
    other extension of the load carries, and
    whose non-optional calls all name capabilities of the full set, has come
    through whole: the calls left in the log under its name
    are exactly the calls it recorded, in the order it recorded them,
    whatever the other extensions did. *)
Theorem compatible_extension_keeps_its_log `{Host} (mApi : value)
  (pre post : list ExtensionManager.IRegisteredExtension)
  (B : ExtensionManager.IRegisteredExtension) (sUIAPIs : JsSet.t string) :
  let ctx := {| api := mApi |} in
  let exts := pre ++ B :: post in
  let hf := fst (ExtensionManager.initExtensions mApi exts sUIAPIs) in
  snd (snd (ExtensionManager.initExtensions mApi exts sUIAPIs)) = None ->
  (forall q, In q (pre ++ post) -> ExtensionManager.name q <> ExtensionManager.name B) ->
  (forall c, In c (recorded ctx B) -> IInitCall.optional c = false ->
     In (IInitCall.key c) sUIAPIs
     \/ In (IInitCall.key c) ContextProxyHandler.staticAPIs
     \/ exists q a, In q exts /\ In a (contributed ctx q)
                    /\ IApiAddition.key a = IInitCall.key c) ->
  List.filter (fun c => bool_decide (IInitCall.extension c = Some (ExtensionManager.name B)))
    (ContextProxyHandler.mInitCalls hf) = recorded ctx B.
Proof.
  intros ctx exts hf Hdone Hother Hsup.
  destruct (initExtensions_log mApi exts sUIAPIs Hdone) as (Hcalls & Hadds & Hfinal & _).
  fold ctx in Hcalls, Hadds, Hfinal. fold hf in Hfinal.
  set (hreg := fst (ExtensionManager.registerAll exts (ContextProxyHandler.constructor ctx)))
    in *.
  assert (Hkeep : disqualified sUIAPIs hreg (Some (ExtensionManager.name B)) = false).
  { rewrite <- incompatible_has. apply JsSet_has_false. intros Hin.
    apply incompatible_iff in Hin as (c' & Hc' & Hext & Hu).
    apply unsupported_true in Hu as [Hopt Hhas].
    rewrite Hcalls in Hc'. apply in_flat_map in Hc' as (q & Hq & Hc').
    destruct (recorded_tagged ctx q c' Hc') as [Hname _].
    assert (HqB : q = B).
    { subst exts. apply in_app_iff in Hq as [Hq | [Hq | Hq]]; [| auto |].
      - exfalso. apply (Hother q); [apply in_app_iff; auto | congruence].
      - exfalso. apply (Hother q); [apply in_app_iff; auto | congruence]. }
    subst q.
    assert (Htrue : JsSet.has (ContextProxyHandler.fullAPI_of sUIAPIs hreg)
                      (IInitCall.key c') = true).
    { apply fullAPI_has. destruct (Hsup c' Hc' Hopt) as [Hui | [Hst | (q & a & Hq' & Ha & Hk)]];
        [auto | auto |].
      right. right. rewrite Hadds, <- Hk. apply in_map, in_flat_map. eauto. }
    congruence. }
  rewrite Hfinal, filter_filter_implied.
  - subst exts. rewrite flat_map_app. simpl. rewrite !List.filter_app.
    rewrite (filter_name_recorded ctx (ExtensionManager.name B) pre)
      by (intros q Hq; apply Hother, in_app_iff; auto).
    rewrite (filter_name_recorded ctx (ExtensionManager.name B) post)
      by (intros q Hq; apply Hother, in_app_iff; auto).
    rewrite app_nil_r. simpl. apply filter_all_true. intros c Hc.
    apply bool_decide_eq_true. apply (recorded_tagged ctx B c Hc).
  - intros c Hc. apply bool_decide_eq_true in Hc. rewrite Hc, Hkeep. reflexivity.
Qed.

Lemma compatible_extension_keeps_its_log_witness :
  map IInitCall.key
    (List.filter (fun c => bool_decide (IInitCall.extension c = Some "category_management"))
       (ContextProxyHandler.mInitCalls
          (fst (@ExtensionManager.initExtensions renderer (VObj 0)
                  ([legacy_plugin] ++ category_management :: [faulty]) [])))) =
  [ "registerDialog"; "registerAction"; "registerReducer"; "registerReducer";
    "registerTableAttribute"; "registerTableAttribute"; "once" ].
Proof.
  assert (Hother : forall q, In q ([legacy_plugin] ++ [faulty]) ->
            ExtensionManager.name q <> ExtensionManager.name category_management).
  { intros q [<- | [<- | []]]; discriminate. }
  assert (Hsup : forall c, In c (@recorded renderer {| api := VObj 0 |} category_management) ->
            IInitCall.optional c = false ->
            In (IInitCall.key c) []
            \/ In (IInitCall.key c) ContextProxyHandler.staticAPIs
            \/ exists q a, In q ([legacy_plugin] ++ category_management :: [faulty])
                           /\ In a (@contributed renderer {| api := VObj 0 |} q)
                           /\ IApiAddition.key a = IInitCall.key c).
  { intros c Hc Hopt. right. left. vm_compute in Hc.
    repeat (destruct Hc as [<- | Hc]; [vm_compute; tauto |]). destruct Hc. }
  pose proof (@compatible_extension_keeps_its_log renderer (VObj 0)
                [legacy_plugin] [faulty] category_management [] eq_refl Hother Hsup) as Hthm.
  cbv zeta in Hthm.
  etransitivity; [apply (f_equal (map IInitCall.key)); exact Hthm | reflexivity].
Defined.

(** ** Replaying the log: reducers and start-up callbacks *)

Lemma forEach_with_collect {A B : Type} (g : A -> B) (l : list A) (s : list B) :
  ExtensionManager.forEach_with (fun x acc => (acc ++ [g x], None)) l s =
  (s ++ map g l, None).
Proof.
  revert s. induction l as [| x l IH]; intros s; simpl.
  - rewrite app_nil_r. reflexivity.
  - rewrite IH, <- app_assoc. reflexivity.
Qed.

Lemma filter_filter_and {A : Type} (f g : A -> bool) (l : list A) :
  List.filter f (List.filter g l) = List.filter (fun x => g x && f x) l.
Proof.
  induction l as [| x l IH]; simpl; [reflexivity |].
  destruct (g x); simpl; [destruct (f x) |]; rewrite ?IH; reflexivity.
Qed.

(** X6. [getReducers] never throws and returns one entry per
    [registerReducer] call in the log, optional or not, in the order the
    calls were recorded; an entry holds the first two arguments of the call,
    [undefined] in place of a missing one.  After an [initExtensions] that
    has returned these are the [registerReducer] calls of the extensions
    that were not dropped. *)
Theorem getReducers_of_log `{Host} :
  (forall h : ContextProxyHandler.t,
     ExtensionManager.getReducers h =
     (map reducer_of
        (List.filter (fun c => String.eqb (IInitCall.key c) "registerReducer")
           (ContextProxyHandler.mInitCalls h)), None))
  /\ (forall (mApi : value) (exts : list ExtensionManager.IRegisteredExtension)
        (sUIAPIs : JsSet.t string),
        let ctx := {| api := mApi |} in
        let hreg := fst (ExtensionManager.registerAll exts
                           (ContextProxyHandler.constructor ctx)) in
        snd (snd (ExtensionManager.initExtensions mApi exts sUIAPIs)) = None ->
        ExtensionManager.getReducers
          (fst (ExtensionManager.initExtensions mApi exts sUIAPIs)) =
        (map reducer_of
           (List.filter
              (fun c => negb (disqualified sUIAPIs hreg (IInitCall.extension c))
                        && String.eqb (IInitCall.key c) "registerReducer")
              (flat_map (recorded ctx) exts)), None)).
Proof.
  assert (Hfirst : forall h : ContextProxyHandler.t,
     ExtensionManager.getReducers h =
     (map reducer_of
        (List.filter (fun c => String.eqb (IInitCall.key c) "registerReducer")
           (ContextProxyHandler.mInitCalls h)), None)).
  { intros h. unfold ExtensionManager.getReducers, ExtensionManager.apply,
      ContextProxyHandler.getCalls.
    apply (forEach_with_collect reducer_of). }
  split; [exact Hfirst |].
  intros mApi exts sUIAPIs ctx hreg Hdone. rewrite Hfirst.
  destruct (initExtensions_log mApi exts sUIAPIs Hdone) as (_ & _ & Hfinal & _).
  fold ctx in Hfinal. fold hreg in Hfinal.
  rewrite Hfinal, filter_filter_and. reflexivity.
Qed.

Lemma getReducers_of_log_witness :
  ExtensionManager.getReducers
    (fst (@ExtensionManager.initExtensions renderer (VObj 0)
            [legacy_plugin; category_management; faulty] [])) =
  ([ {| ExtensionManager.reducer_path := VObj 103; ExtensionManager.reducer := VFun 104 |};
     {| ExtensionManager.reducer_path := VObj 105; ExtensionManager.reducer := VFun 106 |} ],
   None).
Proof.
  refine (eq_trans
    (proj2 (@getReducers_of_log renderer) (VObj 0)
       [legacy_plugin; category_management; faulty] [] eq_refl) _).
  vm_compute. reflexivity.
Defined.

(** One round of the loop of [doOnce]. *)
Lemma doOnce_round `{Host} (c : IInitCall.t) :
  let round :=
    try_catch (call_value "0" (once_callback c) [])
      (fun err =>
         catch_and_log err (fun m s =>
           log Warn "failed to call once" [("err", m); ("stack", s)])) in
  List.filter is_call (fst round) =
    (if is_function (once_callback c) then [EvCall (once_callback c) []] else [])
  /\ (throws_nullish "0" (once_callback c) [] = true -> snd round <> None)
  /\ (throws_nullish "0" (once_callback c) [] = false ->
      snd round = None
      /\ length (List.filter is_warning (fst round)) = if once_fails c then 1 else 0).
Proof.
  cbv zeta. unfold throws_nullish, once_fails, try_catch.
  destruct (once_callback c) as [| | b | n | s | r | r]; simpl;
    try (destruct (type_error "0") as [m st | |]; simpl;
         (split; [reflexivity |]); split; intros Hn; try discriminate Hn;
         try (split; reflexivity); discriminate).
  destruct (call_function r []) as [[m st | |] |]; simpl;
    (split; [reflexivity |]); split; intros Hn; try discriminate Hn;
    try (split; reflexivity); discriminate.
Qed.

Lemma doOnce_loop `{Host} (calls : list IInitCall.t) :
  let loop :=
    forEach (fun call =>
      try_catch (call_value "0" (nth 0 (IInitCall.arguments call) VUndefined) [])
        (fun err =>
           catch_and_log err (fun m s =>
             log Warn "failed to call once" [("err", m); ("stack", s)]))) calls in
  ((forall c, In c calls -> throws_nullish "0" (once_callback c) [] = false) ->
   snd loop = None
   /\ List.filter is_call (fst loop) =
      map (fun c => EvCall (once_callback c) [])
        (List.filter (fun c => is_function (once_callback c)) calls)
   /\ length (List.filter is_warning (fst loop)) = length (List.filter once_fails calls))
  /\ (forall pre c post, calls = pre ++ c :: post ->
        (forall c', In c' pre -> throws_nullish "0" (once_callback c') [] = false) ->
        throws_nullish "0" (once_callback c) [] = true ->
        snd loop <> None
        /\ List.filter is_call (fst loop) =
           map (fun c => EvCall (once_callback c) [])
             (List.filter (fun c => is_function (once_callback c)) (pre ++ [c]))).
Proof.
  cbv zeta. induction calls as [| c0 calls [IHok IHbad]]; simpl.
  - split; [intros _; repeat split |].
    intros pre c post Heq. destruct pre; discriminate Heq.
  - pose proof (doOnce_round c0) as Hround. cbv zeta in Hround.
    fold (once_callback c0). destruct Hround as (Hcalls & Hnull & Hfine).
    destruct (try_catch (call_value "0" (once_callback c0) []) _) as [evs r] eqn:Eround.
    simpl in Hcalls, Hnull, Hfine. split.
    + intros Hall. destruct (Hfine (Hall c0 (or_introl eq_refl))) as [-> Hwarn].
      destruct IHok as (IH1 & IH2 & IH3); [intros c' Hc'; apply Hall; right; exact Hc' |].
      destruct (forEach _ calls) as [evs' r']. simpl in *.
      split; [exact IH1 |].
      rewrite !List.filter_app, length_app, Hcalls, IH2, Hwarn, IH3.
      destruct (is_function (once_callback c0)), (once_fails c0); split; reflexivity.
    + intros pre c post Heq Hpre Hc. destruct pre as [| c1 pre]; simpl in Heq.
      * injection Heq as -> ->. specialize (Hnull Hc).
        destruct r as [e |]; [| congruence]. simpl. split; [discriminate |].
        rewrite Hcalls. destruct (is_function (once_callback c)); reflexivity.
      * injection Heq as -> ->.
        destruct (Hfine (Hpre c1 (or_introl eq_refl))) as [-> _].
        destruct (IHbad pre c post eq_refl
                    (fun c' Hc' => Hpre c' (or_intror Hc')) Hc) as [IH1 IH2].
        destruct (forEach _ (pre ++ c :: post)) as [evs' r']. simpl in *.
        split; [exact IH1 |].
        rewrite List.filter_app, Hcalls, IH2.
        destruct (is_function (once_callback c1)); reflexivity.
Qed.

(** X7. [doOnce] goes through the recorded calls of [once] in the renderer
    and of [onceMain] in the main process, in the order they were recorded.
    As long as no callback throws [null] or [undefined] it does not throw:
    it calls the first argument of each call that is a function, with no
    arguments, exactly once, whether or not an earlier callback failed, and
    logs one warning for each call whose callback throws or is not a
    function (as when [once] was called with no argument).  The first
    callback that throws [null] or [undefined] ends it: [doOnce] throws, and
    has called the callbacks up to that one and none after it. *)
Theorem doOnce_runs_every_callback `{Host} (h : ContextProxyHandler.t) :
  let calls :=
    List.filter (fun c =>
      String.eqb (IInitCall.key c) (if remote_defined then "once" else "onceMain"))
      (ContextProxyHandler.mInitCalls h) in
  ((forall c, In c calls -> throws_nullish "0" (once_callback c) [] = false) ->
   snd (ExtensionManager.doOnce h) = None
   /\ List.filter is_call (fst (ExtensionManager.doOnce h)) =
      map (fun c => EvCall (once_callback c) [])
        (List.filter (fun c => is_function (once_callback c)) calls)
   /\ length (List.filter is_warning (fst (ExtensionManager.doOnce h))) =
      length (List.filter once_fails calls))
  /\ (forall pre c post, calls = pre ++ c :: post ->
        (forall c', In c' pre -> throws_nullish "0" (once_callback c') [] = false) ->
        throws_nullish "0" (once_callback c) [] = true ->
        snd (ExtensionManager.doOnce h) <> None
        /\ List.filter is_call (fst (ExtensionManager.doOnce h)) =
           map (fun c => EvCall (once_callback c) [])
             (List.filter (fun c => is_function (once_callback c)) (pre ++ [c]))).
Proof.
  intros calls. unfold ExtensionManager.doOnce, ContextProxyHandler.getCalls.
  fold calls. apply (doOnce_loop calls).
Qed.

Lemma doOnce_runs_every_callback_witness :
  let h := fst (@ExtensionManager.initExtensions renderer (VObj 0) [starter] []) in
  snd (@ExtensionManager.doOnce renderer h) = None
  /\ List.filter is_call (fst (@ExtensionManager.doOnce renderer h)) =
     [EvCall (VFun 13) []; EvCall (VFun 5) []]
  /\ length (List.filter is_warning (fst (@ExtensionManager.doOnce renderer h))) = 2.
Proof.
  cbv zeta.
  apply (proj1 (@doOnce_runs_every_callback renderer
                  (fst (@ExtensionManager.initExtensions renderer (VObj 0) [starter] [])))).
  intros c Hc. vm_compute in Hc.
  destruct Hc as [<- | [<- | [<- | []]]]; reflexivity.
Defined.

(** ** Plain objects, protocol handlers *)

Section PlainFacts.
Context `{Host}.

(** On an object whose prototype is [Object.prototype], assigning under any
    key but [__proto__] stores an own property and does not throw. *)
Lemma plain_set_own (o : plain) (k : string) (v : value) :
  proto o = object_prototype -> k <> "__proto__" ->
  plain_set o k v = ({| own := <[k := v]> (own o); proto := proto o |}, None).
Proof.
  intros Hproto Hk. unfold plain_set.
  destruct (own o !! k); [reflexivity |].
  unfold chain. rewrite Hproto, bool_decide_eq_true_2 by reflexivity.
  apply String.eqb_neq in Hk. rewrite Hk.
  destruct (bool_decide (k ∈ Object_prototype_names)); reflexivity.
Qed.

Lemma plain_get_own (o : plain) (k : string) (v : value) :
  own o !! k = Some v -> plain_get o k = v.
Proof. intros Hv. unfold plain_get. rewrite Hv. reflexivity. Qed.

(** What is read under a key that is neither an own property nor a name of
    [Object.prototype] is [undefined]. *)
Lemma plain_get_absent (o : plain) (k : string) :
  proto o = object_prototype -> own o !! k = None ->
  ~ In k Object_prototype_names -> plain_get o k = VUndefined.
Proof.
  intros Hproto Hown Hplain. unfold plain_get, chain.
  rewrite Hown, Hproto, bool_decide_eq_true_2 by reflexivity.
  destruct (String.eqb k "__proto__") eqn:E.
  - apply String.eqb_eq in E. subst k. exfalso. apply Hplain.
    unfold Object_prototype_names. simpl. tauto.
  - rewrite bool_decide_eq_false_2; [reflexivity |].
    rewrite list_elem_of_In. exact Hplain.
Qed.

End PlainFacts.

(** X8. On a handler table whose prototype is still [Object.prototype] and
    for a protocol name other than [__proto__], [registerProtocol] does not
    throw and leaves the prototype alone; [getProtocolHandler] then gives
    the callback back (or [null] for a falsy one) and answers for other
    protocols as before; registering the protocol again replaces its
    callback.  [deregisterProtocol] only asks electron to drop the
    association: it leaves the table as it is, so [getProtocolHandler] keeps
    answering with the callback.  Registering under [__proto__] on the
    fresh table stores no handler: the callback, a function, becomes the
    prototype of the table. *)
Theorem protocol_handlers_round_trip `{Host} `{Node} (m : plain)
  (p p' : string) (cb cb' : value) :
  proto m = object_prototype -> p <> "__proto__" ->
  let m1 := fst (ExtensionManager.registerProtocol p cb m) in
  snd (snd (ExtensionManager.registerProtocol p cb m)) = None
  /\ proto m1 = object_prototype
  /\ ExtensionManager.getProtocolHandler m1 p' =
     (if decide (p = p') then (if truthy cb then cb else VNull)
      else ExtensionManager.getProtocolHandler m p')
  /\ fst (ExtensionManager.registerProtocol p cb' m1) =
     fst (ExtensionManager.registerProtocol p cb' m)
  /\ ExtensionManager.getProtocolHandler
       (fst (ExtensionManager.deregisterProtocol p m1)) p' =
     ExtensionManager.getProtocolHandler m1 p'
  /\ forall r, fst (ExtensionManager.registerProtocol "__proto__" (VFun r) plain_empty) =
               {| own := ∅; proto := VFun r |}.
Proof.
  intros Hproto Hp m1. subst m1.
  unfold ExtensionManager.registerProtocol, ExtensionManager.getProtocolHandler.
  rewrite (plain_set_own m p cb Hproto Hp). simpl.
  rewrite (plain_set_own _ p cb') by (simpl; assumption).
  rewrite (plain_set_own m p cb' Hproto Hp). simpl.
  split; [reflexivity |]. split; [exact Hproto |]. split; [| split; [| split]].
  - unfold plain_get. simpl. destruct (decide (p = p')) as [<- | Hne].
    + rewrite lookup_insert_eq. reflexivity.
    + rewrite lookup_insert_ne by exact Hne. reflexivity.
  - rewrite insert_insert_eq. reflexivity.
  - reflexivity.
  - intros r. unfold plain_set, plain_empty, chain. simpl.
    rewrite lookup_empty, bool_decide_eq_true_2 by reflexivity. reflexivity.
Qed.

Lemma protocol_handlers_round_trip_witness :
  @ExtensionManager.getProtocolHandler renderer
    (fst (@ExtensionManager.registerProtocol renderer dev_windows "nxm" (VFun 7)
            (@plain_empty renderer))) "nxm" = VFun 7
  /\ @ExtensionManager.getProtocolHandler renderer
       (fst (@ExtensionManager.registerProtocol renderer dev_windows "nxm" (VFun 7)
               (@plain_empty renderer))) "http" = VNull.
Proof.
  split.
  - refine (eq_trans (proj1 (proj2 (proj2
      (@protocol_handlers_round_trip renderer dev_windows (@plain_empty renderer)
         "nxm" "nxm" (VFun 7) (VFun 8) _ _)))) _); [reflexivity | discriminate | reflexivity].
  - refine (eq_trans (proj1 (proj2 (proj2
      (@protocol_handlers_round_trip renderer dev_windows (@plain_empty renderer)
         "nxm" "http" (VFun 7) (VFun 8) _ _)))) _); [reflexivity | discriminate | reflexivity].
Defined.

(** A protocol nobody registered is answered with what the table inherits
    under its name, not with [null]. *)
Example inherited_protocol_handler :
  @ExtensionManager.getProtocolHandler renderer (@plain_empty renderer) "constructor" =
  @builtin renderer "constructor".
Proof. reflexivity. Qed.

(** ** Archive handlers *)

Section ArchiveFacts.
Context `{Host} `{Node}.

Lemma archive_table_build (calls : list IInitCall.t) (m : plain) :
  proto m = object_prototype ->
  (forall c, In c calls ->
     property_key (nth 0 (IInitCall.arguments c) VUndefined) <> "__proto__") ->
  let built :=
    ExtensionManager.forEach_with
      (fun call => ExtensionManager.registerArchiveHandler (IInitCall.arguments call))
      calls m in
  snd built = None
  /\ proto (fst built) = object_prototype
  /\ forall ext,
       own (fst built) !! ext =
       match last (List.filter (fun c =>
                String.eqb (property_key (nth 0 (IInitCall.arguments c) VUndefined)) ext)
                calls) with
       | Some c => Some (nth 1 (IInitCall.arguments c) VUndefined)
       | None => own m !! ext
       end.
Proof.
  revert m. induction calls as [| c calls IH]; intros m Hproto Hkeys; simpl.
  - auto.
  - set (k := property_key (nth 0 (IInitCall.arguments c) VUndefined)).
    set (v := nth 1 (IInitCall.arguments c) VUndefined).
    assert (Hstep : ExtensionManager.registerArchiveHandler (IInitCall.arguments c) m =
                    ({| own := <[k := v]> (own m); proto := proto m |}, None)).
    { unfold ExtensionManager.registerArchiveHandler. fold k v.
      apply (plain_set_own m k v Hproto (Hkeys c (or_introl eq_refl))). }
    rewrite Hstep.
    destruct (IH {| own := <[k := v]> (own m); proto := proto m |} Hproto
                 (fun c' Hc' => Hkeys c' (or_intror Hc'))) as (IH1 & IH2 & IH3).
    split; [exact IH1 |]. split; [exact IH2 |]. intros ext. rewrite IH3.
    cbn [own]. fold k.
    destruct (String.eqb k ext) eqn:E.
    + rewrite last_cons.
      destruct (last (List.filter _ calls)); [reflexivity |].
      apply String.eqb_eq in E. rewrite E. apply lookup_insert_eq.
    + destruct (last (List.filter _ calls)); [reflexivity |].
      apply String.eqb_neq in E. apply lookup_insert_ne. exact E.
Qed.

(** When no recorded call registers a handler under [__proto__], building
    the table does not throw, leaves the prototype alone, and stores under
    each key the handler of the last registration naming it. *)
Lemma archive_table (h : ContextProxyHandler.t) :
  archive_registrations h "__proto__" = [] ->
  let built :=
    ExtensionManager.apply h "registerArchiveType"
      ExtensionManager.registerArchiveHandler plain_empty in
  snd built = None
  /\ proto (fst built) = object_prototype
  /\ forall ext,
       own (fst built) !! ext =
       (fun c => nth 1 (IInitCall.arguments c) VUndefined) <$>
       last (archive_registrations h ext).
Proof.
  intros Hnone. unfold ExtensionManager.apply, ContextProxyHandler.getCalls.
  destruct (archive_table_build
              (List.filter (fun call => String.eqb (IInitCall.key call) "registerArchiveType")
                 (ContextProxyHandler.mInitCalls h))
              plain_empty eq_refl) as (H1 & H2 & H3).
  - intros c Hc Hkey. unfold archive_registrations in Hnone.
    assert (Hin : In c (List.filter (fun c0 =>
      String.eqb (property_key (nth 0 (IInitCall.arguments c0) VUndefined)) "__proto__")
      (List.filter (fun c0 => String.eqb (IInitCall.key c0) "registerArchiveType")
         (ContextProxyHandler.mInitCalls h)))).
    { apply filter_In. split; [exact Hc | apply String.eqb_eq; exact Hkey]. }
    rewrite Hnone in Hin. destruct Hin.
  - split; [exact H1 |]. split; [exact H2 |]. intros ext. rewrite H3.
    unfold archive_registrations. simpl. rewrite lookup_empty.
    destruct (last _); reflexivity.
Qed.

End ArchiveFacts.

(** X9. In a log without a [registerArchiveType] call for the key
    [__proto__], opening an archive whose extension no recorded
    [registerArchiveType] call names and which is not a name of
    [Object.prototype] is rejected with an error whose message is
    ["unsupported archive format "] followed by the extension without its
    dot; no creator is called. *)
Theorem openArchive_unsupported_format `{Host} `{Node} (h : ContextProxyHandler.t)
  (archivePath : string) :
  let ext := substr1 (extname archivePath) in
  archive_registrations h "__proto__" = [] ->
  archive_registrations h ext = [] ->
  ~ In ext Object_prototype_names ->
  snd (ExtensionManager.openArchive h None archivePath) =
    ArchiveRejected (new_Error ("unsupported archive format " ++ ext))
  /\ snd (fst (ExtensionManager.openArchive h None archivePath)) = [].
Proof.
  intros ext Hproto Hnone Hplain. unfold ExtensionManager.openArchive. fold ext.
  destruct (archive_table h Hproto) as (Hbuilt & Hp & Hown).
  destruct (ExtensionManager.apply h "registerArchiveType" _ _) as [handlers built].
  simpl in Hbuilt, Hp, Hown. subst built.
  rewrite (plain_get_absent handlers ext Hp); [auto | | exact Hplain].
  rewrite Hown, Hnone. reflexivity.
Qed.

Lemma openArchive_unsupported_format_witness :
  snd (@ExtensionManager.openArchive renderer dev_windows
         (fst (@ExtensionManager.initExtensions renderer (VObj 0) [archiver] []))
         None "C:\mods\armor.rar") =
  ArchiveRejected
    (error_object "unsupported archive format rar" "Error: unsupported archive format rar").
Proof.
  refine (proj1 (@openArchive_unsupported_format renderer dev_windows
    (fst (@ExtensionManager.initExtensions renderer (VObj 0) [archiver] []))
    "C:\mods\armor.rar" _ _ _)).
  - reflexivity.
  - reflexivity.
  - vm_compute. intuition discriminate.
Defined.

(** X10. The table of archive handlers is built at the first [openArchive]
    from the log as it is then, and kept: in a log without a
    [registerArchiveType] call for the key [__proto__], the handler for an
    extension is the second argument of the last recorded
    [registerArchiveType] call naming it.  When that is a function,
    [openArchive] calls it, and only it, with the path, and the outcome is
    that of the creator.  Later calls use the table that was built, whatever
    the log holds by then. *)
Theorem openArchive_last_registration_wins `{Host} `{Node} (h : ContextProxyHandler.t)
  (archivePath : string) (c : IInitCall.t) (r : nat) :
  let ext := substr1 (extname archivePath) in
  let first := ExtensionManager.openArchive h None archivePath in
  archive_registrations h "__proto__" = [] ->
  last (archive_registrations h ext) = Some c ->
  nth 1 (IInitCall.arguments c) VUndefined = VFun r ->
  snd (fst first) = [(VFun r, archivePath)]
  /\ snd first = create_archive r archivePath
  /\ (exists table, fst (fst first) = Some table
       /\ forall (h' : ContextProxyHandler.t) (p : string),
            ExtensionManager.openArchive h' (Some table) p =
            ExtensionManager.openArchive h (Some table) p
            /\ fst (fst (ExtensionManager.openArchive h' (Some table) p)) = Some table).
Proof.
  intros ext first Hproto Hlast Hfun. subst first.
  unfold ExtensionManager.openArchive at 1 2 3. fold ext.
  destruct (archive_table h Hproto) as (Hbuilt & Hp & Hown).
  destruct (ExtensionManager.apply h "registerArchiveType" _ _) as [handlers built].
  simpl in Hbuilt, Hp, Hown. subst built.
  rewrite (plain_get_own handlers ext (VFun r))
    by (rewrite Hown, Hlast; simpl; rewrite Hfun; reflexivity).
  simpl. split; [reflexivity |]. split; [reflexivity |].
  eexists. split; [reflexivity |]. intros h' p. split; [reflexivity |].
  unfold ExtensionManager.openArchive.
  destruct (plain_get handlers (substr1 (extname p))); reflexivity.
Qed.

Lemma openArchive_last_registration_wins_witness :
  let h := fst (@ExtensionManager.initExtensions renderer (VObj 0) [archiver] []) in
  snd (fst (@ExtensionManager.openArchive renderer dev_windows h None "C:\mods\armor.zip")) =
    [(VFun 22, "C:\mods\armor.zip")]
  /\ snd (@ExtensionManager.openArchive renderer dev_windows h None "C:\mods\armor.zip") =
     ArchiveOpened (VObj 1022).
Proof.
  cbv zeta.
  destruct (@openArchive_last_registration_wins renderer dev_windows
    (fst (@ExtensionManager.initExtensions renderer (VObj 0) [archiver] []))
    "C:\mods\armor.zip"
    {| IInitCall.extension := Some "archiver";
       IInitCall.extensionPath := Some "/plugins/archiver";
       IInitCall.key := "registerArchiveType";
       IInitCall.arguments := [VStr "zip"; VFun 22];
       IInitCall.optional := false |} 22 eq_refl eq_refl eq_refl) as (Hcalls & Hout & _).
  split; [exact Hcalls | exact Hout].
Defined.

(** ** More on the broker *)

Section AcquireFacts.
Context `{Host}.

Lemma stale_unchanged (a : ExtensionManager.acquisition) (b : ExtensionManager.broker)
  (db : nat) :
  ExtensionManager.mModDB b = Some db ->
  ExtensionManager.currentGame a = ExtensionManager.mModDBGame b ->
  ExtensionManager.currentKey a = ExtensionManager.mModDBAPIKey b ->
  ExtensionManager.stale a b = false.
Proof.
  intros Hdb Hg Hk. unfold ExtensionManager.stale, strict_eq.
  rewrite Hdb, !bool_decide_eq_true_2 by assumption. reflexivity.
Qed.

Lemma stale_without_instance (a : ExtensionManager.acquisition)
  (b : ExtensionManager.broker) :
  ExtensionManager.mModDB b = None -> ExtensionManager.stale a b = true.
Proof. intros Hdb. unfold ExtensionManager.stale. rewrite Hdb. reflexivity. Qed.

Lemma acquire_unchanged (st : ExtensionManager.store_state) (b : ExtensionManager.broker)
  (w : ExtensionManager.metadb) (db : nat) :
  ExtensionManager.mModDB b = Some db ->
  ExtensionManager.mModDBPromise b = Some ExtensionManager.Resolved ->
  ExtensionManager.activeGameId st = ExtensionManager.mModDBGame b ->
  ExtensionManager.APIKey st = ExtensionManager.mModDBAPIKey b ->
  acquire st b w =
  {| ExtensionManager.call :=
       {| ExtensionManager.currentGame := ExtensionManager.activeGameId st;
          ExtensionManager.currentKey := ExtensionManager.APIKey st;
          ExtensionManager.onDone := false;
          ExtensionManager.at_stage := ExtensionManager.Settled (inl db) |};
     ExtensionManager.this := b;
     ExtensionManager.modmeta := w;
     ExtensionManager.emitted := [] |}.
Proof.
  intros Hdb Hgate Hg Hk. unfold acquire.
  destruct b as [db' gate g k]. destruct st as [game key]. simpl in *. subst.
  cbn. rewrite (stale_unchanged _ _ db) by reflexivity. reflexivity.
Qed.

Lemma acquire_rotated (st : ExtensionManager.store_state) (b : ExtensionManager.broker)
  (w : ExtensionManager.metadb) (old : nat) :
  ExtensionManager.mModDB b = Some old ->
  ExtensionManager.mModDBPromise b = Some ExtensionManager.Resolved ->
  ExtensionManager.activeGameId st <> ExtensionManager.mModDBGame b
  \/ ExtensionManager.APIKey st <> ExtensionManager.mModDBAPIKey b ->
  ExtensionManager.open_dbs w = [old] ->
  acquire st b w =
  match close_db old with
  | Some e =>
      {| ExtensionManager.call :=
           {| ExtensionManager.currentGame := ExtensionManager.activeGameId st;
              ExtensionManager.currentKey := ExtensionManager.APIKey st;
              ExtensionManager.onDone := false;
              ExtensionManager.at_stage := ExtensionManager.Settled (inr e) |};
         ExtensionManager.this := b;
         ExtensionManager.modmeta := w;
         ExtensionManager.emitted := [EvClose old] |}
  | None =>
      match new_db (ExtensionManager.activeGameId st) (ExtensionManager.APIKey st) with
      | Some e =>
          {| ExtensionManager.call :=
               {| ExtensionManager.currentGame := ExtensionManager.activeGameId st;
                  ExtensionManager.currentKey := ExtensionManager.APIKey st;
                  ExtensionManager.onDone := false;
                  ExtensionManager.at_stage := ExtensionManager.Settled (inr e) |};
             ExtensionManager.this :=
               {| ExtensionManager.mModDB := None;
                  ExtensionManager.mModDBPromise := Some ExtensionManager.Resolved;
                  ExtensionManager.mModDBGame := ExtensionManager.mModDBGame b;
                  ExtensionManager.mModDBAPIKey := ExtensionManager.mModDBAPIKey b |};
             ExtensionManager.modmeta :=
               {| ExtensionManager.open_dbs := [];
                  ExtensionManager.next_db := ExtensionManager.next_db w |};
             ExtensionManager.emitted := [EvClose old] |}
      | None =>
          {| ExtensionManager.call :=
               {| ExtensionManager.currentGame := ExtensionManager.activeGameId st;
                  ExtensionManager.currentKey := ExtensionManager.APIKey st;
                  ExtensionManager.onDone := false;
                  ExtensionManager.at_stage :=
                    ExtensionManager.Settled (inl (ExtensionManager.next_db w)) |};
             ExtensionManager.this :=
               {| ExtensionManager.mModDB := Some (ExtensionManager.next_db w);
                  ExtensionManager.mModDBPromise := Some ExtensionManager.Resolved;
                  ExtensionManager.mModDBGame := ExtensionManager.activeGameId st;
                  ExtensionManager.mModDBAPIKey := ExtensionManager.APIKey st |};
             ExtensionManager.modmeta :=
               {| ExtensionManager.open_dbs := [ExtensionManager.next_db w];
                  ExtensionManager.next_db := S (ExtensionManager.next_db w) |};
             ExtensionManager.emitted :=
               [EvClose old;
                EvNew (ExtensionManager.next_db w) (ExtensionManager.activeGameId st)
                  (ExtensionManager.APIKey st)] ++ log Debug "initialised" [] |}
      end
  end.
Proof.
  intros Hdb Hgate Hdiff Hopen. unfold acquire.
  destruct b as [db' gate g k]. destruct w as [opens next]. destruct st as [game key].
  simpl in *. subst.
  cbn. rewrite stale_rotated by exact Hdiff. cbn. rewrite Nat.eqb_refl.
  destruct (close_db old); cbn; [reflexivity |].
  destruct (new_db game key); reflexivity.
Qed.

Lemma acquire_without_instance (st : ExtensionManager.store_state)
  (b : ExtensionManager.broker) (w : ExtensionManager.metadb) :
  ExtensionManager.mModDB b = None ->
  ExtensionManager.mModDBPromise b <> Some ExtensionManager.Pending ->
  acquire st b w =
  match new_db (ExtensionManager.activeGameId st) (ExtensionManager.APIKey st) with
  | Some e =>
      {| ExtensionManager.call :=
           {| ExtensionManager.currentGame := ExtensionManager.activeGameId st;
              ExtensionManager.currentKey := ExtensionManager.APIKey st;
              ExtensionManager.onDone :=
                match ExtensionManager.mModDBPromise b with None => true | Some _ => false end;
              ExtensionManager.at_stage := ExtensionManager.Settled (inr e) |};
         ExtensionManager.this :=
           {| ExtensionManager.mModDB := None;
              ExtensionManager.mModDBPromise := Some ExtensionManager.Resolved;
              ExtensionManager.mModDBGame := ExtensionManager.mModDBGame b;
              ExtensionManager.mModDBAPIKey := ExtensionManager.mModDBAPIKey b |};
         ExtensionManager.modmeta := w;
         ExtensionManager.emitted := [] |}
  | None =>
      {| ExtensionManager.call :=
           {| ExtensionManager.currentGame := ExtensionManager.activeGameId st;
              ExtensionManager.currentKey := ExtensionManager.APIKey st;
              ExtensionManager.onDone :=
                match ExtensionManager.mModDBPromise b with None => true | Some _ => false end;
              ExtensionManager.at_stage :=
                ExtensionManager.Settled (inl (ExtensionManager.next_db w)) |};
         ExtensionManager.this :=
           {| ExtensionManager.mModDB := Some (ExtensionManager.next_db w);
              ExtensionManager.mModDBPromise := Some ExtensionManager.Resolved;
              ExtensionManager.mModDBGame := ExtensionManager.activeGameId st;
              ExtensionManager.mModDBAPIKey := ExtensionManager.APIKey st |};
         ExtensionManager.modmeta :=
           {| ExtensionManager.open_dbs :=
                ExtensionManager.open_dbs w ++ [ExtensionManager.next_db w];
              ExtensionManager.next_db := S (ExtensionManager.next_db w) |};
         ExtensionManager.emitted :=
           [EvNew (ExtensionManager.next_db w) (ExtensionManager.activeGameId st)
              (ExtensionManager.APIKey st)] ++ log Debug "initialised" [] |}
  end.
Proof.
  intros Hdb Hgate. unfold acquire.
  destruct b as [db' gate g k]. destruct w as [opens next]. destruct st as [game key].
  simpl in *. subst.
  destruct gate as [[|] |]; [congruence | |]; cbn;
    rewrite ?stale_without_instance by reflexivity; cbn;
    destruct (new_db game key); reflexivity.
Qed.

End AcquireFacts.

(** X11. While the active game and the API key stay what they were when
    the instance was made, [getModDB] resolves to the instance the broker
    holds: nothing is closed, nothing is constructed, and the broker and the
    stores are left as they were. *)
Theorem unchanged_context_reuses_instance `{Host} (st : ExtensionManager.store_state)
  (b : ExtensionManager.broker) (w : ExtensionManager.metadb) (db : nat) :
  ExtensionManager.mModDB b = Some db ->
  ExtensionManager.mModDBPromise b = Some ExtensionManager.Resolved ->
  ExtensionManager.activeGameId st = ExtensionManager.mModDBGame b ->
  ExtensionManager.APIKey st = ExtensionManager.mModDBAPIKey b ->
  let c := acquire st b w in
  ExtensionManager.at_stage (ExtensionManager.call c) = ExtensionManager.Settled (inl db)
  /\ ExtensionManager.emitted c = []
  /\ ExtensionManager.this c = b
  /\ ExtensionManager.modmeta c = w.
Proof.
  intros Hdb Hgate Hg Hk c. subst c.
  rewrite (acquire_unchanged st b w db Hdb Hgate Hg Hk). auto.
Qed.

Lemma unchanged_context_reuses_instance_witness :
  let c := @acquire renderer store_skyrim broker_skyrim world_skyrim in
  ExtensionManager.at_stage (ExtensionManager.call c) = ExtensionManager.Settled (inl 0)
  /\ ExtensionManager.emitted c = []
  /\ ExtensionManager.this c = broker_skyrim
  /\ ExtensionManager.modmeta c = world_skyrim.
Proof.
  apply (@unchanged_context_reuses_instance renderer store_skyrim broker_skyrim
           world_skyrim 0); reflexivity.
Defined.

(** X12. A constructor that throws does not wedge the broker.  With no
    instance held, a [getModDB] call whose construction fails rejects with
    the exception, leaves [mModDB] undefined and the stores untouched, and
    settles the gate; the next call, for a context that can be opened,
    constructs its instance without closing anything. *)
Theorem failed_construction_is_retried `{Host} (st1 st2 : ExtensionManager.store_state)
  (b : ExtensionManager.broker) (w : ExtensionManager.metadb) (e : error) :
  ExtensionManager.mModDB b = None ->
  ExtensionManager.mModDBPromise b <> Some ExtensionManager.Pending ->
  new_db (ExtensionManager.activeGameId st1) (ExtensionManager.APIKey st1) = Some e ->
  new_db (ExtensionManager.activeGameId st2) (ExtensionManager.APIKey st2) = None ->
  let c1 := acquire st1 b w in
  let c2 := acquire st2 (ExtensionManager.this c1) (ExtensionManager.modmeta c1) in
  ExtensionManager.at_stage (ExtensionManager.call c1) = ExtensionManager.Settled (inr e)
  /\ ExtensionManager.emitted c1 = []
  /\ ExtensionManager.mModDB (ExtensionManager.this c1) = None
  /\ ExtensionManager.mModDBPromise (ExtensionManager.this c1) =
     Some ExtensionManager.Resolved
  /\ ExtensionManager.modmeta c1 = w
  /\ ExtensionManager.at_stage (ExtensionManager.call c2) =
     ExtensionManager.Settled (inl (ExtensionManager.next_db w))
  /\ ExtensionManager.emitted c2 =
     [EvNew (ExtensionManager.next_db w) (ExtensionManager.activeGameId st2)
        (ExtensionManager.APIKey st2)] ++ log Debug "initialised" []
  /\ ExtensionManager.mModDB (ExtensionManager.this c2) = Some (ExtensionManager.next_db w).
Proof.
  intros Hdb Hgate Hfail Hok c1 c2. subst c2 c1.
  rewrite (acquire_without_instance st1 b w Hdb Hgate), Hfail. simpl.
  rewrite acquire_without_instance by (simpl; congruence).
  rewrite Hok. simpl. repeat split; reflexivity.
Qed.

Lemma failed_construction_is_retried_witness :
  let c1 := @acquire no_skyrim store_skyrim broker_initial world_initial in
  let c2 := @acquire no_skyrim store_fallout (ExtensionManager.this c1)
              (ExtensionManager.modmeta c1) in
  ExtensionManager.at_stage (ExtensionManager.call c1) =
    ExtensionManager.Settled (inr (error_object "cannot open" ""))
  /\ ExtensionManager.at_stage (ExtensionManager.call c2) = ExtensionManager.Settled (inl 0)
  /\ live c2 = [0].
Proof.
  cbv zeta.
  destruct (@failed_construction_is_retried no_skyrim store_skyrim store_fallout
              broker_initial world_initial (error_object "cannot open" "")
              eq_refl ltac:(discriminate) eq_refl eq_refl)
    as (H1 & _ & _ & _ & _ & H2 & _ & _).
  split; [exact H1 |]. split; [exact H2 | reflexivity].
Defined.

(** X13. When closing the stale instance fails, [getModDB] rejects with
    that error after the one [close], constructs nothing, and leaves the
    broker holding the old instance under the old game and key; a further
    call finds the same stale instance and tries to close it again. *)
Theorem failed_close_keeps_stale_instance `{Host} (st : ExtensionManager.store_state)
  (b : ExtensionManager.broker) (w : ExtensionManager.metadb) (old : nat) (e : error) :
  ExtensionManager.mModDB b = Some old ->
  ExtensionManager.mModDBPromise b = Some ExtensionManager.Resolved ->
  ExtensionManager.activeGameId st <> ExtensionManager.mModDBGame b
  \/ ExtensionManager.APIKey st <> ExtensionManager.mModDBAPIKey b ->
  ExtensionManager.open_dbs w = [old] ->
  close_db old = Some e ->
  let c := acquire st b w in
  ExtensionManager.at_stage (ExtensionManager.call c) = ExtensionManager.Settled (inr e)
  /\ ExtensionManager.emitted c = [EvClose old]
  /\ ExtensionManager.this c = b
  /\ ExtensionManager.modmeta c = w
  /\ acquire st (ExtensionManager.this c) (ExtensionManager.modmeta c) = c.
Proof.
  intros Hdb Hgate Hdiff Hopen Hclose c. subst c.
  rewrite (acquire_rotated st b w old Hdb Hgate Hdiff Hopen), Hclose. simpl.
  repeat split.
  rewrite (acquire_rotated st b w old Hdb Hgate Hdiff Hopen), Hclose. reflexivity.
Qed.

Lemma failed_close_keeps_stale_instance_witness :
  let c := @acquire stuck_close store_fallout broker_skyrim world_skyrim in
  ExtensionManager.emitted c = [EvClose 0]
  /\ ExtensionManager.this c = broker_skyrim
  /\ live c = [0].
Proof.
  cbv zeta.
  assert (Hdiff : ExtensionManager.activeGameId store_fallout <>
                  ExtensionManager.mModDBGame broker_skyrim
                  \/ ExtensionManager.APIKey store_fallout <>
                     ExtensionManager.mModDBAPIKey broker_skyrim).
  { left. discriminate. }
  pose proof (@failed_close_keeps_stale_instance stuck_close store_fallout broker_skyrim
                world_skyrim 0 (error_object "close failed" "")
                eq_refl eq_refl Hdiff eq_refl eq_refl) as Hthm.
  cbv zeta in Hthm. destruct Hthm as (_ & H2 & H3 & H4 & _).
  split; [exact H2 |]. split; [exact H3 |]. unfold live. rewrite H4. reflexivity.
Defined.

(** X14. The very first [getModDB] call installs a pending gate.  A second
    call begun while the first is under way cannot run any of its callbacks
    as long as the first has not reached its [finally]; once the first has
    settled, the second, asking for the same game and key, resolves to the
    instance the first constructed and constructs nothing itself. *)
Theorem startup_calls_share_one_instance `{Host} (st : ExtensionManager.store_state)
  (b : ExtensionManager.broker) (w : ExtensionManager.metadb) :
  ExtensionManager.mModDB b = None ->
  ExtensionManager.mModDBPromise b = None ->
  new_db (ExtensionManager.activeGameId st) (ExtensionManager.APIKey st) = None ->
  let first := ExtensionManager.getModDB st b w in
  let second := begun_during st first in
  let db := ExtensionManager.next_db w in
  ExtensionManager.mModDBPromise (ExtensionManager.this first) =
    Some ExtensionManager.Pending
  /\ (forall c, In c (ExtensionManager.trajectory 2 first) ->
        ExtensionManager.step (resumed_after c second) = None)
  /\ ExtensionManager.at_stage (ExtensionManager.call (acquire st b w)) =
     ExtensionManager.Settled (inl db)
  /\ (let c := List.last (ExtensionManager.trajectory 4
                            (resumed_after (acquire st b w) second))
                 second in
      ExtensionManager.at_stage (ExtensionManager.call c) =
        ExtensionManager.Settled (inl db)
      /\ ExtensionManager.emitted c = []
      /\ live c = ExtensionManager.open_dbs w ++ [db]).
Proof.
  intros Hdb Hgate Hnew first second db. subst first second db.
  unfold begun_during, acquire, resumed_after, live.
  destruct b as [db' gate g k]. destruct w as [opens next]. destruct st as [game key].
  simpl in *. subst. cbn. rewrite Hnew. cbn.
  split; [reflexivity |]. split.
  - intros c [<- | [<- | [<- | []]]]; reflexivity.
  - split; [reflexivity |].
    rewrite (stale_unchanged _ _ next) by reflexivity. cbn. auto.
Qed.

Lemma startup_calls_share_one_instance_witness :
  let first := ExtensionManager.getModDB store_skyrim broker_initial world_initial in
  let second := begun_during store_skyrim first in
  @ExtensionManager.step renderer second = None
  /\ map (fun c => ExtensionManager.emitted c)
       (@ExtensionManager.trajectory renderer 4
          (resumed_after (@acquire renderer store_skyrim broker_initial world_initial) second))
     = [[]; []; []; []].
Proof.
  cbv zeta.
  destruct (@startup_calls_share_one_instance renderer store_skyrim broker_initial
              world_initial eq_refl eq_refl eq_refl) as (_ & Hwait & _ & _).
  split; [| reflexivity].
  apply (Hwait (ExtensionManager.getModDB store_skyrim broker_initial world_initial)).
  left. reflexivity.
Defined.

(** X15. The gate only ever holds back calls during the first one.  With
    the gate resolved and a stale instance held, a second [getModDB] call
    begun while the first is waiting for [close] to finish finds the same
    instance still stored and calls [close] on it a second time. *)
Theorem later_calls_close_twice `{Host} (st : ExtensionManager.store_state)
  (b : ExtensionManager.broker) (w : ExtensionManager.metadb) (old : nat) :
  ExtensionManager.mModDB b = Some old ->
  ExtensionManager.mModDBPromise b = Some ExtensionManager.Resolved ->
  ExtensionManager.activeGameId st <> ExtensionManager.mModDBGame b
  \/ ExtensionManager.APIKey st <> ExtensionManager.mModDBAPIKey b ->
  exists first second,
    ExtensionManager.step (ExtensionManager.getModDB st b w) = Some first
    /\ ExtensionManager.at_stage (ExtensionManager.call first) = ExtensionManager.Closing old
    /\ ExtensionManager.emitted first = [EvClose old]
    /\ ExtensionManager.step (begun_during st first) = Some second
    /\ ExtensionManager.at_stage (ExtensionManager.call second) = ExtensionManager.Closing old
    /\ ExtensionManager.emitted second = [EvClose old].
Proof.
  intros Hdb Hgate Hdiff.
  pose proof (step_rotation_start st b w old Hdb Hgate Hdiff) as Hfirst.
  cbv zeta in Hfirst. eexists. eexists. split; [exact Hfirst |].
  split; [reflexivity |]. split; [reflexivity |]. split.
  - unfold begun_during. simpl.
    apply (step_rotation_start st b w old Hdb Hgate Hdiff).
  - split; reflexivity.
Qed.

Lemma later_calls_close_twice_witness :
  exists first second,
    @ExtensionManager.step renderer
      (ExtensionManager.getModDB store_fallout broker_skyrim world_skyrim) = Some first
    /\ @ExtensionManager.step renderer (begun_during store_fallout first) = Some second
    /\ ExtensionManager.emitted first ++ ExtensionManager.emitted second =
       [EvClose 0; EvClose 0].
Proof.
  assert (Hdiff : ExtensionManager.activeGameId store_fallout <>
                  ExtensionManager.mModDBGame broker_skyrim
                  \/ ExtensionManager.APIKey store_fallout <>
                     ExtensionManager.mModDBAPIKey broker_skyrim).
  { left. discriminate. }
  destruct (@later_calls_close_twice renderer store_fallout broker_skyrim world_skyrim 0
              eq_refl eq_refl Hdiff)
    as (first & second & H1 & _ & H3 & H4 & _ & H6).
  exists first, second. rewrite H3, H6. auto.
Defined.

(** ** Metadata lookups *)

Section MetaFacts.
Context `{Host} `{ModMeta}.

Lemma filter_MetaBroker (f : meta_event -> bool) (evs : list event) :
  (forall e, f (MetaBroker e) = false) ->
  List.filter f (map MetaBroker evs) = [].
Proof.
  intros Hf. apply filter_none. intros x Hx.
  apply in_map_iff in Hx as (e & <- & _). apply Hf.
Qed.

(** What [with_ModDB] does when the acquisition has settled. *)
Lemma with_ModDB_settled {A : Type} (st : ExtensionManager.store_state)
  (b : ExtensionManager.broker) (w : ExtensionManager.metadb)
  (k : nat -> list meta_event * (error + A)) (r : nat + error) :
  ExtensionManager.at_stage (ExtensionManager.call (acquire st b w)) =
    ExtensionManager.Settled r ->
  with_ModDB st b w k =
  (ExtensionManager.this (acquire st b w), ExtensionManager.modmeta (acquire st b w),
   map MetaBroker (ExtensionManager.emitted (acquire st b w)) ++
   match r with inl db => fst (k db) | inr _ => [] end,
   match r with
   | inl db => match snd (k db) with inl e => Failed e | inr a => Fulfilled a end
   | inr e => Failed e
   end).
Proof.
  intros Hr. unfold with_ModDB. rewrite Hr. destruct r as [db | e].
  - destruct (k db) as [evs' res]. reflexivity.
  - rewrite app_nil_r. reflexivity.
Qed.

End MetaFacts.

(** X16. [lookupModMeta] hashes only when it has to.  With neither a hash
    nor a path it resolves to the empty list and touches nothing, not even
    the broker.  With a hash given it neither hashes the file nor emits
    [filehash-calculated].  With only a path it hashes the file first; if
    that fails the lookup fails with the same error before the broker is
    asked for a store; if it succeeds the hash is announced on the event
    emitter and the lookup then goes on exactly like one called with that
    hash and with the size that came with it, so the size handed to the
    store is the one of the hash and the result does not depend on the size
    the caller supplied; without an event emitter the lookup fails after
    hashing. *)
Theorem lookupModMeta_hashes_only_when_needed `{Host} `{ModMeta}
  (mEventEmitter : bool) (st : ExtensionManager.store_state)
  (b : ExtensionManager.broker) (w : ExtensionManager.metadb)
  (p size size' game : value) :
  lookupModMeta mEventEmitter
    {| fileMD5 := VUndefined; filePath := VUndefined; fileSize := size; gameId := game |}
    st b w = (b, w, [], Fulfilled [])
  /\ (forall md5, md5 <> VUndefined ->
        List.filter is_hashing
          (snd (fst (lookupModMeta mEventEmitter
                       {| fileMD5 := md5; filePath := p; fileSize := size; gameId := game |}
                       st b w))) = [])
  /\ (forall e, p <> VUndefined -> genHash p = inl e ->
        lookupModMeta mEventEmitter
          {| fileMD5 := VUndefined; filePath := p; fileSize := size; gameId := game |}
          st b w = (b, w, [MetaHash p], Failed e))
  /\ lookupModMeta mEventEmitter
       {| fileMD5 := VUndefined; filePath := p; fileSize := size; gameId := game |} st b w =
     lookupModMeta mEventEmitter
       {| fileMD5 := VUndefined; filePath := p; fileSize := size'; gameId := game |} st b w
  /\ (forall md5 numBytes, p <> VUndefined -> genHash p = inr (md5, numBytes) ->
        lookupModMeta true
          {| fileMD5 := VUndefined; filePath := p; fileSize := size; gameId := game |}
          st b w =
        (let '(b', w', evs, r) :=
           lookupModMeta true
             {| fileMD5 := VStr md5; filePath := p; fileSize := VNum numBytes;
                gameId := game |} st b w in
         (b', w',
          [MetaHash p; MetaEmit "filehash-calculated" [p; VStr md5; VNum numBytes]] ++ evs,
          r))
        /\ lookupModMeta false
             {| fileMD5 := VUndefined; filePath := p; fileSize := size; gameId := game |}
             st b w = (b, w, [MetaHash p], Failed (type_error "emit"))).
Proof.
  split; [reflexivity |]. split; [| split; [| split]].
  - intros md5 Hmd5. unfold lookupModMeta, strict_eq. simpl.
    rewrite (bool_decide_eq_false_2 _ Hmd5). simpl.
    unfold with_ModDB.
    destruct (ExtensionManager.at_stage _) as [| | | | [db | e]]; simpl;
      rewrite ?List.filter_app, filter_MetaBroker by reflexivity; reflexivity.
  - intros e Hp Hhash. unfold lookupModMeta, strict_eq. simpl.
    rewrite (bool_decide_eq_false_2 _ Hp), Hhash. reflexivity.
  - unfold lookupModMeta. simpl. reflexivity.
  - intros md5 numBytes Hp Hhash. unfold lookupModMeta, strict_eq. simpl.
    rewrite (bool_decide_eq_false_2 _ Hp), Hhash. simpl.
    destruct (with_ModDB st b w _) as [[[b' w'] evs] r]. split; reflexivity.
Qed.

Lemma lookupModMeta_hashes_only_when_needed_witness :
  @lookupModMeta renderer modmeta_demo true
    {| fileMD5 := VUndefined; filePath := VStr "broken.zip"; fileSize := VNum 7;
       gameId := VStr "skyrim" |}
    store_skyrim broker_skyrim world_skyrim =
  (broker_skyrim, world_skyrim, [MetaHash (VStr "broken.zip")],
   Failed (error_object "ENOENT" ""))
  /\ snd (fst (@lookupModMeta renderer modmeta_demo true
                 {| fileMD5 := VUndefined; filePath := VStr "armor.zip"; fileSize := VNum 7;
                    gameId := VStr "skyrim" |}
                 store_skyrim broker_skyrim world_skyrim)) =
     [ MetaHash (VStr "armor.zip");
       MetaEmit "filehash-calculated" [VStr "armor.zip"; VStr "d41d8cd9"; VNum 42];
       MetaLookup 0 [VStr "armor.zip"; VStr "d41d8cd9"; VNum 42; VStr "skyrim"] ].
Proof.
  split; [| reflexivity].
  refine (proj1 (proj2 (proj2 (@lookupModMeta_hashes_only_when_needed renderer modmeta_demo
    true store_skyrim broker_skyrim world_skyrim (VStr "broken.zip") (VNum 7) (VNum 7)
    (VStr "skyrim")))) _ _ _); [discriminate | reflexivity].
Defined.

(** X17. A lookup made after the active game has changed goes to the store
    of the new game: the broker closes the old instance, constructs the new
    one and records it, and only then is [lookup] called, on the new
    instance, with the path, hash, size and game of the request. *)
Theorem lookup_follows_the_active_game `{Host} `{ModMeta}
  (mEventEmitter : bool) (detail : ILookupDetails)
  (st : ExtensionManager.store_state) (b : ExtensionManager.broker)
  (w : ExtensionManager.metadb) (old : nat) :
  fileMD5 detail <> VUndefined ->
  ExtensionManager.mModDB b = Some old ->
  ExtensionManager.mModDBPromise b = Some ExtensionManager.Resolved ->
  ExtensionManager.activeGameId st <> ExtensionManager.mModDBGame b
  \/ ExtensionManager.APIKey st <> ExtensionManager.mModDBAPIKey b ->
  ExtensionManager.open_dbs w = [old] ->
  close_db old = None ->
  new_db (ExtensionManager.activeGameId st) (ExtensionManager.APIKey st) = None ->
  let new := ExtensionManager.next_db w in
  let args := [filePath detail; fileMD5 detail; fileSize detail; gameId detail] in
  let '(b', w', evs, r) := lookupModMeta mEventEmitter detail st b w in
  ExtensionManager.mModDB b' = Some new
  /\ ExtensionManager.mModDBGame b' = ExtensionManager.activeGameId st
  /\ ExtensionManager.open_dbs w' = [new]
  /\ evs =
     [ MetaBroker (EvClose old);
       MetaBroker (EvNew new (ExtensionManager.activeGameId st) (ExtensionManager.APIKey st));
       MetaBroker (EvLog {| lvl := Debug; text := "initialised"; meta := [] |});
       MetaLookup new args ]
  /\ r = match db_lookup new args with inl e => Failed e | inr res => Fulfilled res end.
Proof.
  intros Hmd5 Hdb Hgate Hdiff Hopen Hclose Hnew new args.
  unfold lookupModMeta, strict_eq.
  rewrite (bool_decide_eq_false_2 _ Hmd5). simpl.
  pose proof (acquire_rotated st b w old Hdb Hgate Hdiff Hopen) as Hacq.
  rewrite Hclose, Hnew in Hacq.
  rewrite (with_ModDB_settled st b w _ (inl new)) by (rewrite Hacq; reflexivity).
  rewrite Hacq. simpl. auto.
Qed.

Lemma lookup_follows_the_active_game_witness :
  snd (fst (@lookupModMeta renderer modmeta_demo true
              {| fileMD5 := VStr "abc"; filePath := VStr "armor.zip"; fileSize := VNum 7;
                 gameId := VStr "fallout4" |}
              store_fallout broker_skyrim world_skyrim)) =
  [ MetaBroker (EvClose 0);
    MetaBroker (EvNew 1 (VStr "fallout4") (VStr "k1"));
    MetaBroker (EvLog {| lvl := Debug; text := "initialised"; meta := [] |});
    MetaLookup 1 [VStr "armor.zip"; VStr "abc"; VNum 7; VStr "fallout4"] ].
Proof.
  assert (Hdiff : ExtensionManager.activeGameId store_fallout <>
                  ExtensionManager.mModDBGame broker_skyrim
                  \/ ExtensionManager.APIKey store_fallout <>
                     ExtensionManager.mModDBAPIKey broker_skyrim).
  { left. discriminate. }
  pose proof (@lookup_follows_the_active_game renderer modmeta_demo true
    {| fileMD5 := VStr "abc"; filePath := VStr "armor.zip"; fileSize := VNum 7;
       gameId := VStr "fallout4" |}
    store_fallout broker_skyrim world_skyrim 0
    ltac:(discriminate) eq_refl eq_refl Hdiff eq_refl eq_refl eq_refl) as Hthm.
  cbv zeta in Hthm.
  destruct (@lookupModMeta renderer modmeta_demo true _ store_fallout broker_skyrim
              world_skyrim) as [[[b' w'] evs] r].
  destruct Hthm as (_ & _ & _ & Hevs & _). exact Hevs.
Defined.

(** X18. No store, no store call.  When [getModDB] rejects, be it because
    the stale instance cannot be closed or because the constructor throws,
    [lookupModMeta] with a hash given, [lookupModReference] and
    [saveModMeta] all fail with the error of the broker and never call
    [lookup], [getByKey] or [insert]. *)
Theorem store_calls_need_an_instance `{Host} `{ModMeta}
  (mEventEmitter : bool) (detail : ILookupDetails) (reference modInfo : value)
  (st : ExtensionManager.store_state) (b : ExtensionManager.broker)
  (w : ExtensionManager.metadb) (e : error) :
  fileMD5 detail <> VUndefined ->
  ExtensionManager.at_stage (ExtensionManager.call (acquire st b w)) =
    ExtensionManager.Settled (inr e) ->
  (snd (lookupModMeta mEventEmitter detail st b w) = Failed e
   /\ List.filter is_store_call
        (snd (fst (lookupModMeta mEventEmitter detail st b w))) = [])
  /\ (snd (lookupModReference reference st b w) = Failed e
      /\ List.filter is_store_call (snd (fst (lookupModReference reference st b w))) = [])
  /\ (snd (saveModMeta modInfo st b w) = Failed e
      /\ List.filter is_store_call (snd (fst (saveModMeta modInfo st b w))) = []).
Proof.
  intros Hmd5 Hfail.
  unfold lookupModMeta, lookupModReference, saveModMeta, strict_eq.
  rewrite (bool_decide_eq_false_2 _ Hmd5). simpl.
  rewrite !(with_ModDB_settled st b w _ (inr e) Hfail). simpl.
  rewrite app_nil_r, filter_MetaBroker by reflexivity. auto.
Qed.

Lemma store_calls_need_an_instance_witness :
  @saveModMeta stuck_close modmeta_demo (VObj 9) store_fallout broker_skyrim world_skyrim =
  (broker_skyrim, world_skyrim, [MetaBroker (EvClose 0)],
   Failed (error_object "close failed" "")).
Proof.
  pose proof (@store_calls_need_an_instance stuck_close modmeta_demo true
    {| fileMD5 := VStr "abc"; filePath := VUndefined; fileSize := VUndefined;
       gameId := VUndefined |} VUndefined (VObj 9)
    store_fallout broker_skyrim world_skyrim
    (error_object "close failed" "") ltac:(discriminate) eq_refl)
    as (_ & _ & Hsave & _).
  destruct (@saveModMeta stuck_close modmeta_demo (VObj 9) store_fallout broker_skyrim
              world_skyrim) as [[[b' w'] evs] r] eqn:E.
  simpl in Hsave. subst r. vm_compute in E. injection E as <- <- <-. reflexivity.
Defined.

(** ** More on the watcher *)

(** X19. Watched paths are told apart by their segments joined with dots.
    Two paths that join to the same key, one at which the registry reads
    [undefined] so far, share one listener: registering on
    the second after the first subscribes nothing new with redux-watcher,
    and its callback is queued behind the first one's, to be called on the
    notifications of the first path. *)
Theorem paths_with_one_key_share_a_listener `{Host} (m : ExtensionManager.watcher)
  (ls : list ExtensionManager.listener_closure) (p1 p2 : list string) (cb1 cb2 : value) :
  ExtensionManager.mReduxWatcher m = Some ls ->
  ExtensionManager.watches_at m (String.concat "." p1) = inr VUndefined ->
  String.concat "." p1 = String.concat "." p2 ->
  let r1 := ExtensionManager.stateChangeHandler p1 cb1 m in
  let r2 := ExtensionManager.stateChangeHandler p2 cb2 (fst r1) in
  snd r1 = ([EvWatch p1], None)
  /\ snd r2 = ([], None)
  /\ ExtensionManager.mReduxWatcher (fst r2) =
     Some (ls ++ [ {| ExtensionManager.watchPath_of := p1;
                      ExtensionManager.key_of := String.concat "." p1;
                      ExtensionManager.lastValue := VUndefined |} ])
  /\ ExtensionManager.mWatches (fst r2) !! String.concat "." p2 = Some [cb1; cb2]
  /\ forall prev cur, cur <> VUndefined ->
       snd (ExtensionManager.notify (length ls) prev cur (fst r2)) =
       forEach (ExtensionManager.guarded_call prev cur) [cb1; cb2].
Proof.
  intros Hstore Hfresh Hkey r1 r2. subst r1 r2.
  rewrite (watch_fresh m ls p1 cb1 Hstore Hfresh). simpl.
  rewrite (watch_again _ [cb1] p2 cb2) by (rewrite <- Hkey; apply lookup_insert_eq).
  simpl. rewrite <- Hkey, insert_insert_eq, lookup_insert_eq.
  repeat split.
  intros prev cur Hcur. unfold ExtensionManager.notify, strict_eq.
  cbn [ExtensionManager.mReduxWatcher ExtensionManager.mWatches].
  rewrite list_lookup_middle by reflexivity.
  cbn [ExtensionManager.lastValue ExtensionManager.key_of].
  rewrite (bool_decide_eq_false_2 _ Hcur).
  rewrite (watches_at_own _ _ [cb1; cb2]) by apply lookup_insert_eq.
  reflexivity.
Qed.

Lemma paths_with_one_key_share_a_listener_witness :
  ["settings"; "gameMode"] <> ["settings.gameMode"]
  /\ snd (@ExtensionManager.stateChangeHandler renderer ["settings.gameMode"] (VFun 2)
            (fst (@ExtensionManager.stateChangeHandler renderer ["settings"; "gameMode"]
                    (VFun 1)
                    (ExtensionManager.setStore ExtensionManager.watcher_initial)))) =
     ([], None).
Proof.
  split; [discriminate |].
  refine (proj1 (proj2 (@paths_with_one_key_share_a_listener renderer
    (ExtensionManager.setStore ExtensionManager.watcher_initial) []
    ["settings"; "gameMode"] ["settings.gameMode"] (VFun 1) (VFun 2) _ _ _)));
    reflexivity.
Defined.

(** X20. As long as no store is attached there is no redux-watcher to
    subscribe with: the first registration on a path at whose key the
    registry reads [undefined] throws a TypeError, but
    only after it has entered the key of the path in the registry.  From
    then on registrations on that path return normally and subscribe
    nothing, also once a store has been attached, so none of their callbacks
    is ever notified. *)
Theorem path_watched_too_early_is_never_subscribed `{Host}
  (m : ExtensionManager.watcher) (watchPath : list string) (cb1 cb2 cb3 : value) :
  let key := String.concat "." watchPath in
  ExtensionManager.mReduxWatcher m = None ->
  ExtensionManager.watches_at m key = inr VUndefined ->
  let r1 := ExtensionManager.stateChangeHandler watchPath cb1 m in
  let r2 := ExtensionManager.stateChangeHandler watchPath cb2 (fst r1) in
  let r3 := ExtensionManager.stateChangeHandler watchPath cb3
              (ExtensionManager.setStore (fst r2)) in
  snd r1 = ([], Some (type_error "watch"))
  /\ snd r2 = ([], None)
  /\ snd r3 = ([], None)
  /\ ExtensionManager.mWatches (fst r3) !! key = Some [cb2; cb3]
  /\ subscriptions key (fst r3) = 0
  /\ forall i prev cur, ExtensionManager.notify i prev cur (fst r3) = (fst r3, ([], None)).
Proof.
  intros key Hstore Hfresh r1 r2 r3. subst r1 r2 r3.
  assert (H1 : ExtensionManager.stateChangeHandler watchPath cb1 m =
               ({| ExtensionManager.mReduxWatcher := None;
                   ExtensionManager.mWatches := <[key := []]> (ExtensionManager.mWatches m) |},
                ([], Some (type_error "watch")))).
  { unfold ExtensionManager.stateChangeHandler. fold key. rewrite Hfresh, Hstore. reflexivity. }
  rewrite H1. simpl.
  rewrite (watch_again _ [] watchPath cb2) by apply lookup_insert_eq. simpl.
  rewrite (watch_again _ [cb2] watchPath cb3)
    by (simpl; fold key; rewrite insert_insert_eq; apply lookup_insert_eq).
  simpl. fold key. rewrite !insert_insert_eq, lookup_insert_eq.
  repeat split.
Qed.

Lemma path_watched_too_early_is_never_subscribed_witness :
  let m := fst (@ExtensionManager.stateChangeHandler renderer ["session"] (VFun 3)
                  (ExtensionManager.setStore
                     (fst (@ExtensionManager.stateChangeHandler renderer ["session"] (VFun 2)
                             (fst (@ExtensionManager.stateChangeHandler renderer ["session"]
                                     (VFun 1) ExtensionManager.watcher_initial)))))) in
  subscriptions "session" m = 0
  /\ ExtensionManager.mWatches m !! "session" = Some [VFun 2; VFun 3].
Proof.
  cbv zeta.
  destruct (@path_watched_too_early_is_never_subscribed renderer
              ExtensionManager.watcher_initial ["session"] (VFun 1) (VFun 2) (VFun 3)
              eq_refl eq_refl) as (_ & _ & _ & Hcbs & Hsubs & _).
  split; [exact Hsubs | exact Hcbs].
Defined.

(** ** [asarUnpacked] *)

Lemma string_length_append (a b : string) :
  String.length (a ++ b) = String.length a + String.length b.
Proof. induction a as [| c a IH]; simpl; [reflexivity | rewrite IH; reflexivity]. Qed.

Lemma substring_all (a : string) : substring 0 (String.length a) a = a.
Proof. induction a as [| c a IH]; simpl; [reflexivity | rewrite IH; reflexivity]. Qed.

Lemma substring_prefix (a b : string) : substring 0 (String.length a) (a ++ b) = a.
Proof.
  induction a as [| c a IH]; simpl; [destruct b; reflexivity | rewrite IH; reflexivity].
Qed.

Lemma substring_skip (a b : string) (n : nat) :
  substring (String.length a) n (a ++ b) = substring 0 n b.
Proof. induction a as [| c a IH]; simpl; [reflexivity | exact IH]. Qed.

Lemma substring_suffix (a b : string) (n m : nat) :
  substring (String.length a + n) m (a ++ b) = substring n m b.
Proof. induction a as [| c a IH]; simpl; [reflexivity | exact IH]. Qed.

Lemma index_first_occurrence (pat pre post : string) :
  pat <> EmptyString ->
  (forall m, m < String.length pre ->
     substring m (String.length pat) (pre ++ pat ++ post) <> pat) ->
  index 0 pat (pre ++ pat ++ post) = Some (String.length pre).
Proof.
  intros Hne Hbefore.
  assert (Hat : substring (String.length pre) (String.length pat) (pre ++ pat ++ post) = pat).
  { rewrite substring_skip. apply substring_prefix. }
  destruct (index 0 pat (pre ++ pat ++ post)) as [n |] eqn:E.
  - f_equal. destruct (Nat.lt_trichotomy n (String.length pre)) as [Hlt | [Heq | Hgt]].
    + exfalso. apply (Hbefore n Hlt). apply (index_correct1 0 n). exact E.
    + exact Heq.
    + exfalso. apply (index_correct2 0 n pat _ E (String.length pre)); [lia | exact Hgt | exact Hat].
  - exfalso. apply (index_correct3 0 (String.length pre) pat _ E Hne); [lia | exact Hat].
Qed.

(** X21. A path in which ["app.asar"] followed by the separator occurs
    nowhere is returned by [asarUnpacked] as it is; so are the empty path and
    a path that ends in ["app.asar"]. *)
Theorem asarUnpacked_leaves_other_paths (sep input : string) :
  (forall m, substring m (String.length ("app.asar" ++ sep)%string) input
             <> ("app.asar" ++ sep)%string) ->
  asarUnpacked sep input = input.
Proof.
  intros Hnone. unfold asarUnpacked, replace_first.
  destruct (index 0 ("app.asar" ++ sep)%string input) as [n |] eqn:E; [| reflexivity].
  exfalso. apply (Hnone n). apply (index_correct1 0 n). exact E.
Qed.

Lemma asarUnpacked_leaves_other_paths_witness :
  asarUnpacked "/" "/opt/app.asar" = "/opt/app.asar"%string.
Proof.
  apply asarUnpacked_leaves_other_paths. intros m.
  do 14 (destruct m as [| m]; [discriminate |]). destruct m; discriminate.
Defined.

(** X22. [asarUnpacked] rewrites the first ["app.asar"] that is followed by
    the separator into ["app.asar.unpacked"], and nothing else: what stands
    before that occurrence and everything after it, later occurrences
    included, is kept. *)
Theorem asarUnpacked_rewrites_first_occurrence (sep pre post : string) :
  (forall m, m < String.length pre ->
     substring m (String.length ("app.asar" ++ sep)%string)
       (pre ++ ("app.asar" ++ sep) ++ post)%string
     <> ("app.asar" ++ sep)%string) ->
  asarUnpacked sep (pre ++ ("app.asar" ++ sep) ++ post)%string =
  (pre ++ ("app.asar.unpacked" ++ sep) ++ post)%string.
Proof.
  intros Hbefore. unfold asarUnpacked, replace_first.
  rewrite (index_first_occurrence ("app.asar" ++ sep)%string pre post);
    [| discriminate | exact Hbefore].
  rewrite substring_prefix, substring_suffix, substring_skip.
  rewrite !string_length_append.
  replace (String.length pre + (String.length "app.asar" + String.length sep + String.length post)
           - (String.length pre + (String.length "app.asar" + String.length sep)))
    with (String.length post) by lia.
  rewrite substring_all. reflexivity.
Qed.

Lemma asarUnpacked_rewrites_first_occurrence_witness :
  asarUnpacked "/" "/opt/app.asar/mods/app.asar/x"
  = "/opt/app.asar.unpacked/mods/app.asar/x"%string.
Proof.
  apply (asarUnpacked_rewrites_first_occurrence "/" "/opt/" "mods/app.asar/x").
  intros m Hm. simpl in Hm.
  do 5 (destruct m as [| m]; [discriminate |]). lia.
Defined.

(** ** Loading extensions from disk *)

Section LoadingFacts.
Context `{Host} `{Node} `{Disk}.

Lemma defined_map_omap {A B : Type} (f : A -> option B) (l : list A) :
  ExtensionManager.defined (map f l) = omap f l.
Proof.
  induction l as [| x l IH]; [reflexivity |].
  cbn. destruct (f x); cbn; unfold ExtensionManager.defined in IH; rewrite IH; reflexivity.
Qed.

Lemma directories_filter (p : string) (names : list string) :
  (forall n, In n names -> exists b, isDirectory (path_join p n) = inr b) ->
  ExtensionManager.directories p names = inr (List.filter (is_dir p) names).
Proof.
  induction names as [| n rest IH]; intros Hstat; [reflexivity |].
  simpl. destruct (Hstat n (or_introl eq_refl)) as [b Hb].
  unfold is_dir at 1. rewrite Hb.
  rewrite IH by (intros n' Hn'; apply Hstat; right; exact Hn').
  destruct b; reflexivity.
Qed.

Lemma directories_throws (p : string) (names : list string) (n : string) (e : error) :
  In n names -> isDirectory (path_join p n) = inl e ->
  exists n' e', In n' names /\ isDirectory (path_join p n') = inl e'
                /\ ExtensionManager.directories p names = inl e'.
Proof.
  induction names as [| x rest IH]; intros Hin Hn; [destruct Hin |].
  simpl. destruct (isDirectory (path_join p x)) as [ex | b] eqn:Ex.
  - exists x, ex. split; [left; reflexivity | split; [exact Ex | reflexivity]].
  - destruct Hin as [-> | Hin]; [congruence |].
    destruct (IH Hin Hn) as (n' & e' & Hin' & Hn' & ->).
    exists n', e'. split; [right; exact Hin' | split; [exact Hn' | reflexivity]].
Qed.

Lemma load_entry_result (p n : string) (tick : nat) :
  module_throws_nullish p n = false ->
  snd (ExtensionManager.load_entry p n tick) = inr (loadable p n).
Proof.
  unfold ExtensionManager.load_entry, ExtensionManager.loadDynamicExtension, loadable,
    module_throws_nullish.
  cbv zeta. destruct (existsSync _); [| reflexivity].
  destruct (require_default _) as [[m s | |] | body]; simpl;
    intros Hn; try discriminate Hn; reflexivity.
Qed.

Lemma load_entry_tick (p n : string) (tick tick' : nat) :
  snd (ExtensionManager.load_entry p n tick) = snd (ExtensionManager.load_entry p n tick').
Proof.
  unfold ExtensionManager.load_entry, ExtensionManager.loadDynamicExtension.
  cbv zeta. destruct (existsSync _); [| reflexivity].
  destruct (require_default _) as [[m s | |] | body]; reflexivity.
Qed.

Lemma load_entry_reported (p n : string) (tick : nat) :
  module_throws_nullish p n = false ->
  flat_map reported (fst (fst (ExtensionManager.load_entry p n tick)))
  = [(report_level p n, VStr n)].
Proof.
  unfold ExtensionManager.load_entry, ExtensionManager.loadDynamicExtension, report_level,
    module_throws_nullish.
  cbv zeta. destruct (existsSync _); [| reflexivity].
  destruct (require_default _) as [[m s | |] | body]; simpl;
    intros Hn; try discriminate Hn; reflexivity.
Qed.

Lemma load_entry_events (p n : string) (tick : nat) (ev : load_event) :
  In ev (fst (fst (ExtensionManager.load_entry p n tick))) ->
  match ev with
  | Mkdir _ => False
  | Required m =>
      m = path_join (path_join p n) "index.js" /\ existsSync m = true
  | _ => True
  end.
Proof.
  unfold ExtensionManager.load_entry, ExtensionManager.loadDynamicExtension.
  cbv zeta. destruct (existsSync _) eqn:Ex.
  - destruct (require_default _) as [[m s | |] | body]; simpl;
      intros Hin; repeat (destruct Hin as [<- | Hin];
                      [first [exact I | split; [reflexivity | exact Ex]] |]);
      destruct Hin.
  - simpl. intros [<- | []]. exact I.
Qed.

Lemma load_entries_result (p : string) (dirs : list string) (tick : nat) :
  (forall n, In n dirs -> module_throws_nullish p n = false) ->
  snd (ExtensionManager.load_entries p dirs tick) = inr (map (loadable p) dirs).
Proof.
  revert tick. induction dirs as [| n rest IH]; intros tick Hok; [reflexivity |].
  simpl. pose proof (load_entry_result p n tick (Hok n (or_introl eq_refl))) as Hn.
  destruct (ExtensionManager.load_entry p n tick) as [[evs tick'] ext].
  simpl in Hn. subst ext.
  pose proof (IH tick' (fun n' Hn' => Hok n' (or_intror Hn'))) as Hrest.
  destruct (ExtensionManager.load_entries p rest tick') as [[evs' tick''] exts].
  simpl in *. subst exts. reflexivity.
Qed.

Lemma load_entries_tick (p : string) (dirs : list string) (tick tick' : nat) :
  snd (ExtensionManager.load_entries p dirs tick)
  = snd (ExtensionManager.load_entries p dirs tick').
Proof.
  revert tick tick'. induction dirs as [| n rest IH]; intros tick tick'; [reflexivity |].
  simpl. pose proof (load_entry_tick p n tick tick') as Hn.
  destruct (ExtensionManager.load_entry p n tick) as [[evs t1] ext].
  destruct (ExtensionManager.load_entry p n tick') as [[evs' t1'] ext'].
  simpl in Hn. subst ext'. destruct ext as [e | ext]; [reflexivity |].
  pose proof (IH t1 t1') as Hrest.
  destruct (ExtensionManager.load_entries p rest t1) as [[evs2 t2] exts].
  destruct (ExtensionManager.load_entries p rest t1') as [[evs2' t2'] exts'].
  simpl in *. subst exts'. reflexivity.
Qed.

Lemma load_entries_reported (p : string) (dirs : list string) (tick : nat) :
  (forall n, In n dirs -> module_throws_nullish p n = false) ->
  flat_map reported (fst (fst (ExtensionManager.load_entries p dirs tick)))
  = map (fun n => (report_level p n, VStr n)) dirs.
Proof.
  revert tick. induction dirs as [| n rest IH]; intros tick Hok; [reflexivity |].
  simpl. pose proof (load_entry_reported p n tick (Hok n (or_introl eq_refl))) as Hn.
  pose proof (load_entry_result p n tick (Hok n (or_introl eq_refl))) as Hres.
  destruct (ExtensionManager.load_entry p n tick) as [[evs tick'] ext].
  simpl in Hres. subst ext.
  pose proof (IH tick' (fun n' Hn' => Hok n' (or_intror Hn'))) as Hrest.
  destruct (ExtensionManager.load_entries p rest tick') as [[evs' tick''] exts].
  simpl in *. rewrite flat_map_app, Hn, Hrest. reflexivity.
Qed.

Lemma load_entries_events (p : string) (dirs : list string) (tick : nat) (ev : load_event) :
  In ev (fst (fst (ExtensionManager.load_entries p dirs tick))) ->
  match ev with
  | Mkdir _ => False
  | Required m =>
      exists n, In n dirs /\ m = path_join (path_join p n) "index.js"
                /\ existsSync m = true
  | _ => True
  end.
Proof.
  revert tick. induction dirs as [| n rest IH]; intros tick; [intros [] |].
  simpl. pose proof (load_entry_events p n tick ev) as Hn.
  destruct (ExtensionManager.load_entry p n tick) as [[evs tick'] [e | ext]].
  - simpl in *. intros Hin. specialize (Hn Hin). destruct ev; try exact Hn.
    exists n. split; [left; reflexivity | exact Hn].
  - pose proof (IH tick') as Hrest.
    destruct (ExtensionManager.load_entries p rest tick') as [[evs' tick''] exts].
    simpl in *. intros Hin. apply in_app_or in Hin. destruct Hin as [Hin | Hin].
    + specialize (Hn Hin). destruct ev; try exact Hn.
      exists n. split; [left; reflexivity | exact Hn].
    + specialize (Hrest Hin). destruct ev; try exact Hrest.
      destruct Hrest as (n' & Hn' & Hm). exists n'. split; [right; exact Hn' | exact Hm].
Qed.

Lemma directories_sound (p : string) (names dirs : list string) (n : string) :
  ExtensionManager.directories p names = inr dirs -> In n dirs ->
  In n names /\ isDirectory (path_join p n) = inr true.
Proof.
  revert dirs. induction names as [| x rest IH]; intros dirs; simpl.
  - intros [= <-] [].
  - destruct (isDirectory (path_join p x)) as [ex | b] eqn:Ex; [discriminate |].
    destruct (ExtensionManager.directories p rest) as [e | ds]; [discriminate |].
    intros [= <-] Hin. destruct b.
    + destruct Hin as [<- | Hin]; [split; [left; reflexivity | exact Ex] |].
      destruct (IH ds eq_refl Hin) as [Hi Hd]. split; [right; exact Hi | exact Hd].
    + destruct (IH ds eq_refl Hin) as [Hi Hd]. split; [right; exact Hi | exact Hd].
Qed.

Lemma loadDynamicExtensions_tick (p : string) (tick tick' : nat) :
  snd (ExtensionManager.loadDynamicExtensions p tick)
  = snd (ExtensionManager.loadDynamicExtensions p tick').
Proof.
  unfold ExtensionManager.loadDynamicExtensions.
  destruct (negb (existsSync p)); [reflexivity |].
  destruct (readdirSync p) as [e | names]; [reflexivity |].
  destruct (ExtensionManager.directories p names) as [e | dirs]; [reflexivity |].
  pose proof (load_entries_tick p dirs tick tick') as Hres.
  destruct (ExtensionManager.load_entries p dirs tick) as [[evs t1] res].
  destruct (ExtensionManager.load_entries p dirs tick') as [[evs' t2] res'].
  simpl in *. subst res'. reflexivity.
Qed.

Lemma load_static_result (bundledPath : string) (names : list string)
  (exts : list ExtensionManager.IRegisteredExtension) :
  snd (ExtensionManager.load_static bundledPath names) = inr exts ->
  map ExtensionManager.name exts = names
  /\ forall e, In e exts ->
       ExtensionManager.path e = path_join bundledPath (ExtensionManager.name e).
Proof.
  revert exts. induction names as [| n rest IH]; intros exts; simpl.
  - intros [= <-]. split; [reflexivity | intros e []].
  - destruct (require_default _) as [e | body]; [discriminate |].
    destruct (ExtensionManager.load_static bundledPath rest) as [evs [e | tl]];
      simpl; [discriminate |].
    intros [= <-]. destruct (IH tl eq_refl) as [Hnames Hpaths].
    split; [simpl; rewrite Hnames; reflexivity |].
    intros e [<- | Hin]; [reflexivity | exact (Hpaths e Hin)].
Qed.

Lemma filter_is_dir (p : string) (names : list string) (n : string) :
  In n (List.filter (is_dir p) names) -> In n names /\ is_dir p n = true.
Proof. apply filter_In. Qed.

(** X23. When every entry of an existing extension directory can be
    examined and no module throws [null] or [undefined] when it is loaded,
    [loadDynamicExtensions] returns, in the order of the listing,
    one extension for each entry that is a directory, holds an [index.js]
    and whose module loads without throwing; its path is the directory and
    its name the base name of that path.  A module that throws anything else
    on loading only drops its own extension. *)
Theorem loadDynamicExtensions_result (extensionsPath : string) (tick : nat)
  (names : list string) :
  existsSync extensionsPath = true ->
  readdirSync extensionsPath = inr names ->
  (forall n, In n names -> exists b, isDirectory (path_join extensionsPath n) = inr b) ->
  (forall n, In n names -> is_dir extensionsPath n = true ->
     module_throws_nullish extensionsPath n = false) ->
  snd (ExtensionManager.loadDynamicExtensions extensionsPath tick)
  = inr (omap (loadable extensionsPath) (List.filter (is_dir extensionsPath) names)).
Proof.
  intros Hexists Hread Hstat Hnull. unfold ExtensionManager.loadDynamicExtensions.
  rewrite Hexists, Hread. cbn [negb].
  rewrite (directories_filter _ _ Hstat).
  pose proof (load_entries_result extensionsPath
                (List.filter (is_dir extensionsPath) names) tick) as Hres.
  destruct (ExtensionManager.load_entries _ _ tick) as [[evs tick'] res].
  simpl in *. rewrite Hres, defined_map_omap; [reflexivity |].
  intros n Hn. apply filter_is_dir in Hn as [Hn Hd]. exact (Hnull n Hn Hd).
Qed.

(** X24. Under the same conditions the log holds exactly one line naming
    each directory, in the order of the listing: a warning when its module
    threw, and the debug line of a loaded extension otherwise, also for a
    directory that holds no [index.js] and yields no extension. *)
Theorem every_directory_is_reported_once (extensionsPath : string) (tick : nat)
  (names : list string) :
  existsSync extensionsPath = true ->
  readdirSync extensionsPath = inr names ->
  (forall n, In n names -> exists b, isDirectory (path_join extensionsPath n) = inr b) ->
  (forall n, In n names -> is_dir extensionsPath n = true ->
     module_throws_nullish extensionsPath n = false) ->
  flat_map reported (fst (fst (ExtensionManager.loadDynamicExtensions extensionsPath tick)))
  = map (fun n => (report_level extensionsPath n, VStr n))
        (List.filter (is_dir extensionsPath) names).
Proof.
  intros Hexists Hread Hstat Hnull. unfold ExtensionManager.loadDynamicExtensions.
  rewrite Hexists, Hread. cbn [negb].
  rewrite (directories_filter _ _ Hstat).
  pose proof (load_entries_reported extensionsPath
                (List.filter (is_dir extensionsPath) names) tick) as Hrep.
  destruct (ExtensionManager.load_entries _ _ tick) as [[evs tick'] res].
  simpl in *. apply Hrep.
  intros n Hn. apply filter_is_dir in Hn as [Hn Hd]. exact (Hnull n Hn Hd).
Qed.

(** X25. If [statSync] throws for one entry of the directory,
    [loadDynamicExtensions] throws such an exception and nothing of the
    directory is loaded: no module is required, nothing is logged and the
    clock is not read. *)
Theorem failing_stat_loads_nothing (extensionsPath : string) (tick : nat)
  (names : list string) (n : string) (e : error) :
  existsSync extensionsPath = true ->
  readdirSync extensionsPath = inr names ->
  In n names ->
  isDirectory (path_join extensionsPath n) = inl e ->
  fst (ExtensionManager.loadDynamicExtensions extensionsPath tick) = ([], tick)
  /\ exists n' e',
       In n' names /\ isDirectory (path_join extensionsPath n') = inl e'
       /\ snd (ExtensionManager.loadDynamicExtensions extensionsPath tick) = inl e'.
Proof.
  intros Hexists Hread Hin Hn. unfold ExtensionManager.loadDynamicExtensions.
  rewrite Hexists, Hread. cbn [negb].
  destruct (directories_throws extensionsPath names n e Hin Hn) as (n' & e' & Hin' & Hn' & ->).
  split; [reflexivity |]. exists n', e'. repeat split; assumption.
Qed.

(** X26. [loadDynamicExtensions] creates a directory exactly when the
    directory it was asked to scan does not exist, and then that one. *)
Theorem directory_created_iff_missing (extensionsPath : string) (tick : nat) (dir : string) :
  In (Mkdir dir) (fst (fst (ExtensionManager.loadDynamicExtensions extensionsPath tick)))
  <-> dir = extensionsPath /\ existsSync extensionsPath = false.
Proof.
  unfold ExtensionManager.loadDynamicExtensions.
  destruct (existsSync extensionsPath) eqn:Hexists; cbn [negb].
  - split; [| intros [_ Hf]; discriminate].
    destruct (readdirSync extensionsPath) as [e | names]; [intros [] |].
    destruct (ExtensionManager.directories extensionsPath names) as [e | dirs];
      [intros [] |].
    pose proof (load_entries_events extensionsPath dirs tick (Mkdir dir)) as Hev.
    destruct (ExtensionManager.load_entries _ _ tick) as [[evs tick'] res].
    simpl in *. intros Hin. destruct (Hev Hin).
  - simpl. split.
    + intros [Hlog | [[= <-] | []]]; [discriminate | split; reflexivity].
    + intros [-> _]. right. left. reflexivity.
Qed.

(** X27. The only modules [loadDynamicExtensions] requires are existing
    [index.js] files directly inside entries of the scanned directory that
    are directories. *)
Theorem only_index_of_directories_required (extensionsPath : string) (tick : nat)
  (modulePath : string) :
  In (Required modulePath)
     (fst (fst (ExtensionManager.loadDynamicExtensions extensionsPath tick))) ->
  exists names n,
    readdirSync extensionsPath = inr names /\ In n names
    /\ isDirectory (path_join extensionsPath n) = inr true
    /\ modulePath = path_join (path_join extensionsPath n) "index.js"
    /\ existsSync modulePath = true.
Proof.
  unfold ExtensionManager.loadDynamicExtensions.
  destruct (negb (existsSync extensionsPath)).
  - simpl. intros [Hlog | [Hmk | []]]; discriminate.
  - destruct (readdirSync extensionsPath) as [e | names]; [intros [] |].
    destruct (ExtensionManager.directories extensionsPath names) as [e | dirs] eqn:Hdirs;
      [intros [] |].
    pose proof (load_entries_events extensionsPath dirs tick (Required modulePath)) as Hev.
    destruct (ExtensionManager.load_entries _ _ tick) as [[evs tick'] res].
    simpl in *. intros Hin. destruct (Hev Hin) as (n & Hn & Hm & Hex).
    destruct (directories_sound _ _ _ _ Hdirs Hn) as [Hnames Hdir].
    exists names, n. repeat split; assumption.
Qed.

(** X28. Whenever [loadExtensions] returns, its result is the twenty static
    extensions in their fixed order, each with its path inside the bundled
    plugin directory, followed by the dynamic extensions of the bundled
    plugin directory and then by those of the plugin directory of the
    user. *)
Theorem loadExtensions_order (tick : nat)
  (exts : list ExtensionManager.IRegisteredExtension) :
  snd (ExtensionManager.loadExtensions tick) = inr exts ->
  exists statics bundled user,
    exts = statics ++ bundled ++ user
    /\ map ExtensionManager.name statics = ExtensionManager.staticExtensions
    /\ (forall e, In e statics ->
          ExtensionManager.path e
          = path_join (asarUnpacked sep bundledPlugins) (ExtensionManager.name e))
    /\ snd (ExtensionManager.loadDynamicExtensions
              (asarUnpacked sep bundledPlugins) tick) = inr bundled
    /\ snd (ExtensionManager.loadDynamicExtensions
              (path_join userData "plugins") tick) = inr user.
Proof.
  unfold ExtensionManager.loadExtensions. cbv zeta.
  pose proof (load_static_result (asarUnpacked sep bundledPlugins)
                ExtensionManager.staticExtensions) as Hstatic.
  destruct (ExtensionManager.load_static _ _) as [evs [e | statics]];
    [discriminate |].
  destruct (Hstatic statics eq_refl) as [Hnames Hpaths].
  destruct (ExtensionManager.loadDynamicExtensions (asarUnpacked sep bundledPlugins) tick)
    as [[evs1 tick1] [e | bundled]] eqn:Hbundled; [discriminate |].
  pose proof (loadDynamicExtensions_tick (path_join userData "plugins") tick1 tick) as Htick.
  destruct (ExtensionManager.loadDynamicExtensions (path_join userData "plugins") tick1)
    as [[evs2 tick2] [e | user]]; [discriminate |].
  simpl in *. intros [= <-].
  exists statics, bundled, user. repeat split; try assumption.
  symmetry. exact Htick.
Qed.

End LoadingFacts.

Lemma loadDynamicExtensions_result_witness :
  snd (@ExtensionManager.loadDynamicExtensions renderer packaged_linux plugin_dirs
         "/opt/vortex/resources/app.asar.unpacked/bundledPlugins" 0)
  = inr [ {| ExtensionManager.name := "gamebryo";
             ExtensionManager.path :=
               "/opt/vortex/resources/app.asar.unpacked/bundledPlugins/gamebryo";
             ExtensionManager.initFunc := [Invoke "registerReducer" [VObj 1; VFun 2]] |} ].
Proof.
  refine (eq_trans
    (@loadDynamicExtensions_result renderer packaged_linux plugin_dirs
       "/opt/vortex/resources/app.asar.unpacked/bundledPlugins" 0
       ["README.md"; "gamebryo"; "docs"; "broken"] _ _ _ _) _).
  - reflexivity.
  - reflexivity.
  - intros n _. eexists. reflexivity.
  - intros n [<- | [<- | [<- | [<- | []]]]] _; reflexivity.
  - vm_compute. reflexivity.
Defined.

Lemma every_directory_is_reported_once_witness :
  flat_map reported
    (fst (fst (@ExtensionManager.loadDynamicExtensions renderer packaged_linux plugin_dirs
                 "/opt/vortex/resources/app.asar.unpacked/bundledPlugins" 0)))
  = [(Debug, VStr "gamebryo"); (Debug, VStr "docs"); (Warn, VStr "broken")].
Proof.
  refine (eq_trans
    (@every_directory_is_reported_once renderer packaged_linux plugin_dirs
       "/opt/vortex/resources/app.asar.unpacked/bundledPlugins" 0
       ["README.md"; "gamebryo"; "docs"; "broken"] _ _ _ _) _).
  - reflexivity.
  - reflexivity.
  - intros n _. eexists. reflexivity.
  - intros n [<- | [<- | [<- | [<- | []]]]] _; reflexivity.
  - vm_compute. reflexivity.
Defined.

(** What X23 and X24 leave out: a module that throws [null] when it is
    loaded makes the catch block throw, and with it
    [loadDynamicExtensions]; the extensions of the directory are lost, also
    those already loaded. *)
Example null_thrown_by_a_module_escapes :
  snd (@ExtensionManager.loadDynamicExtensions renderer packaged_linux null_module
         "/opt/vortex/resources/app.asar.unpacked/bundledPlugins" 0)
  = inl (@property_error renderer "null" "message").
Proof. reflexivity. Qed.

Lemma failing_stat_loads_nothing_witness :
  fst (@ExtensionManager.loadDynamicExtensions renderer packaged_linux dangling_entry
         "/opt/vortex/resources/app.asar.unpacked/bundledPlugins" 7) = ([], 7)
  /\ exists n' e',
       In n' ["gamebryo"; "dangling"]
       /\ @isDirectory dangling_entry
            (@path_join packaged_linux
               "/opt/vortex/resources/app.asar.unpacked/bundledPlugins" n') = inl e'
       /\ snd (@ExtensionManager.loadDynamicExtensions renderer packaged_linux dangling_entry
                 "/opt/vortex/resources/app.asar.unpacked/bundledPlugins" 7) = inl e'.
Proof.
  apply (@failing_stat_loads_nothing renderer packaged_linux dangling_entry
           "/opt/vortex/resources/app.asar.unpacked/bundledPlugins" 7
           ["gamebryo"; "dangling"] "dangling"
           (error_object "ENOENT: no such file or directory" "")).
  - reflexivity.
  - reflexivity.
  - simpl. right. left. reflexivity.
  - reflexivity.
Defined.

Lemma only_index_of_directories_required_witness :
  exists names n,
    @readdirSync plugin_dirs "/opt/vortex/resources/app.asar.unpacked/bundledPlugins"
    = inr names
    /\ In n names
    /\ @isDirectory plugin_dirs
         (@path_join packaged_linux
            "/opt/vortex/resources/app.asar.unpacked/bundledPlugins" n) = inr true
    /\ "/opt/vortex/resources/app.asar.unpacked/bundledPlugins/gamebryo/index.js"%string
       = @path_join packaged_linux
           (@path_join packaged_linux
              "/opt/vortex/resources/app.asar.unpacked/bundledPlugins" n) "index.js"
    /\ @existsSync plugin_dirs
         "/opt/vortex/resources/app.asar.unpacked/bundledPlugins/gamebryo/index.js" = true.
Proof.
  apply (@only_index_of_directories_required renderer packaged_linux plugin_dirs
           "/opt/vortex/resources/app.asar.unpacked/bundledPlugins" 0).
  vm_compute. right. left. reflexivity.
Defined.

Lemma loadExtensions_order_witness :
  exists statics bundled user,
    plugin_dirs_extensions = statics ++ bundled ++ user
    /\ map ExtensionManager.name statics = ExtensionManager.staticExtensions
    /\ (forall e, In e statics ->
          ExtensionManager.path e
          = @path_join packaged_linux
              (asarUnpacked (@sep plugin_dirs) (@bundledPlugins plugin_dirs))
              (ExtensionManager.name e))
    /\ snd (@ExtensionManager.loadDynamicExtensions renderer packaged_linux plugin_dirs
              (asarUnpacked (@sep plugin_dirs) (@bundledPlugins plugin_dirs)) 0)
       = inr bundled
    /\ snd (@ExtensionManager.loadDynamicExtensions renderer packaged_linux plugin_dirs
              (@path_join packaged_linux (@userData plugin_dirs) "plugins") 0)
       = inr user.
Proof.
  apply (@loadExtensions_order renderer packaged_linux plugin_dirs 0 plugin_dirs_extensions).
  vm_compute. reflexivity.
Defined.
